(** * apps/dsaparam.c : the [dsaparam] command of the openssl tool

    A shallow embedding of [dsaparam_main] and of the progress callback
    [gendsa_cb], followed by the properties of the parameter life cycle:
    which source the parameters come from, what is rendered where and in
    which order, and how failures reach the exit code.

    The functions of libcrypto and of apps/lib that [dsaparam_main] calls
    are not part of this file of the repository.  Their results are read
    from a record [world]: one field per callee, holding what that callee
    returns.  The calls themselves are recorded, in program order, in a
    trace of [event]s. *)

From Stdlib Require Import ZArith NArith List String Ascii Bool Lia.
From Stdlib Require Import DecimalString DecimalPos.
Import ListNotations.
Local Open Scope string_scope.
Local Open Scope Z_scope.

Set Implicit Arguments.

(** ** Text helpers *)

(** The character written [\n] in the C source. *)
Definition nl : string := String "010"%char EmptyString.

(** What [%d] prints for an [int]. *)
Definition fmt_d (z : Z) : string := NilZero.string_of_int (Z.to_int z).

(** ** Data *)

(** [typedef enum OPTION_choice].  [OPT_R_ENUM] and [OPT_PROV_ENUM] are
    macros of apps/include/opt.h that expand to the enumerators of the
    random-state and provider option families; each family is one
    constructor here, as [dsaparam_main] treats each through one group of
    case labels ([OPT_R_CASES], [OPT_PROV_CASES]). *)
Inductive OPTION_CHOICE : Type :=
| OPT_ERR | OPT_EOF | OPT_HELP
| OPT_INFORM | OPT_OUTFORM | OPT_IN | OPT_OUT | OPT_TEXT | OPT_C
| OPT_NOOUT | OPT_GENKEY | OPT_ENGINE | OPT_VERBOSE
| OPT_R_ENUM | OPT_PROV_ENUM.

(** The two values [opt_format(..., OPT_FMT_PEMDER, ...)] can store in
    [informat] and [outformat]; both variables start as [FORMAT_PEM]. *)
Inductive format : Type := FORMAT_PEM | FORMAT_ASN1.

Definition format_eqb (a b : format) : bool :=
  match a, b with
  | FORMAT_PEM, FORMAT_PEM | FORMAT_ASN1, FORMAT_ASN1 => true
  | _, _ => false
  end.

(** The four [BIO]s of the program: the globals [bio_err] and [bio_out],
    and the locals [in] and [out] of [dsaparam_main]. *)
Inductive BIO : Type := bio_err | bio_out | in_bio | out_bio.

Definition BIO_eqb (a b : BIO) : bool :=
  match a, b with
  | bio_err, bio_err | bio_out, bio_out
  | in_bio, in_bio | out_bio, out_bio => true
  | _, _ => false
  end.

(** An [EVP_PKEY] holding DSA domain parameters: the three numbers
    [EVP_PKEY_get_bn_param] reads under the names "p", "q" and "g". *)
Record DSA_params : Type := { dsa_p : N; dsa_q : N; dsa_g : N }.

(** An [EVP_PKEY] holding a DSA key made from some parameters. *)
Record DSA_key : Type :=
  { key_params : DSA_params; key_priv : N; key_pub : N }.

(** The part of an [EVP_PKEY_CTX] that [gendsa_cb] reads. *)
Record EVP_PKEY_CTX : Type :=
  { app_data : BIO;        (* EVP_PKEY_CTX_get_app_data(ctx) *)
    keygen_info : Z        (* EVP_PKEY_CTX_get_keygen_info(ctx, 0) *) }.

(** ** Events: the calls that leave [dsaparam.c], in program order *)

Inductive event : Type :=
| Ev_BIO_printf (b : BIO) (s : string)
| Ev_ERR_print_errors (b : BIO)
| Ev_opt_help
| Ev_setup_engine (arg : string)
| Ev_bio_open_default (infile : option string) (mode : ascii) (fmt : format)
| Ev_bio_open_owner (outfile : option string) (fmt : format) (private : bool)
| Ev_CTX_new_from_name
| Ev_CTX_set_cb
| Ev_CTX_set_app_data (b : BIO)
| Ev_paramgen_init
| Ev_CTX_set_dsa_paramgen_bits (bits : Z)
| Ev_paramgen (bits : Z)
| Ev_BIO_write (b : BIO) (c : ascii) (len : Z)
| Ev_BIO_flush (b : BIO)
| Ev_d2i_KeyParams_bio (b : BIO)
| Ev_PEM_read_bio_Parameters (b : BIO)
| Ev_print_params (b : BIO) (params : DSA_params)
| Ev_i2d_KeyParams_bio (b : BIO) (params : DSA_params)
| Ev_PEM_write_bio_Parameters (b : BIO) (params : DSA_params)
| Ev_CTX_free
| Ev_CTX_new (params : DSA_params)
| Ev_keygen_init
| Ev_keygen
| Ev_i2d_PrivateKey_bio (b : BIO) (pkey : option DSA_key)
| Ev_PEM_write_bio_PrivateKey (b : BIO) (pkey : option DSA_key)
| Ev_BIO_free (b : BIO)
| Ev_BIO_free_all (b : BIO)
| Ev_EVP_PKEY_free_pkey
| Ev_EVP_PKEY_free_params
| Ev_release_engine.

Definition trace : Type := list event.

(** ** The callees

    One field per function that [dsaparam_main] calls and whose result it
    uses or could use.  A pointer result is [true]/[Some] when it is not
    [NULL]; an [int] result is the [int]. *)
Record world : Type :=
  { prog : string;                                   (* opt_init *)
    opt_format : string -> option format;            (* OPT_FMT_PEMDER *)
    opt_int : string -> option Z;
    opt_rand : string -> bool;
    opt_provider : string -> bool;
    bio_open_default : option string -> format -> bool;
    bio_open_owner : option string -> format -> bool -> bool;
    EVP_PKEY_CTX_new_from_name : bool;
    EVP_PKEY_paramgen_init : Z;
    EVP_PKEY_CTX_set_dsa_paramgen_bits : Z -> Z;
    (* the progress signals raised during the search, the int returned,
       and what is stored through the [&params] argument *)
    EVP_PKEY_paramgen : Z -> list Z * Z * option DSA_params;
    d2i_KeyParams_bio : option DSA_params;
    PEM_read_bio_Parameters : option DSA_params;
    EVP_PKEY_print_params : DSA_params -> Z;
    i2d_KeyParams_bio : DSA_params -> Z;
    PEM_write_bio_Parameters : DSA_params -> Z;
    EVP_PKEY_CTX_new : DSA_params -> bool;
    EVP_PKEY_keygen_init : Z;
    EVP_PKEY_keygen : DSA_params -> Z * option DSA_key;
    i2d_PrivateKey_bio : option DSA_key -> Z;
    PEM_write_bio_PrivateKey : option DSA_key -> Z }.

(** ** Control flow: a trace, then fall through, [goto end] or a failed assertion *)

Inductive outcome (A : Type) : Type :=
| Next (a : A)            (* control reaches the next statement *)
| GotoEnd (ret : Z)       (* [goto end] with the current value of [ret] *)
| AssertFail.                  (* a failed [assert] *)

Arguments GotoEnd {A} ret.
Arguments AssertFail {A}.

Definition M (A : Type) : Type := (trace * outcome A)%type.

Definition mret {A} (a : A) : M A := ([], Next a).

Definition mbind {A B} (m : M A) (k : A -> M B) : M B :=
  match m with
  | (t, Next a) => let (t', o) := k a in ((t ++ t')%list, o)
  | (t, GotoEnd r) => (t, GotoEnd r)
  | (t, AssertFail) => (t, AssertFail)
  end.

Notation "x <- m ;; k" := (mbind m (fun x => k))
  (at level 61, m at next level, right associativity).
Notation "m ;;; k" := (mbind m (fun _ => k))
  (at level 61, right associativity).

Definition emit (e : event) : M unit := ([e], Next tt).
Definition emits (t : trace) : M unit := (t, Next tt).
Definition goto_end {A} (ret : Z) : M A := ([], GotoEnd ret).
Definition assert (b : bool) : M unit := if b then mret tt else ([], AssertFail).
Definition when (b : bool) (m : M unit) : M unit := if b then m else mret tt.

(** ** The local variables set by the option loop *)

Record locals : Type :=
  { engine : option string;      (* e: the -engine argument, if any *)
    infile : option string;
    outfile : option string;
    informat : format;
    outformat : format;
    noout : bool;
    C : bool;
    text : bool;
    genkey : bool;
    verbose : bool               (* the file-level static int *) }.

(** The initialisers at the head of [dsaparam_main]; [verbose] is the
    value the static variable has when the function is entered. *)
Definition locals_init (verbose0 : bool) : locals :=
  {| engine := None; infile := None; outfile := None;
     informat := FORMAT_PEM; outformat := FORMAT_PEM;
     noout := false; C := false; text := false; genkey := false;
     verbose := verbose0 |}.

Definition set_engine (v : option string) (l : locals) : locals :=
  {| engine := v; infile := infile l; outfile := outfile l;
     informat := informat l; outformat := outformat l; noout := noout l;
     C := C l; text := text l; genkey := genkey l; verbose := verbose l |}.
Definition set_infile (v : option string) (l : locals) : locals :=
  {| engine := engine l; infile := v; outfile := outfile l;
     informat := informat l; outformat := outformat l; noout := noout l;
     C := C l; text := text l; genkey := genkey l; verbose := verbose l |}.
Definition set_outfile (v : option string) (l : locals) : locals :=
  {| engine := engine l; infile := infile l; outfile := v;
     informat := informat l; outformat := outformat l; noout := noout l;
     C := C l; text := text l; genkey := genkey l; verbose := verbose l |}.
Definition set_informat (v : format) (l : locals) : locals :=
  {| engine := engine l; infile := infile l; outfile := outfile l;
     informat := v; outformat := outformat l; noout := noout l;
     C := C l; text := text l; genkey := genkey l; verbose := verbose l |}.
Definition set_outformat (v : format) (l : locals) : locals :=
  {| engine := engine l; infile := infile l; outfile := outfile l;
     informat := informat l; outformat := v; noout := noout l;
     C := C l; text := text l; genkey := genkey l; verbose := verbose l |}.
Definition set_noout (v : bool) (l : locals) : locals :=
  {| engine := engine l; infile := infile l; outfile := outfile l;
     informat := informat l; outformat := outformat l; noout := v;
     C := C l; text := text l; genkey := genkey l; verbose := verbose l |}.
Definition set_C (v : bool) (l : locals) : locals :=
  {| engine := engine l; infile := infile l; outfile := outfile l;
     informat := informat l; outformat := outformat l; noout := noout l;
     C := v; text := text l; genkey := genkey l; verbose := verbose l |}.
Definition set_text (v : bool) (l : locals) : locals :=
  {| engine := engine l; infile := infile l; outfile := outfile l;
     informat := informat l; outformat := outformat l; noout := noout l;
     C := C l; text := v; genkey := genkey l; verbose := verbose l |}.
Definition set_genkey (v : bool) (l : locals) : locals :=
  {| engine := engine l; infile := infile l; outfile := outfile l;
     informat := informat l; outformat := outformat l; noout := noout l;
     C := C l; text := text l; genkey := v; verbose := verbose l |}.
Definition set_verbose (v : bool) (l : locals) : locals :=
  {| engine := engine l; infile := infile l; outfile := outfile l;
     informat := informat l; outformat := outformat l; noout := noout l;
     C := C l; text := text l; genkey := genkey l; verbose := v |}.

(** ** The command line, as the option parser hands it over

    [cl_opts] lists what the successive calls of [opt_next()] return, each
    with the string [opt_arg()] gives for it; after the last one
    [opt_next()] returns [OPT_EOF].  [cl_rest] is [opt_rest()], of length
    [opt_num_rest()]. *)
Record cmdline : Type :=
  { cl_opts : list (OPTION_CHOICE * string);
    cl_rest : list string }.

(** ** The option loop (lines 79-131) *)

Section Program.

Variable w : world.

(** The constant of <openssl/dsa.h>. *)
Variable OPENSSL_DSA_MAX_MODULUS_BITS : Z.

(** The label [opthelp]. *)
Definition opthelp {A} : M A :=
  emit (Ev_BIO_printf bio_err (prog w ++ ": Use -help for summary." ++ nl)) ;;;
  goto_end 1.

(** The body of the [switch] for one option. *)
Definition opt_case (o : OPTION_CHOICE) (arg : string) (l : locals)
  : M locals :=
  match o with
  | OPT_EOF | OPT_ERR => opthelp
  | OPT_HELP => emit Ev_opt_help ;;; goto_end 0
  | OPT_INFORM =>
      match opt_format w arg with
      | Some f => mret (set_informat f l)
      | None => opthelp
      end
  | OPT_IN => mret (set_infile (Some arg) l)
  | OPT_OUTFORM =>
      match opt_format w arg with
      | Some f => mret (set_outformat f l)
      | None => opthelp
      end
  | OPT_OUT => mret (set_outfile (Some arg) l)
  | OPT_ENGINE => emit (Ev_setup_engine arg) ;;; mret (set_engine (Some arg) l)
  | OPT_TEXT => mret (set_text true l)
  | OPT_C => mret (set_C true l)
  | OPT_GENKEY => mret (set_genkey true l)
  | OPT_R_ENUM => if opt_rand w arg then mret l else goto_end 1
  | OPT_PROV_ENUM => if opt_provider w arg then mret l else goto_end 1
  | OPT_NOOUT => mret (set_noout true l)
  | OPT_VERBOSE => mret (set_verbose true l)
  end.

(** [while ((o = opt_next()) != OPT_EOF) switch (o) ...] *)
Fixpoint opt_loop (opts : list (OPTION_CHOICE * string)) (l : locals)
  : M locals :=
  match opts with
  | [] => mret l
  | (OPT_EOF, _) :: _ => mret l
  | (o, arg) :: opts' => l' <- opt_case o arg l ;; opt_loop opts' l'
  end.

(** Lines 132-140: the positional argument.  The result is the pair
    ([numbits], [num]). *)
Definition read_numbits (rest : list string) : M (Z * Z) :=
  match rest with
  | [a] =>
      match opt_int w a with
      | None => goto_end 1
      | Some num => if num <? 0 then goto_end 1 else mret (num, num)
      end
  | _ => mret (-1, 0)
  end.

(** ** The progress callback (lines 291-308) *)

(** [static const char symbols[] = ".+*\n"] *)
Definition symbols : string := ".+*" ++ nl.

(** [sizeof(symbols)]: the characters and the terminating NUL. *)
Definition sizeof_symbols : Z := Z.of_nat (String.length symbols) + 1.

(** [symbols[p]] for an index inside the literal. *)
Definition symbols_at (p : Z) : ascii :=
  match String.get (Z.to_nat p) symbols with
  | Some c => c
  | None => "000"%char
  end.

(** [gendsa_cb]: the calls it makes, and the [int] it returns.  The cast
    [(size_t)p] is only evaluated when [p >= 0], where it changes
    nothing. *)
Definition gendsa_cb (verbose_now : bool) (ctx : EVP_PKEY_CTX)
  : trace * Z :=
  if negb verbose_now then ([], 1)
  else
    let b := app_data ctx in
    let p := keygen_info ctx in
    let c := if (0 <=? p) && (p <? sizeof_symbols - 1)
             then symbols_at p else "?"%char in
    ([Ev_BIO_write b c 1; Ev_BIO_flush b], 1).

(** Modelled from the spec: [EVP_PKEY_paramgen] is libcrypto code.  While
    it searches it invokes the callback installed in the context,
    synchronously, zero or more times, once per progress signal; the
    context carries the application data installed with it. *)
Definition paramgen_callbacks (verbose_now : bool) (b : BIO)
  (signals : list Z) : trace :=
  flat_map
    (fun p => fst (gendsa_cb verbose_now {| app_data := b; keygen_info := p |}))
    signals.

(** ** Big numbers and the source-code fragment (lines 203-239) *)

(** Modelled from the spec: [BN_num_bits] is libcrypto code; it is the bit
    length of the value. *)
Definition BN_num_bits (a : N) : Z := Z.of_N (N.size a).

(** Modelled from the spec: [BN_num_bytes] is a libcrypto macro; the
    number of bytes of the minimal representation. *)
Definition BN_num_bytes (a : N) : Z := (BN_num_bits a + 7) / 8.

(** Base-256 digits, least significant first. *)
Fixpoint le_bytes (fuel : nat) (a : N) : list N :=
  match fuel with
  | O => []
  | S fuel' =>
      if (a =? 0)%N then []
      else (a mod 256)%N :: le_bytes fuel' (a / 256)%N
  end.

(** Modelled from the spec: [BN_bn2bin] is libcrypto code; it gives the
    big-endian minimal representation of the value. *)
Definition BN_bn2bin (a : N) : list N :=
  rev (le_bytes (N.to_nat (N.size a)) a).

(** Modelled from the spec: [BN_bin2bn] is libcrypto code; it reads a
    big-endian byte string back into a value. *)
Definition BN_bin2bn (bs : list N) : N :=
  fold_left (fun acc b => (acc * 256 + b)%N) bs 0%N.

Definition hex_digit (d : N) : ascii :=
  match String.get (N.to_nat d) "0123456789ABCDEF" with
  | Some c => c
  | None => "?"%char
  end.

(** What [%02X] prints for an [unsigned char]. *)
Definition fmt_02X (b : N) : string :=
  String (hex_digit (b / 16)%N) (String (hex_digit (b mod 16)%N) EmptyString).

Fixpoint hex_list (bs : list N) : string :=
  match bs with
  | [] => ""
  | [b] => "0x" ++ fmt_02X b
  | b :: bs' => "0x" ++ fmt_02X b ++ ", " ++ hex_list bs'
  end.

(** Modelled from the spec: [print_bignum_var] is code of apps/lib.  It
    writes the declaration of a literal byte array named after [var] and
    [len], holding the big-endian minimal representation of [a]. *)
Definition print_bignum_var (a : N) (var : string) (len : Z) : string :=
  "    static unsigned char " ++ var ++ "_" ++ fmt_d len ++ "[] = {" ++ nl
  ++ "        " ++ hex_list (BN_bn2bin a) ++ nl
  ++ "    };" ++ nl.

(** The body of [if (C) { ... }]: one event per call, all on [bio_out].
    The buffer [data] of [len + 20] bytes is scratch space of
    [print_bignum_var] and holds nothing afterwards. *)
Definition C_block (params : DSA_params) : trace :=
  let p := dsa_p params in
  let q := dsa_q params in
  let g := dsa_g params in
  let bits_p := BN_num_bits p in
  let d := fmt_d bits_p in
  [ Ev_BIO_printf bio_out ("static DSA *get_dsa" ++ d ++ "(void)" ++ nl ++ "{" ++ nl);
    Ev_BIO_printf bio_out (print_bignum_var p "dsap" bits_p);
    Ev_BIO_printf bio_out (print_bignum_var q "dsaq" bits_p);
    Ev_BIO_printf bio_out (print_bignum_var g "dsag" bits_p);
    Ev_BIO_printf bio_out
      ("    DSA *dsa = DSA_new();" ++ nl ++
       "    BIGNUM *p, *q, *g;" ++ nl ++
       nl);
    Ev_BIO_printf bio_out
      ("    if (dsa == NULL)" ++ nl ++
       "        return NULL;" ++ nl);
    Ev_BIO_printf bio_out
      ("    if (!DSA_set0_pqg(dsa, p = BN_bin2bn(dsap_" ++ d ++
       ", sizeof(dsap_" ++ d ++ "), NULL)," ++ nl);
    Ev_BIO_printf bio_out
      ("                           q = BN_bin2bn(dsaq_" ++ d ++
       ", sizeof(dsaq_" ++ d ++ "), NULL)," ++ nl);
    Ev_BIO_printf bio_out
      ("                           g = BN_bin2bn(dsag_" ++ d ++
       ", sizeof(dsag_" ++ d ++ "), NULL))) {" ++ nl);
    Ev_BIO_printf bio_out
      ("        DSA_free(dsa);" ++ nl ++
       "        BN_free(p);" ++ nl ++
       "        BN_free(q);" ++ nl ++
       "        BN_free(g);" ++ nl ++
       "        return NULL;" ++ nl ++
       "    }" ++ nl ++
       "    return dsa;" ++ nl ++ "}" ++ nl) ].

(** ** [dsaparam_main] after the option loop *)

(** Lines 141-156: the streams and the generation context. *)
Definition open_streams (l : locals) (private : bool) : M unit :=
  emit (Ev_bio_open_default (infile l) "r"%char (informat l)) ;;;
  (if bio_open_default w (infile l) (informat l) then mret tt
   else goto_end 1) ;;;
  emit (Ev_bio_open_owner (outfile l) (outformat l) private) ;;;
  (if bio_open_owner w (outfile l) (outformat l) private then mret tt
   else goto_end 1) ;;;
  emit Ev_CTX_new_from_name ;;;
  (if EVP_PKEY_CTX_new_from_name w then mret tt
   else
     emit (Ev_ERR_print_errors bio_err) ;;;
     emit (Ev_BIO_printf bio_err
       ("Error, DSA parameter generation context allocation failed" ++ nl)) ;;;
     goto_end 1).

(** The format string of lines 160-161 with its two arguments. *)
Definition warning_text (max numbits : Z) : string :=
  "Warning: It is not recommended to use more than "
  ++ fmt_d max ++ " bit for DSA keys." ++ nl ++
  "         Your key size is " ++ fmt_d numbits
  ++ "! Larger key size may behave not as expected." ++ nl.

(** Lines 158-187: the branch [numbits > 0]. *)
Definition generate (l : locals) (numbits num : Z) : M (option DSA_params) :=
  when (OPENSSL_DSA_MAX_MODULUS_BITS <? numbits)
    (emit (Ev_BIO_printf bio_err
       (warning_text OPENSSL_DSA_MAX_MODULUS_BITS numbits))) ;;;
  emit Ev_CTX_set_cb ;;;
  emit (Ev_CTX_set_app_data bio_err) ;;;
  when (verbose l)
    (emit (Ev_BIO_printf bio_err
       ("Generating DSA parameters, " ++ fmt_d num ++ " bit long prime" ++ nl)) ;;;
     emit (Ev_BIO_printf bio_err ("This could take some time" ++ nl))) ;;;
  emit Ev_paramgen_init ;;;
  (if EVP_PKEY_paramgen_init w <=? 0 then
     emit (Ev_ERR_print_errors bio_err) ;;;
     emit (Ev_BIO_printf bio_err
       ("Error, DSA key generation paramgen init failed" ++ nl)) ;;;
     goto_end 1
   else mret tt) ;;;
  emit (Ev_CTX_set_dsa_paramgen_bits num) ;;;
  (if EVP_PKEY_CTX_set_dsa_paramgen_bits w num =? 0 then
     emit (Ev_ERR_print_errors bio_err) ;;;
     emit (Ev_BIO_printf bio_err
       ("Error, DSA key generation setting bit length failed" ++ nl)) ;;;
     goto_end 1
   else mret tt) ;;;
  let '(signals, rc, params) := EVP_PKEY_paramgen w num in
  emit (Ev_paramgen num) ;;;
  emits (paramgen_callbacks (verbose l) bio_err signals) ;;;
  if rc <=? 0 then
    emit (Ev_ERR_print_errors bio_err) ;;;
    emit (Ev_BIO_printf bio_err ("Error, DSA key generation failed" ++ nl)) ;;;
    goto_end 1
  else mret params.

(** Lines 188-192: the two loading branches. *)
Definition load (l : locals) : M (option DSA_params) :=
  if format_eqb (informat l) FORMAT_ASN1 then
    emit (Ev_d2i_KeyParams_bio in_bio) ;;;
    mret (d2i_KeyParams_bio w)
  else
    emit (Ev_PEM_read_bio_Parameters in_bio) ;;;
    mret (PEM_read_bio_Parameters w).

(** Lines 157-197: the parameters, from one source or the other. *)
Definition resolve (l : locals) (numbits num : Z) : M DSA_params :=
  params <- (if 0 <? numbits then generate l numbits num else load l) ;;
  match params with
  | None =>
      emit (Ev_BIO_printf bio_err ("unable to load DSA parameters" ++ nl)) ;;;
      emit (Ev_ERR_print_errors bio_err) ;;;
      goto_end 1
  | Some params => mret params
  end.

(** Lines 241-254: the serialized parameters. *)
Definition write_params (l : locals) (params : DSA_params) : M unit :=
  let noout' :=
    if format_eqb (outformat l) FORMAT_ASN1 && genkey l then true
    else noout l in
  when (negb noout')
    (i <- (if format_eqb (outformat l) FORMAT_ASN1 then
             emit (Ev_i2d_KeyParams_bio out_bio params) ;;;
             mret (i2d_KeyParams_bio w params)
           else
             emit (Ev_PEM_write_bio_Parameters out_bio params) ;;;
             mret (PEM_write_bio_Parameters w params)) ;;
     if i =? 0 then
       emit (Ev_BIO_printf bio_err ("unable to write DSA parameters" ++ nl)) ;;;
       emit (Ev_ERR_print_errors bio_err) ;;;
       goto_end 1
     else mret tt).

(** Lines 255-279: the key.  The value assigned to [i] at the end is not
    read again. *)
Definition derive_key (l : locals) (private : bool) (params : DSA_params)
  : M unit :=
  when (genkey l)
    (emit Ev_CTX_free ;;;
     emit (Ev_CTX_new params) ;;;
     (if EVP_PKEY_CTX_new w params then mret tt
      else
        emit (Ev_ERR_print_errors bio_err) ;;;
        emit (Ev_BIO_printf bio_err
          ("Error, DSA key generation context allocation failed" ++ nl)) ;;;
        goto_end 1) ;;;
     emit Ev_keygen_init ;;;
     (if EVP_PKEY_keygen_init w =? 0 then
        emit (Ev_BIO_printf bio_err
          ("unable to initialise for key generation" ++ nl)) ;;;
        emit (Ev_ERR_print_errors bio_err) ;;;
        goto_end 1
      else mret tt) ;;;
     let '(rc, pkey) := EVP_PKEY_keygen w params in
     emit Ev_keygen ;;;
     (if rc =? 0 then
        emit (Ev_BIO_printf bio_err ("unable to generate key" ++ nl)) ;;;
        emit (Ev_ERR_print_errors bio_err) ;;;
        goto_end 1
      else mret tt) ;;;
     assert private ;;;
     (if format_eqb (outformat l) FORMAT_ASN1 then
        emit (Ev_i2d_PrivateKey_bio out_bio pkey)
      else
        emit (Ev_PEM_write_bio_PrivateKey out_bio pkey))).

(** Lines 199-279: everything done with resolved parameters. *)
Definition render (l : locals) (private : bool) (params : DSA_params)
  : M unit :=
  when (text l) (emit (Ev_print_params out_bio params)) ;;;
  when (C l) (emits (C_block params)) ;;;
  write_params l params ;;;
  derive_key l private params.

(** Lines 141-279, with the variables the option stage has set. *)
Definition stages (l : locals) (numbits num : Z) : M unit :=
  let private := if genkey l then true else false in
  open_streams l private ;;;
  params <- resolve l numbits num ;;
  render l private params.

(** Lines 78-140: the option stage; it yields the locals and the pair
    ([numbits], [num]). *)
Definition options (verbose0 : bool) (cl : cmdline) : M (locals * (Z * Z)) :=
  l <- opt_loop (cl_opts cl) (locals_init verbose0) ;;
  nb <- read_numbits (cl_rest cl) ;;
  mret (l, nb).

(** Lines 78-280. *)
Definition body (verbose0 : bool) (cl : cmdline) : M unit :=
  x <- options verbose0 cl ;;
  stages (fst x) (fst (snd x)) (snd (snd x)).

(** The label [end]: lines 282-287. *)
Definition cleanup : trace :=
  [ Ev_BIO_free in_bio; Ev_BIO_free_all out_bio; Ev_CTX_free;
    Ev_EVP_PKEY_free_pkey; Ev_EVP_PKEY_free_params; Ev_release_engine ].

(** How a call of [dsaparam_main] ends. *)
Inductive result : Type :=
| Exit (ret : Z)          (* [return ret] *)
| Aborted.                (* a failed [assert] *)

(** [dsaparam_main]: the calls made, and how the call ends.  [ret] is 1
    from its initialiser until [OPT_HELP] or line 280 sets it to 0. *)
Definition dsaparam_main (verbose0 : bool) (cl : cmdline) : trace * result :=
  match body verbose0 cl with
  | (t, Next _) => ((t ++ cleanup)%list, Exit 0)
  | (t, GotoEnd ret) => ((t ++ cleanup)%list, Exit ret)
  | (t, AssertFail) => (t, Aborted)
  end.

End Program.

(** ** Reading a trace *)

(** A stream is opened. *)
Definition is_open (e : event) : bool :=
  match e with
  | Ev_bio_open_default _ _ _ | Ev_bio_open_owner _ _ _ => true
  | _ => false
  end.

(** The input stream is read. *)
Definition is_input_read (e : event) : bool :=
  match e with
  | Ev_d2i_KeyParams_bio _ | Ev_PEM_read_bio_Parameters _ => true
  | _ => false
  end.

(** A step of parameter generation. *)
Definition is_generation (e : event) : bool :=
  match e with
  | Ev_CTX_set_cb | Ev_paramgen_init | Ev_CTX_set_dsa_paramgen_bits _
  | Ev_paramgen _ => true
  | _ => false
  end.

(** A serialized record (parameters or private key) is written. *)
Definition is_record (e : event) : bool :=
  match e with
  | Ev_i2d_KeyParams_bio _ _ | Ev_PEM_write_bio_Parameters _ _
  | Ev_i2d_PrivateKey_bio _ _ | Ev_PEM_write_bio_PrivateKey _ _ => true
  | _ => false
  end.

(** Serialized parameters are written. *)
Definition is_params_record (e : event) : bool :=
  match e with
  | Ev_i2d_KeyParams_bio _ _ | Ev_PEM_write_bio_Parameters _ _ => true
  | _ => false
  end.

(** A rendering: the text dump, a piece of the source-code fragment, or a
    serialized record.  Formatted output to [bio_err] is a diagnostic, not
    a rendering. *)
Definition is_rendering (e : event) : bool :=
  match e with
  | Ev_print_params _ _ => true
  | Ev_BIO_printf b _ => negb (BIO_eqb b bio_err)
  | _ => is_record e
  end.

(** A message on the diagnostic stream. *)
Definition is_diagnostic (e : event) : bool :=
  match e with
  | Ev_BIO_printf b _ => BIO_eqb b bio_err
  | _ => false
  end.

(** Something is written to [b]. *)
Definition writes_to (b : BIO) (e : event) : bool :=
  match e with
  | Ev_BIO_printf b' _ | Ev_ERR_print_errors b' | Ev_BIO_write b' _ _
  | Ev_print_params b' _
  | Ev_i2d_KeyParams_bio b' _ | Ev_PEM_write_bio_Parameters b' _
  | Ev_i2d_PrivateKey_bio b' _ | Ev_PEM_write_bio_PrivateKey b' _ =>
      BIO_eqb b' b
  | _ => false
  end.

(** The value of a byte string given least significant byte first. *)
Definition le_value (bs : list N) : N :=
  fold_right (fun b acc => (b + 256 * acc)%N) 0%N bs.

(** ** Reading a literal byte array back *)

(** The value of a character printed by [%02X]. *)
Definition hex_value (c : ascii) : option N :=
  let n := N_of_ascii c in
  if ((48 <=? n) && (n <=? 57))%N then Some (n - 48)%N
  else if ((65 <=? n) && (n <=? 70))%N then Some (n - 55)%N
  else None.

(** The bytes a C compiler reads from the text of an initializer: every
    [0x] followed by two hexadecimal digits is one byte. *)
Fixpoint scan_hex (s : string) : list N :=
  match s with
  | EmptyString => []
  | String c rest =>
      if (c =? "0")%char then
        match rest with
        | String x (String a (String b rest')) =>
            if (x =? "x")%char then
              match hex_value a, hex_value b with
              | Some h, Some l => (16 * h + l)%N :: scan_hex rest'
              | _, _ => scan_hex rest
              end
            else scan_hex rest
        | _ => scan_hex rest
        end
      else scan_hex rest
  end.

(** No character of the string is the letter x. *)
Fixpoint no_x (s : string) : bool :=
  match s with
  | EmptyString => true
  | String c rest => negb (c =? "x")%char && no_x rest
  end.

(** The text printed on [b], call after call. *)
Fixpoint printed (b : BIO) (t : trace) : string :=
  match t with
  | [] => ""
  | Ev_BIO_printf b' s :: t' =>
      if BIO_eqb b' b then s ++ printed b t' else printed b t'
  | _ :: t' => printed b t'
  end.

(** What the callback writes for a progress signal. *)
Definition progress_char (p : Z) : ascii :=
  match p with
  | 0 => "."
  | 1 => "+"
  | 2 => "*"
  | 3 => "010"
  | _ => "?"
  end%char.

(** ** Worlds and command lines used in the examples *)

Module Examples.

Definition the_params : DSA_params := {| dsa_p := 23; dsa_q := 11; dsa_g := 4 |}.

Definition the_key : DSA_key :=
  {| key_params := the_params; key_priv := 3; key_pub := 18 |}.

(** Every callee succeeds; the search raises five progress signals. *)
Definition world_ok : world :=
  {| prog := "dsaparam";
     opt_format := fun s =>
       if (s =? "DER")%string then Some FORMAT_ASN1
       else if (s =? "PEM")%string then Some FORMAT_PEM else None;
     opt_int := fun s => option_map Z.of_int (NilZero.int_of_string s);
     opt_rand := fun _ => true;
     opt_provider := fun _ => true;
     bio_open_default := fun _ _ => true;
     bio_open_owner := fun _ _ _ => true;
     EVP_PKEY_CTX_new_from_name := true;
     EVP_PKEY_paramgen_init := 1;
     EVP_PKEY_CTX_set_dsa_paramgen_bits := fun _ => 1;
     EVP_PKEY_paramgen := fun _ => ([0; 1; 2; 3; 7], 1, Some the_params);
     d2i_KeyParams_bio := Some the_params;
     PEM_read_bio_Parameters := Some the_params;
     EVP_PKEY_print_params := fun _ => 1;
     i2d_KeyParams_bio := fun _ => 1;
     PEM_write_bio_Parameters := fun _ => 1;
     EVP_PKEY_CTX_new := fun _ => true;
     EVP_PKEY_keygen_init := 1;
     EVP_PKEY_keygen := fun _ => (1, Some the_key);
     i2d_PrivateKey_bio := fun _ => 1;
     PEM_write_bio_PrivateKey := fun _ => 1 |}.

(** As [world_ok], but the input stream holds nothing that decodes. *)
Definition world_bad_input : world :=
  {| prog := prog world_ok;
     opt_format := opt_format world_ok;
     opt_int := opt_int world_ok;
     opt_rand := opt_rand world_ok;
     opt_provider := opt_provider world_ok;
     bio_open_default := bio_open_default world_ok;
     bio_open_owner := bio_open_owner world_ok;
     EVP_PKEY_CTX_new_from_name := EVP_PKEY_CTX_new_from_name world_ok;
     EVP_PKEY_paramgen_init := EVP_PKEY_paramgen_init world_ok;
     EVP_PKEY_CTX_set_dsa_paramgen_bits :=
       EVP_PKEY_CTX_set_dsa_paramgen_bits world_ok;
     EVP_PKEY_paramgen := EVP_PKEY_paramgen world_ok;
     d2i_KeyParams_bio := None;
     PEM_read_bio_Parameters := None;
     EVP_PKEY_print_params := EVP_PKEY_print_params world_ok;
     i2d_KeyParams_bio := i2d_KeyParams_bio world_ok;
     PEM_write_bio_Parameters := PEM_write_bio_Parameters world_ok;
     EVP_PKEY_CTX_new := EVP_PKEY_CTX_new world_ok;
     EVP_PKEY_keygen_init := EVP_PKEY_keygen_init world_ok;
     EVP_PKEY_keygen := EVP_PKEY_keygen world_ok;
     i2d_PrivateKey_bio := i2d_PrivateKey_bio world_ok;
     PEM_write_bio_PrivateKey := PEM_write_bio_PrivateKey world_ok |}.

(** As [world_ok], but the text dump reports failure. *)
Definition world_text_fails : world :=
  {| prog := prog world_ok;
     opt_format := opt_format world_ok;
     opt_int := opt_int world_ok;
     opt_rand := opt_rand world_ok;
     opt_provider := opt_provider world_ok;
     bio_open_default := bio_open_default world_ok;
     bio_open_owner := bio_open_owner world_ok;
     EVP_PKEY_CTX_new_from_name := EVP_PKEY_CTX_new_from_name world_ok;
     EVP_PKEY_paramgen_init := EVP_PKEY_paramgen_init world_ok;
     EVP_PKEY_CTX_set_dsa_paramgen_bits :=
       EVP_PKEY_CTX_set_dsa_paramgen_bits world_ok;
     EVP_PKEY_paramgen := EVP_PKEY_paramgen world_ok;
     d2i_KeyParams_bio := d2i_KeyParams_bio world_ok;
     PEM_read_bio_Parameters := PEM_read_bio_Parameters world_ok;
     EVP_PKEY_print_params := fun _ => 0;
     i2d_KeyParams_bio := i2d_KeyParams_bio world_ok;
     PEM_write_bio_Parameters := PEM_write_bio_Parameters world_ok;
     EVP_PKEY_CTX_new := EVP_PKEY_CTX_new world_ok;
     EVP_PKEY_keygen_init := EVP_PKEY_keygen_init world_ok;
     EVP_PKEY_keygen := EVP_PKEY_keygen world_ok;
     i2d_PrivateKey_bio := i2d_PrivateKey_bio world_ok;
     PEM_write_bio_PrivateKey := PEM_write_bio_PrivateKey world_ok |}.

(** As [world_ok], but writing the private key reports failure. *)
Definition world_key_write_fails : world :=
  {| prog := prog world_ok;
     opt_format := opt_format world_ok;
     opt_int := opt_int world_ok;
     opt_rand := opt_rand world_ok;
     opt_provider := opt_provider world_ok;
     bio_open_default := bio_open_default world_ok;
     bio_open_owner := bio_open_owner world_ok;
     EVP_PKEY_CTX_new_from_name := EVP_PKEY_CTX_new_from_name world_ok;
     EVP_PKEY_paramgen_init := EVP_PKEY_paramgen_init world_ok;
     EVP_PKEY_CTX_set_dsa_paramgen_bits :=
       EVP_PKEY_CTX_set_dsa_paramgen_bits world_ok;
     EVP_PKEY_paramgen := EVP_PKEY_paramgen world_ok;
     d2i_KeyParams_bio := d2i_KeyParams_bio world_ok;
     PEM_read_bio_Parameters := PEM_read_bio_Parameters world_ok;
     EVP_PKEY_print_params := EVP_PKEY_print_params world_ok;
     i2d_KeyParams_bio := i2d_KeyParams_bio world_ok;
     PEM_write_bio_Parameters := PEM_write_bio_Parameters world_ok;
     EVP_PKEY_CTX_new := EVP_PKEY_CTX_new world_ok;
     EVP_PKEY_keygen_init := EVP_PKEY_keygen_init world_ok;
     EVP_PKEY_keygen := EVP_PKEY_keygen world_ok;
     i2d_PrivateKey_bio := fun _ => 0;
     PEM_write_bio_PrivateKey := fun _ => 0 |}.

(** The value of [OPENSSL_DSA_MAX_MODULUS_BITS] in <openssl/dsa.h>. *)
Definition max_bits : Z := 10000.

(** [dsaparam -in in.pem 512] *)
Definition cl_in_and_bits : cmdline :=
  {| cl_opts := [(OPT_IN, "in.pem")]; cl_rest := ["512"] |}.

(** [dsaparam -outform DER -genkey -in in.pem] *)
Definition cl_genkey_der : cmdline :=
  {| cl_opts := [(OPT_OUTFORM, "DER"); (OPT_GENKEY, ""); (OPT_IN, "in.pem")];
     cl_rest := [] |}.

(** [dsaparam -text -in in.pem] *)
Definition cl_text : cmdline :=
  {| cl_opts := [(OPT_TEXT, ""); (OPT_IN, "in.pem")]; cl_rest := [] |}.

(** [dsaparam -C -out out.pem -in in.pem] *)
Definition cl_C_out : cmdline :=
  {| cl_opts := [(OPT_C, ""); (OPT_OUT, "out.pem"); (OPT_IN, "in.pem")];
     cl_rest := [] |}.

(** [dsaparam -inform DER -in in.der] *)
Definition cl_load_der : cmdline :=
  {| cl_opts := [(OPT_INFORM, "DER"); (OPT_IN, "in.der")]; cl_rest := [] |}.

(** [dsaparam -verbose 20000] *)
Definition cl_big : cmdline :=
  {| cl_opts := [(OPT_VERBOSE, "")]; cl_rest := ["20000"] |}.

(** [dsaparam 0] *)
Definition cl_zero : cmdline :=
  {| cl_opts := []; cl_rest := ["0"] |}.

End Examples.

(** An event of the option loop: an engine is set up, the help text is
    shown, or a usage message goes to [bio_err]. *)
Definition is_opt_event (e : event) : bool :=
  match e with
  | Ev_setup_engine _ | Ev_opt_help => true
  | Ev_BIO_printf b _ => BIO_eqb b bio_err
  | _ => false
  end.

(** The calls the callback makes. *)
Definition is_progress (e : event) : bool :=
  match e with
  | Ev_BIO_write b _ _ | Ev_BIO_flush b => BIO_eqb b bio_err
  | _ => false
  end.

(** The decoder call for an input format, and what it returns. *)
Definition read_event (f : format) : event :=
  match f with
  | FORMAT_ASN1 => Ev_d2i_KeyParams_bio in_bio
  | FORMAT_PEM => Ev_PEM_read_bio_Parameters in_bio
  end.

Definition decoded (w : world) (f : format) : option DSA_params :=
  match f with
  | FORMAT_ASN1 => d2i_KeyParams_bio w
  | FORMAT_PEM => PEM_read_bio_Parameters w
  end.

(** Both streams open and the generation context is allocated: the run
    gets as far as line 157. *)
Definition streams_ok (w : world) (l : locals) : bool :=
  bio_open_default w (infile l) (informat l)
  && bio_open_owner w (outfile l) (outformat l) (genkey l)
  && EVP_PKEY_CTX_new_from_name w.

(** An error report: the library's error queue or a message, on
    [bio_err]. *)
Definition is_err_report (e : event) : bool :=
  match e with
  | Ev_ERR_print_errors b | Ev_BIO_printf b _ => BIO_eqb b bio_err
  | _ => false
  end.

(** An event of lines 141-156. *)
Definition is_setup_event (e : event) : bool :=
  match e with
  | Ev_CTX_new_from_name => true
  | _ => is_open e || is_err_report e
  end.

(** An event of the generation branch, lines 158-187. *)
Definition is_generate_event (e : event) : bool :=
  match e with
  | Ev_CTX_set_app_data b => BIO_eqb b bio_err
  | _ => is_generation e || is_progress e || is_err_report e
  end.

(** An event of lines 199-279. *)
Definition is_render_event (e : event) : bool :=
  match e with
  | Ev_CTX_free | Ev_CTX_new _ | Ev_keygen_init | Ev_keygen => true
  | _ => is_rendering e || is_err_report e
  end.

(** Only [setup_engine] is called. *)
Definition is_engine_event (e : event) : bool :=
  match e with
  | Ev_setup_engine _ => true
  | _ => false
  end.

(** ** The stages in closed form

    What each stage amounts to in terms of what the callees return; the
    lemmas below show that [dsaparam_main] computes exactly this. *)

(** The parameters the run works with, if it gets any. *)
Definition resolved (w : world) (l : locals) (numbits : Z)
  : option DSA_params :=
  if 0 <? numbits then
    if (0 <? EVP_PKEY_paramgen_init w)
       && negb (EVP_PKEY_CTX_set_dsa_paramgen_bits w numbits =? 0)
       && (0 <? snd (fst (EVP_PKEY_paramgen w numbits)))
    then snd (EVP_PKEY_paramgen w numbits)
    else None
  else decoded w (informat l).

(** No serialized parameters are written: [noout] after line 242. *)
Definition suppressed (l : locals) : bool :=
  (format_eqb (outformat l) FORMAT_ASN1 && genkey l) || noout l.

(** The call that writes the parameters, and what it returns. *)
Definition params_record (l : locals) (params : DSA_params) : event :=
  match outformat l with
  | FORMAT_ASN1 => Ev_i2d_KeyParams_bio out_bio params
  | FORMAT_PEM => Ev_PEM_write_bio_Parameters out_bio params
  end.

Definition params_write (w : world) (l : locals) (params : DSA_params) : Z :=
  match outformat l with
  | FORMAT_ASN1 => i2d_KeyParams_bio w params
  | FORMAT_PEM => PEM_write_bio_Parameters w params
  end.

(** The call that writes the private key, and what it returns. *)
Definition key_record (l : locals) (pkey : option DSA_key) : event :=
  match outformat l with
  | FORMAT_ASN1 => Ev_i2d_PrivateKey_bio out_bio pkey
  | FORMAT_PEM => Ev_PEM_write_bio_PrivateKey out_bio pkey
  end.

Definition key_write (w : world) (l : locals) (pkey : option DSA_key) : Z :=
  match outformat l with
  | FORMAT_ASN1 => i2d_PrivateKey_bio w pkey
  | FORMAT_PEM => PEM_write_bio_PrivateKey w pkey
  end.

(** The parameter write passes the test of line 249, or is not made. *)
Definition params_written (w : world) (l : locals) (params : DSA_params)
  : bool :=
  suppressed l || negb (params_write w l params =? 0).

(** The three calls of key derivation pass the tests of lines 258-269. *)
Definition key_derived (w : world) (params : DSA_params) : bool :=
  EVP_PKEY_CTX_new w params
  && negb (EVP_PKEY_keygen_init w =? 0)
  && negb (fst (EVP_PKEY_keygen w params) =? 0).

(** The stages whose result [dsaparam_main] tests all pass. *)
Definition checked_stages_ok (w : world) (l : locals) (numbits : Z) : bool :=
  streams_ok w l
  && match resolved w l numbits with
     | None => false
     | Some params =>
         params_written w l params
         && (negb (genkey l) || key_derived w params)
     end.

(** ** Success of the stages, as the specification words it

    The specification speaks of stages that succeed or fail.  A call
    that returns an [int] has succeeded when the result is positive: 0
    and negative results report failure, as the tests of lines 171 and
    183 have it.  A call that delivers an object has succeeded when the
    object is there.  Not every test in [dsaparam_main] follows this. *)
Definition succeeded (rc : Z) : bool := 0 <? rc.

(** Parameter resolution succeeds and delivers parameters: with a positive
    bit length every call of generation succeeds and parameters are
    stored; otherwise the decoder of the configured format returns
    parameters. *)
Definition resolution_succeeds (w : world) (l : locals) (numbits : Z)
  : option DSA_params :=
  if 0 <? numbits then
    if succeeded (EVP_PKEY_paramgen_init w)
       && succeeded (EVP_PKEY_CTX_set_dsa_paramgen_bits w numbits)
       && succeeded (snd (fst (EVP_PKEY_paramgen w numbits)))
    then snd (EVP_PKEY_paramgen w numbits)
    else None
  else decoded w (informat l).

(** The text dump succeeds, or is not requested. *)
Definition text_dumped (w : world) (l : locals) (params : DSA_params)
  : bool :=
  negb (text l) || succeeded (EVP_PKEY_print_params w params).

(** The write of the serialized parameters succeeds, or is suppressed. *)
Definition params_write_succeeds (w : world) (l : locals)
  (params : DSA_params) : bool :=
  suppressed l || succeeded (params_write w l params).

(** Key derivation succeeds and delivers a key. *)
Definition key_derivation_succeeds (w : world) (params : DSA_params)
  : option DSA_key :=
  if EVP_PKEY_CTX_new w params
     && succeeded (EVP_PKEY_keygen_init w)
     && succeeded (fst (EVP_PKEY_keygen w params))
  then snd (EVP_PKEY_keygen w params)
  else None.

(** Key derivation and the write of the private key succeed, or no key is
    requested. *)
Definition key_written (w : world) (l : locals) (params : DSA_params)
  : bool :=
  negb (genkey l)
  || match key_derivation_succeeds w params with
     | Some key => succeeded (key_write w l (Some key))
     | None => false
     end.

(** Every requested stage other than the text dump succeeds: the streams
    and the generation context, parameter resolution, the parameter write
    and, when requested, key derivation and the private-key write. *)
Definition stages_ok_except_dump (w : world) (l : locals) (numbits : Z)
  : bool :=
  streams_ok w l
  && match resolution_succeeds w l numbits with
     | None => false
     | Some params =>
         params_write_succeeds w l params && key_written w l params
     end.

(** Every requested stage succeeds, the text dump included. *)
Definition all_requested_stages_ok (w : world) (l : locals) (numbits : Z)
  : bool :=
  stages_ok_except_dump w l numbits
  && match resolution_succeeds w l numbits with
     | None => false
     | Some params => text_dumped w l params
     end.

(** A failure that [dsaparam_main] does not look for occurs in the run.
    The run reaches a call whose result is only compared with 0 (setting
    the bit length at line 177, the parameter write at line 249, the two
    calls of key derivation at lines 264 and 269) and the call returns a
    negative result; or key derivation passes these tests and has stored
    no key; or the private-key write of lines 275-278, whose result is
    not read, is reached and does not succeed. *)
Definition unchecked_failure (w : world) (l : locals) (numbits : Z) : bool :=
  streams_ok w l
  && (((0 <? numbits) && (0 <? EVP_PKEY_paramgen_init w)
       && (EVP_PKEY_CTX_set_dsa_paramgen_bits w numbits <? 0))
      || match resolved w l numbits with
         | None => false
         | Some params =>
             let rc := fst (EVP_PKEY_keygen w params) in
             let pkey := snd (EVP_PKEY_keygen w params) in
             (negb (suppressed l) && (params_write w l params <? 0))
             || (genkey l && params_written w l params
                 && EVP_PKEY_CTX_new w params
                 && ((EVP_PKEY_keygen_init w <? 0)
                     || (negb (EVP_PKEY_keygen_init w =? 0)
                         && ((rc <? 0)
                             || (negb (rc =? 0)
                                 && (match pkey with
                                     | Some _ => false
                                     | None => true
                                     end
                                     || negb (succeeded
                                                (key_write w l pkey))))))))
         end).

(** The world in which [EVP_PKEY_print_params] returns what [f] says and
    every other callee behaves as in [w]. *)
Definition set_EVP_PKEY_print_params (f : DSA_params -> Z) (w : world)
  : world :=
  {| prog := prog w;
     opt_format := opt_format w;
     opt_int := opt_int w;
     opt_rand := opt_rand w;
     opt_provider := opt_provider w;
     bio_open_default := bio_open_default w;
     bio_open_owner := bio_open_owner w;
     EVP_PKEY_CTX_new_from_name := EVP_PKEY_CTX_new_from_name w;
     EVP_PKEY_paramgen_init := EVP_PKEY_paramgen_init w;
     EVP_PKEY_CTX_set_dsa_paramgen_bits :=
       EVP_PKEY_CTX_set_dsa_paramgen_bits w;
     EVP_PKEY_paramgen := EVP_PKEY_paramgen w;
     d2i_KeyParams_bio := d2i_KeyParams_bio w;
     PEM_read_bio_Parameters := PEM_read_bio_Parameters w;
     EVP_PKEY_print_params := f;
     i2d_KeyParams_bio := i2d_KeyParams_bio w;
     PEM_write_bio_Parameters := PEM_write_bio_Parameters w;
     EVP_PKEY_CTX_new := EVP_PKEY_CTX_new w;
     EVP_PKEY_keygen_init := EVP_PKEY_keygen_init w;
     EVP_PKEY_keygen := EVP_PKEY_keygen w;
     i2d_PrivateKey_bio := i2d_PrivateKey_bio w;
     PEM_write_bio_PrivateKey := PEM_write_bio_PrivateKey w |}.

(** ** Reading a decimal numeral back *)

Fixpoint read_digits (acc : Z) (s : string) : option Z :=
  match s with
  | EmptyString => Some acc
  | String c rest =>
      let n := Z.of_N (N_of_ascii c) in
      if (48 <=? n) && (n <=? 57) then read_digits (10 * acc + (n - 48)) rest
      else None
  end.

(** The number that a non-empty string of decimal digits denotes. *)
Definition read_decimal (s : string) : option Z :=
  match s with
  | EmptyString => None
  | _ => read_digits 0 s
  end.

(** The calls of generation, lines 164-183, for what the callees return:
    each call is made when the ones before it pass their tests. *)
Definition generation_calls (w : world) (numbits : Z) : trace :=
  Ev_CTX_set_cb :: Ev_paramgen_init
  :: (if EVP_PKEY_paramgen_init w <=? 0 then []
      else Ev_CTX_set_dsa_paramgen_bits numbits
           :: (if EVP_PKEY_CTX_set_dsa_paramgen_bits w numbits =? 0 then []
               else [Ev_paramgen numbits])).

(** A computation that leaves through [goto end] has put a message on
    [bio_err]. *)
Definition reports_failure {A} (m : M A) : Prop :=
  forall r, snd m = GotoEnd r -> existsb is_diagnostic (fst m) = true.

(** The renderings of a run with parameters [params], in program order. *)
Definition text_part (l : locals) (params : DSA_params) : trace :=
  if text l then [Ev_print_params out_bio params] else [].

Definition fragment_part (l : locals) (params : DSA_params) : trace :=
  if C l then C_block params else [].

Definition key_part (w : world) (l : locals) (params : DSA_params) : trace :=
  if genkey l && key_derived w params
  then [key_record l (snd (EVP_PKEY_keygen w params))]
  else [].

Definition records_part (w : world) (l : locals) (params : DSA_params)
  : trace :=
  if suppressed l then key_part w l params
  else params_record l params
       :: (if params_write w l params =? 0 then [] else key_part w l params).

(** ** Three properties as the specification words them *)

(** The command line supplies an input file and a positive bit length. *)
Definition supplies_both_sources (w : world) (cl : cmdline) : Prop :=
  exists f a n,
    In (OPT_IN, f) (cl_opts cl) /\ cl_rest cl = [a] /\
    opt_int w a = Some n /\ 0 < n.

(** Such a command line is refused: the run returns a nonzero code, and
    does so before any stream is opened or any step of generation is
    taken. *)
Definition rejects_both_sources (w : world) (MAX : Z) (v : bool)
  (cl : cmdline) : Prop :=
  supplies_both_sources w cl ->
  (exists r, snd (dsaparam_main w MAX v cl) = Exit r /\ r <> 0) /\
  filter is_open (fst (dsaparam_main w MAX v cl)) = [] /\
  filter is_generation (fst (dsaparam_main w MAX v cl)) = [].

(** Every rendering of the run goes to the stream opened for output. *)
Definition renders_to_output_stream (w : world) (MAX : Z) (v : bool)
  (cl : cmdline) : Prop :=
  forallb (writes_to out_bio)
    (filter is_rendering (fst (dsaparam_main w MAX v cl))) = true.

(** The exit code is 0 exactly when every requested stage succeeds. *)
Definition exit_zero_iff_all_stages_ok (w : world) (MAX : Z) (v : bool)
  (cl : cmdline) : Prop :=
  forall t0 l numbits num,
    options w v cl = (t0, Next (l, (numbits, num))) ->
    (snd (dsaparam_main w MAX v cl) = Exit 0 <->
     all_requested_stages_ok w l numbits = true).

(** ** Further readings of a command line and of a trace *)

Definition OPTION_CHOICE_eqb (a b : OPTION_CHOICE) : bool :=
  match a, b with
  | OPT_ERR, OPT_ERR | OPT_EOF, OPT_EOF | OPT_HELP, OPT_HELP
  | OPT_INFORM, OPT_INFORM | OPT_OUTFORM, OPT_OUTFORM
  | OPT_IN, OPT_IN | OPT_OUT, OPT_OUT | OPT_TEXT, OPT_TEXT | OPT_C, OPT_C
  | OPT_NOOUT, OPT_NOOUT | OPT_GENKEY, OPT_GENKEY
  | OPT_ENGINE, OPT_ENGINE | OPT_VERBOSE, OPT_VERBOSE
  | OPT_R_ENUM, OPT_R_ENUM | OPT_PROV_ENUM, OPT_PROV_ENUM => true
  | _, _ => false
  end.

(** [opt_next()] does not return [OPT_EOF] before the end of the list. *)
Definition no_eof (opts : list (OPTION_CHOICE * string)) : bool :=
  forallb (fun x => negb (OPTION_CHOICE_eqb (fst x) OPT_EOF)) opts.

(** The option [o] occurs on the command line. *)
Definition has_opt (o : OPTION_CHOICE) (opts : list (OPTION_CHOICE * string))
  : bool :=
  existsb (fun x => OPTION_CHOICE_eqb (fst x) o) opts.

(** The argument of the last occurrence of [o], or [d] without one. *)
Definition last_arg (o : OPTION_CHOICE) (d : option string)
  (opts : list (OPTION_CHOICE * string)) : option string :=
  fold_left
    (fun acc x => if OPTION_CHOICE_eqb (fst x) o then Some (snd x) else acc)
    opts d.

(** A call of the label [end] that releases a stream, a key or the
    engine. *)
Definition is_release (e : event) : bool :=
  match e with
  | Ev_BIO_free _ | Ev_BIO_free_all _ | Ev_EVP_PKEY_free_pkey
  | Ev_EVP_PKEY_free_params | Ev_release_engine => true
  | _ => false
  end.

(** A call of key derivation, lines 257-269. *)
Definition is_keygen_step (e : event) : bool :=
  match e with
  | Ev_CTX_new _ | Ev_keygen_init | Ev_keygen => true
  | _ => false
  end.

(** What the callbacks of one search write when [verbose] is set. *)
Definition progress_events (signals : list Z) : trace :=
  flat_map (fun p => [Ev_BIO_write bio_err (progress_char p) 1;
                      Ev_BIO_flush bio_err]) signals.

Module Cases.

(** A world given by what the main callees return; the option helpers
    are those of [Examples.world_ok]. *)
Definition world_of (in_ok out_ok ctx_ok : bool) (init bits : Z)
  (gen : list Z * Z * option DSA_params) (dec : option DSA_params)
  (wr : Z) (ctx2 : bool) (kinit : Z) (kg : Z * option DSA_key) (kw : Z)
  : world :=
  {| prog := "dsaparam";
     opt_format := opt_format Examples.world_ok;
     opt_int := opt_int Examples.world_ok;
     opt_rand := fun s => negb (s =? "bad")%string;
     opt_provider := fun s => negb (s =? "bad")%string;
     bio_open_default := fun _ _ => in_ok;
     bio_open_owner := fun _ _ _ => out_ok;
     EVP_PKEY_CTX_new_from_name := ctx_ok;
     EVP_PKEY_paramgen_init := init;
     EVP_PKEY_CTX_set_dsa_paramgen_bits := fun _ => bits;
     EVP_PKEY_paramgen := fun _ => gen;
     d2i_KeyParams_bio := dec;
     PEM_read_bio_Parameters := dec;
     EVP_PKEY_print_params := fun _ => 1;
     i2d_KeyParams_bio := fun _ => wr;
     PEM_write_bio_Parameters := fun _ => wr;
     EVP_PKEY_CTX_new := fun _ => ctx2;
     EVP_PKEY_keygen_init := kinit;
     EVP_PKEY_keygen := fun _ => kg;
     i2d_PrivateKey_bio := fun _ => kw;
     PEM_write_bio_PrivateKey := fun _ => kw |}.

Definition good_gen : list Z * Z * option DSA_params :=
  ([0; 1; 2; 3; 7], 1, Some Examples.the_params).

Definition good_key : Z * option DSA_key := (1, Some Examples.the_key).

(** Every callee succeeds. *)
Definition all_ok : world :=
  world_of true true true 1 1 good_gen (Some Examples.the_params)
    1 true 1 good_key 1.

(** [dsaparam -genkey -in in.pem] *)
Definition cl_genkey_pem : cmdline :=
  {| cl_opts := [(OPT_GENKEY, ""); (OPT_IN, "in.pem")]; cl_rest := [] |}.

(** [dsaparam -text -C -noout -genkey -in in.pem] *)
Definition cl_noout_all : cmdline :=
  {| cl_opts := [(OPT_TEXT, ""); (OPT_C, ""); (OPT_NOOUT, "");
                 (OPT_GENKEY, ""); (OPT_IN, "in.pem")];
     cl_rest := [] |}.

(** [dsaparam -verbose 512] *)
Definition cl_verbose_512 : cmdline :=
  {| cl_opts := [(OPT_VERBOSE, "")]; cl_rest := ["512"] |}.

(** [dsaparam 512] *)
Definition cl_512 : cmdline := {| cl_opts := []; cl_rest := ["512"] |}.

(** [dsaparam -in a.pem -text -in b.pem -inform DER -engine e1] *)
Definition opts_mixed : list (OPTION_CHOICE * string) :=
  [(OPT_IN, "a.pem"); (OPT_TEXT, ""); (OPT_IN, "b.pem");
   (OPT_INFORM, "DER"); (OPT_ENGINE, "e1")].

(** The locals those options leave. *)
Definition locals_mixed : locals :=
  set_engine (Some "e1")
    (set_informat FORMAT_ASN1
       (set_infile (Some "b.pem")
          (set_text true (set_infile (Some "a.pem") (locals_init false))))).

End Cases.

(** * Properties *)

(** ** The control-flow monad *)

Lemma mbind_fst A B (m : M A) (k : A -> M B) :
  fst (mbind m k) =
  (fst m ++ match snd m with Next a => fst (k a) | _ => [] end)%list.
Proof.
  destruct m as [t [a | r | ]]; simpl; rewrite ?app_nil_r; trivial.
  now destruct (k a).
Qed.

Lemma mbind_snd A B (m : M A) (k : A -> M B) :
  snd (mbind m k) =
  match snd m with
  | Next a => snd (k a)
  | GotoEnd r => GotoEnd r
  | AssertFail => AssertFail
  end.
Proof. destruct m as [t [a | r | ]]; simpl; trivial. now destruct (k a). Qed.

(** ** The option stage *)

Section OptionStage.

Variable w : world.

Lemma opt_case_events o arg l :
  forallb is_opt_event (fst (opt_case w o arg l)) = true.
Proof.
  destruct o; simpl; try reflexivity;
    try (destruct (opt_format w arg); reflexivity).
  - destruct (opt_rand w arg); reflexivity.
  - destruct (opt_provider w arg); reflexivity.
Qed.

Lemma opt_loop_events opts : forall l,
  forallb is_opt_event (fst (opt_loop w opts l)) = true.
Proof.
  induction opts as [| [o arg] opts IH]; intros l; [reflexivity |].
  assert (Hstep : forallb is_opt_event
            (fst (l' <- opt_case w o arg l ;; opt_loop w opts l')) = true).
  { pose proof (opt_case_events o arg l) as Hc.
    destruct (opt_case w o arg l) as [t [l' | r | ]]; simpl in *; trivial.
    specialize (IH l'). destruct (opt_loop w opts l') as [t' o']; simpl in *.
    rewrite forallb_app, Hc, IH. reflexivity. }
  destruct o; first [exact Hstep | reflexivity].
Qed.

(** The option loop never aborts and leaves [ret] at 0 or 1. *)
Lemma opt_loop_outcome opts : forall l t o,
  opt_loop w opts l = (t, o) ->
  (exists l', o = Next l') \/ o = GotoEnd 0 \/ o = GotoEnd 1.
Proof.
  induction opts as [| [c arg] opts IH]; intros l t o H.
  - inversion H. left. eauto.
  - assert (Hstep : forall t o,
      (l' <- opt_case w c arg l ;; opt_loop w opts l') = (t, o) ->
      (exists l', o = Next l') \/ o = GotoEnd 0 \/ o = GotoEnd 1).
    { clear H t o. intros t o H.
      destruct (opt_case w c arg l) as [tc [l' | r | ]] eqn:Hc; simpl in H.
      - destruct (opt_loop w opts l') as [t' o'] eqn:Hl.
        inversion H; subst. eapply IH; eauto.
      - inversion H; subst. right.
        destruct c; simpl in Hc;
          repeat match type of Hc with
                 | context [match ?x with _ => _ end] => destruct x
                 end;
          inversion Hc; auto.
      - exfalso.
        destruct c; simpl in Hc;
          repeat match type of Hc with
                 | context [match ?x with _ => _ end] => destruct x
                 end;
          inversion Hc. }
    destruct c; try (eapply Hstep; exact H).
    simpl in H. inversion H. left. eauto.
Qed.

Lemma read_numbits_trace rest : fst (read_numbits w rest) = [].
Proof.
  destruct rest as [| a [| b rest]]; simpl; trivial.
  destruct (opt_int w a) as [num |]; trivial.
  destruct (num <? 0); reflexivity.
Qed.

(** [numbits] is -1 without a positional argument and the parsed,
    non-negative number with one; [num] is that number, or 0. *)
Lemma read_numbits_Next rest numbits num t :
  read_numbits w rest = (t, Next (numbits, num)) ->
  t = [] /\
  ((numbits = -1 /\ num = 0 /\ List.length rest <> 1%nat) \/
   (exists a, rest = [a] /\ opt_int w a = Some num /\
              numbits = num /\ 0 <= num)).
Proof.
  destruct rest as [| a [| b rest]]; simpl; intros H.
  - inversion H; subst. split; trivial. left. repeat split; discriminate.
  - destruct (opt_int w a) as [n |] eqn:Hi; [| discriminate].
    destruct (n <? 0) eqn:Hn; [discriminate |].
    inversion H; subst. split; trivial. right. exists a.
    apply Z.ltb_ge in Hn. auto.
  - inversion H; subst. split; trivial. left. repeat split; discriminate.
Qed.

End OptionStage.

(** ** Events of each stage *)

Local Opaque String.append fmt_d nl print_bignum_var paramgen_callbacks.

(** Case analysis on what the callees return and on the flags, innermost
    test first. *)
Ltac case_world :=
  repeat (simpl; unfold negb, andb, orb; match goal with
  | |- context [match ?x with _ => _ end] =>
      lazymatch x with
      | context [match _ with _ => _ end] => fail
      | _ => destruct x eqn:?
      end
  end); simpl.

Ltac unfold_monad := unfold when, assert, mbind, emit, emits, mret, goto_end.

Lemma filter_none (P Q : event -> bool) (t : trace) :
  forallb Q t = true ->
  (forall e, Q e = true -> P e = false) ->
  filter P t = [].
Proof.
  intros Hall Himp. induction t as [| e t IH]; [reflexivity |].
  simpl in Hall. apply andb_true_iff in Hall as [He Ht].
  simpl. rewrite (Himp e He). auto.
Qed.

Local Transparent paramgen_callbacks.

Lemma paramgen_callbacks_events v signals :
  forallb is_progress (paramgen_callbacks v bio_err signals) = true.
Proof.
  induction signals as [| p ps IH]; [reflexivity |].
  unfold paramgen_callbacks in *. simpl.
  rewrite forallb_app, IH, andb_true_r.
  unfold gendsa_cb. destruct v; reflexivity.
Qed.

Local Opaque paramgen_callbacks.

Lemma forallb_weaken (P Q : event -> bool) (t : trace) :
  (forall e, P e = true -> Q e = true) ->
  forallb P t = true -> forallb Q t = true.
Proof.
  intros Himp. induction t as [| e t IH]; simpl; trivial.
  intros H. apply andb_true_iff in H as [He Ht].
  now rewrite (Himp e He), IH.
Qed.

Lemma forallb_mbind A B (Q : event -> bool) (m : M A) (k : A -> M B) :
  forallb Q (fst m) = true ->
  (forall a, forallb Q (fst (k a)) = true) ->
  forallb Q (fst (mbind m k)) = true.
Proof.
  intros Hm Hk. rewrite mbind_fst, forallb_app, Hm.
  destruct (snd m); simpl; auto.
Qed.

Section Stages.

Variable w : world.
Variable MAX : Z.

Lemma open_streams_events l private :
  forallb is_setup_event (fst (open_streams w l private)) = true.
Proof. unfold open_streams. unfold_monad. case_world; reflexivity. Qed.

(** The streams stage falls through exactly when all three calls give a
    non-NULL result; otherwise it leaves with [ret] still 1. *)
Lemma open_streams_outcome l :
  snd (open_streams w l (if genkey l then true else false)) =
  if streams_ok w l then Next tt else GotoEnd 1.
Proof.
  unfold open_streams, streams_ok. unfold_monad.
  destruct (genkey l); case_world; reflexivity.
Qed.

Lemma generate_events l numbits num :
  forallb is_generate_event (fst (generate w MAX l numbits num)) = true.
Proof.
  assert (Hcb : forall v s,
    forallb is_generate_event (paramgen_callbacks v bio_err s) = true).
  { intros v s. apply forallb_weaken with (P := is_progress).
    - intros e He. destruct e; simpl in *; rewrite ?He; trivial; discriminate.
    - apply paramgen_callbacks_events. }
  unfold generate. unfold_monad.
  case_world; trivial; rewrite ?app_nil_r, ?forallb_app, Hcb; reflexivity.
Qed.

Lemma load_trace l : fst (load w l) = [read_event (informat l)].
Proof. unfold load. destruct (informat l); reflexivity. Qed.

Lemma load_outcome l : snd (load w l) = Next (decoded w (informat l)).
Proof. unfold load. destruct (informat l); reflexivity. Qed.

Lemma write_params_events l params :
  forallb is_render_event (fst (write_params w l params)) = true.
Proof. unfold write_params. unfold_monad. case_world; reflexivity. Qed.

Lemma derive_key_events l private params :
  forallb is_render_event (fst (derive_key w l private params)) = true.
Proof. unfold derive_key. unfold_monad. case_world; reflexivity. Qed.

Lemma render_events l private params :
  forallb is_render_event (fst (render w l private params)) = true.
Proof.
  unfold render. repeat (apply forallb_mbind; [| intros _]).
  - unfold when, emit. destruct (text l); reflexivity.
  - unfold when, emits. destruct (C l); reflexivity.
  - apply write_params_events.
  - apply derive_key_events.
Qed.

(** *** Parameter resolution *)

Lemma generate_outcome l numbits :
  snd (generate w MAX l numbits numbits) =
  if (0 <? EVP_PKEY_paramgen_init w)
     && negb (EVP_PKEY_CTX_set_dsa_paramgen_bits w numbits =? 0)
     && (0 <? snd (fst (EVP_PKEY_paramgen w numbits)))
  then Next (snd (EVP_PKEY_paramgen w numbits))
  else GotoEnd 1.
Proof.
  unfold generate. unfold_monad.
  rewrite (Z.ltb_antisym _ 0).
  destruct (EVP_PKEY_paramgen w numbits) as [[signals rc] params]. simpl.
  rewrite (Z.ltb_antisym rc 0).
  case_world; reflexivity.
Qed.

Lemma resolve_outcome l numbits num :
  (0 < numbits -> num = numbits) ->
  snd (resolve w MAX l numbits num) =
  match resolved w l numbits with
  | Some params => Next params
  | None => GotoEnd 1
  end.
Proof.
  intros Hnum. unfold resolve, resolved. rewrite mbind_snd.
  destruct (0 <? numbits) eqn:Hpos.
  - apply Z.ltb_lt in Hpos. rewrite (Hnum Hpos), generate_outcome.
    destruct (_ && _); [| reflexivity].
    destruct (snd (EVP_PKEY_paramgen w numbits)); reflexivity.
  - rewrite load_outcome. destruct (decoded w (informat l)); reflexivity.
Qed.

(** Without a positive bit length, resolution is the one decoder call
    and, when it yields nothing, the two lines of the error report. *)
Lemma resolve_load_trace l numbits num :
  numbits <= 0 ->
  fst (resolve w MAX l numbits num) =
  read_event (informat l)
  :: match decoded w (informat l) with
     | Some _ => []
     | None => [Ev_BIO_printf bio_err ("unable to load DSA parameters" ++ nl);
                Ev_ERR_print_errors bio_err]
     end.
Proof.
  intros Hle. apply Z.ltb_ge in Hle. unfold resolve. rewrite Hle.
  rewrite mbind_fst, load_trace, load_outcome.
  destruct (decoded w (informat l)); reflexivity.
Qed.

(** With a positive bit length, resolution makes generation calls and
    error reports only. *)
Lemma resolve_generate_events l numbits num :
  0 < numbits ->
  forallb is_generate_event (fst (resolve w MAX l numbits num)) = true.
Proof.
  intros Hpos. apply Z.ltb_lt in Hpos. unfold resolve. rewrite Hpos.
  apply forallb_mbind; [apply generate_events |].
  intros [params |]; reflexivity.
Qed.

(** *** Rendering and key derivation *)

Lemma write_params_outcome l params :
  snd (write_params w l params) =
  if params_written w l params then Next tt else GotoEnd 1.
Proof.
  unfold write_params, params_written, suppressed, params_write.
  unfold_monad. destruct (outformat l); case_world; reflexivity.
Qed.

Lemma write_params_renderings l params :
  filter is_rendering (fst (write_params w l params)) =
  if suppressed l then [] else [params_record l params].
Proof.
  unfold write_params, suppressed, params_record.
  unfold_monad. destruct (outformat l); case_world; reflexivity.
Qed.

Lemma derive_key_outcome l params :
  snd (derive_key w l (if genkey l then true else false) params) =
  if negb (genkey l) || key_derived w params then Next tt else GotoEnd 1.
Proof.
  unfold derive_key, key_derived. unfold_monad.
  destruct (genkey l); [| reflexivity].
  destruct (EVP_PKEY_keygen w params) as [rc pkey].
  case_world; reflexivity.
Qed.

Lemma derive_key_renderings l params :
  filter is_rendering
    (fst (derive_key w l (if genkey l then true else false) params))
  = key_part w l params.
Proof.
  unfold derive_key, key_part, key_derived, key_record. unfold_monad.
  destruct (genkey l); [| reflexivity].
  destruct (EVP_PKEY_keygen w params) as [rc pkey].
  destruct (outformat l); case_world; reflexivity.
Qed.

Lemma render_outcome l params :
  snd (render w l (if genkey l then true else false) params) =
  if params_written w l params && (negb (genkey l) || key_derived w params)
  then Next tt else GotoEnd 1.
Proof.
  unfold render. rewrite !mbind_snd.
  assert (Ht : snd (when (text l) (emit (Ev_print_params out_bio params)))
               = Next tt) by (destruct (text l); reflexivity).
  assert (Hc : snd (when (C l) (emits (C_block params))) = Next tt)
    by (destruct (C l); reflexivity).
  rewrite Ht, Hc, write_params_outcome.
  destruct (params_written w l params); [| reflexivity].
  apply derive_key_outcome.
Qed.

(** The renderings, in program order: the text dump, the source-code
    fragment, the parameter record and the key record, each under its own
    condition. *)
Lemma render_renderings l params :
  filter is_rendering
    (fst (render w l (if genkey l then true else false) params))
  = (text_part l params ++ fragment_part l params
     ++ records_part w l params)%list.
Proof.
  unfold render. rewrite mbind_fst, filter_app. f_equal.
  { unfold text_part. destruct (text l); reflexivity. }
  assert (Ht : snd (when (text l) (emit (Ev_print_params out_bio params)))
               = Next tt) by (destruct (text l); reflexivity).
  rewrite Ht, mbind_fst, filter_app. f_equal.
  { unfold fragment_part. destruct (C l); reflexivity. }
  assert (Hc : snd (when (C l) (emits (C_block params))) = Next tt)
    by (destruct (C l); reflexivity).
  rewrite Hc, mbind_fst, filter_app.
  rewrite write_params_renderings, write_params_outcome.
  unfold records_part, params_written.
  destruct (suppressed l); simpl.
  - apply derive_key_renderings.
  - f_equal. destruct (params_write w l params =? 0); simpl; trivial.
    apply derive_key_renderings.
Qed.

(** *** The stages together *)

Lemma stages_trace l numbits num :
  fst (stages w MAX l numbits num) =
  (fst (open_streams w l (if genkey l then true else false))
   ++ if streams_ok w l then
        fst (resolve w MAX l numbits num)
        ++ match snd (resolve w MAX l numbits num) with
           | Next params =>
               fst (render w l (if genkey l then true else false) params)
           | _ => []
           end
      else [])%list.
Proof.
  unfold stages. rewrite mbind_fst, open_streams_outcome.
  destruct (streams_ok w l); [| reflexivity].
  now rewrite mbind_fst.
Qed.

(** The stages fall through to line 280 exactly when every tested call
    passes its test; otherwise they leave with [ret] still 1. *)
Lemma stages_outcome l numbits num :
  (0 < numbits -> num = numbits) ->
  snd (stages w MAX l numbits num) =
  if checked_stages_ok w l numbits then Next tt else GotoEnd 1.
Proof.
  intros Hnum. unfold stages, checked_stages_ok.
  rewrite mbind_snd, open_streams_outcome.
  destruct (streams_ok w l); [| reflexivity].
  rewrite mbind_snd, (resolve_outcome l Hnum).
  destruct (resolved w l numbits) as [params |]; [| reflexivity].
  apply render_outcome.
Qed.

End Stages.

(** ** Shape of a run *)

Section Run.

Variable w : world.
Variable MAX : Z.

Lemma opt_case_Next o arg l t l' :
  opt_case w o arg l = (t, Next l') ->
  forallb is_engine_event t = true.
Proof.
  destruct o; simpl; unfold opthelp; unfold_monad; simpl;
    repeat match goal with
           | |- context [match ?x with _ => _ end] => destruct x
           end;
    intros H; inversion H; reflexivity.
Qed.

(** Accepted options have called nothing but [setup_engine]. *)
Lemma opt_loop_Next opts : forall l t l',
  opt_loop w opts l = (t, Next l') ->
  forallb is_engine_event t = true.
Proof.
  induction opts as [| [o arg] opts IH]; intros l t l' H.
  - inversion H. reflexivity.
  - assert (Hstep :
      (x <- opt_case w o arg l ;; opt_loop w opts x) = (t, Next l') ->
      forallb is_engine_event t = true).
    { clear H. intros H.
      destruct (opt_case w o arg l) as [tc [l1 | r | ]] eqn:Hc;
        simpl in H; try discriminate.
      destruct (opt_loop w opts l1) as [t' o'] eqn:Hl.
      inversion H; subst.
      rewrite forallb_app, (opt_case_Next _ _ _ Hc), (IH _ _ _ Hl).
      reflexivity. }
    destruct o; try (apply Hstep; exact H).
    simpl in H. inversion H. reflexivity.
Qed.

Lemma options_accepted v cl t0 l nb :
  options w v cl = (t0, Next (l, nb)) ->
  opt_loop w (cl_opts cl) (locals_init v) = (t0, Next l) /\
  read_numbits w (cl_rest cl) = ([], Next nb).
Proof.
  unfold options. intros H.
  pose proof (read_numbits_trace w (cl_rest cl)) as Hr.
  destruct (opt_loop w (cl_opts cl) (locals_init v)) as [t [l' | r | ]];
    simpl in H; try discriminate.
  destruct (read_numbits w (cl_rest cl)) as [t' [nb' | r | ]];
    simpl in H, Hr; try discriminate.
  subst t'. inversion H; subst. rewrite !app_nil_r. auto.
Qed.

Lemma options_of_parts v cl t0 l nb :
  opt_loop w (cl_opts cl) (locals_init v) = (t0, Next l) ->
  read_numbits w (cl_rest cl) = ([], Next nb) ->
  options w v cl = (t0, Next (l, nb)).
Proof.
  unfold options. intros -> ->. simpl. now rewrite !app_nil_r.
Qed.

Lemma accepted_events v cl t0 x :
  options w v cl = (t0, Next x) ->
  forallb is_engine_event t0 = true.
Proof.
  destruct x as [l nb]. intros H.
  apply options_accepted in H as [H _]. eapply opt_loop_Next; eauto.
Qed.

(** In an accepted run a positive [numbits] is the parsed argument, which
    is also [num]. *)
Lemma accepted_num v cl t0 l numbits num :
  options w v cl = (t0, Next (l, (numbits, num))) ->
  0 < numbits -> num = numbits.
Proof.
  intros H Hpos. apply options_accepted in H as [_ H].
  apply read_numbits_Next in H as [_ [(Hm & _) | (a & _ & _ & Heq & _)]];
    lia.
Qed.

(** A run whose options are accepted is the option events, the events of
    the stages and the cleanup. *)
Lemma main_accepted_trace v cl t0 l numbits num :
  options w v cl = (t0, Next (l, (numbits, num))) ->
  fst (dsaparam_main w MAX v cl) =
  (t0 ++ fst (stages w MAX l numbits num) ++ cleanup)%list.
Proof.
  intros H. pose proof (accepted_num _ _ H) as Hnum.
  pose proof (stages_outcome w MAX l Hnum) as Ho.
  unfold dsaparam_main, body. rewrite H. simpl.
  destruct (stages w MAX l numbits num) as [t o]; simpl in *. subst o.
  destruct (checked_stages_ok w l numbits); simpl;
    now rewrite <- app_assoc.
Qed.

(** It returns 0 when every tested call passes its test, and 1
    otherwise; the [assert] of line 274 never fails. *)
Lemma main_accepted_exit v cl t0 l numbits num :
  options w v cl = (t0, Next (l, (numbits, num))) ->
  snd (dsaparam_main w MAX v cl) =
  if checked_stages_ok w l numbits then Exit 0 else Exit 1.
Proof.
  intros H. pose proof (accepted_num _ _ H) as Hnum.
  pose proof (stages_outcome w MAX l Hnum) as Ho.
  unfold dsaparam_main, body. rewrite H. simpl.
  destruct (stages w MAX l numbits num) as [t o]; simpl in *. subst o.
  destruct (checked_stages_ok w l numbits); reflexivity.
Qed.

(** A run whose options are refused makes no call beyond the option loop
    and the cleanup. *)
Lemma main_refused v cl t0 r :
  options w v cl = (t0, GotoEnd r) ->
  dsaparam_main w MAX v cl = ((t0 ++ cleanup)%list, Exit r).
Proof. intros H. unfold dsaparam_main, body. now rewrite H. Qed.

(** Such a run has opened no stream, taken no step of generation, read
    no input and rendered nothing; its exit code is 0 (help) or 1. *)
Lemma main_refused_quiet v cl t0 r :
  options w v cl = (t0, GotoEnd r) ->
  (r = 0 \/ r = 1)
  /\ filter is_open (fst (dsaparam_main w MAX v cl)) = []
  /\ filter is_generation (fst (dsaparam_main w MAX v cl)) = []
  /\ filter is_input_read (fst (dsaparam_main w MAX v cl)) = []
  /\ filter is_rendering (fst (dsaparam_main w MAX v cl)) = [].
Proof.
  intros H. rewrite (main_refused v cl H). simpl fst.
  assert (Hev : forallb is_opt_event t0 = true).
  { unfold options in H.
    pose proof (opt_loop_events w (cl_opts cl) (locals_init v)) as Ho.
    pose proof (read_numbits_trace w (cl_rest cl)) as Hr.
    destruct (opt_loop w (cl_opts cl) (locals_init v)) as [t [l | r' | ]];
      simpl in *; try (inversion H; subst; trivial; fail).
    destruct (read_numbits w (cl_rest cl)) as [t' [nb | r' | ]];
      simpl in *; inversion H; subst; now rewrite app_nil_r. }
  split.
  - unfold options in H.
    destruct (opt_loop w (cl_opts cl) (locals_init v)) as [t [l | r' | ]]
      eqn:Hl; simpl in H; try discriminate.
    + destruct (cl_rest cl) as [| a [| b rest]]; simpl in H;
        try discriminate.
      destruct (opt_int w a) as [n |]; [destruct (n <? 0) |];
        inversion H; auto.
    + inversion H; subst.
      destruct (opt_loop_outcome w _ _ Hl) as [[l' Hn] | [Hz | Ho]];
        congruence || (inversion Hz; auto) || (inversion Ho; auto).
  - rewrite !filter_app.
    rewrite !(filter_none _ is_opt_event t0 Hev);
      repeat split; trivial;
      intros e; destruct e; simpl; trivial; try discriminate;
      destruct b; simpl; trivial; discriminate.
Qed.

(** What a classifier that ignores the option loop, the stream set-up and
    the cleanup sees of an accepted run. *)
Lemma run_filter (P : event -> bool) v cl t0 l numbits num :
  options w v cl = (t0, Next (l, (numbits, num))) ->
  (forall e, is_engine_event e = true -> P e = false) ->
  (forall e, is_setup_event e = true -> P e = false) ->
  filter P cleanup = [] ->
  filter P (fst (dsaparam_main w MAX v cl)) =
  if streams_ok w l then
    (filter P (fst (resolve w MAX l numbits num))
     ++ match snd (resolve w MAX l numbits num) with
        | Next params =>
            filter P
              (fst (render w l (if genkey l then true else false) params))
        | _ => []
        end)%list
  else [].
Proof.
  intros H Hopt Hsetup Hclean.
  rewrite (main_accepted_trace _ _ H), stages_trace, !filter_app, Hclean.
  rewrite (filter_none P is_engine_event t0 (accepted_events _ _ H) Hopt).
  rewrite (filter_none P is_setup_event _ (open_streams_events w l _) Hsetup).
  simpl. rewrite app_nil_r.
  destruct (streams_ok w l); [| reflexivity].
  rewrite filter_app. now destruct (snd (resolve w MAX l numbits num)).
Qed.

End Run.

(** ** Which source the parameters come from *)

(** Two classes of events have nothing in common. *)
Ltac classify :=
  let e := fresh "e" in
  first
    [ reflexivity
    | intros e; destruct e; simpl;
      repeat match goal with b : BIO |- _ => destruct b end;
      simpl; intros; trivial; try discriminate ].

Section Source.

Variable w : world.
Variable MAX : Z.

Lemma render_filter_none (P : event -> bool) l (o : outcome DSA_params) :
  (forall e, is_render_event e = true -> P e = false) ->
  match o with
  | Next params =>
      filter P (fst (render w l (if genkey l then true else false) params))
  | _ => []
  end = [].
Proof.
  intros HP. destruct o; trivial.
  apply filter_none with (Q := is_render_event); trivial.
  apply render_events.
Qed.

(** With a positive bit length no run reads the input stream. *)
Lemma generate_never_reads v cl t0 l numbits num :
  options w v cl = (t0, Next (l, (numbits, num))) ->
  0 < numbits ->
  filter is_input_read (fst (dsaparam_main w MAX v cl)) = [].
Proof.
  intros H Hpos.
  rewrite (run_filter w MAX is_input_read v cl H) by classify.
  destruct (streams_ok w l); trivial.
  rewrite render_filter_none by classify.
  rewrite app_nil_r.
  apply filter_none with (Q := is_generate_event); [| classify].
  now apply resolve_generate_events.
Qed.

(** Without one no run takes a step of generation. *)
Lemma load_never_generates v cl t0 l numbits num :
  options w v cl = (t0, Next (l, (numbits, num))) ->
  numbits <= 0 ->
  filter is_generation (fst (dsaparam_main w MAX v cl)) = [].
Proof.
  intros H Hle.
  rewrite (run_filter w MAX is_generation v cl H) by classify.
  destruct (streams_ok w l); trivial.
  rewrite render_filter_none by classify.
  rewrite resolve_load_trace by trivial.
  destruct (informat l), (decoded w _); reflexivity.
Qed.

(** Without one a run that gets its streams reads the input once, with
    the decoder of the configured format. *)
Lemma load_reads_once v cl t0 l numbits num :
  options w v cl = (t0, Next (l, (numbits, num))) ->
  numbits <= 0 ->
  streams_ok w l = true ->
  filter is_input_read (fst (dsaparam_main w MAX v cl))
  = [read_event (informat l)].
Proof.
  intros H Hle Hs.
  rewrite (run_filter w MAX is_input_read v cl H) by classify.
  rewrite Hs, render_filter_none by classify.
  rewrite resolve_load_trace by trivial.
  destruct (informat l), (decoded w _); reflexivity.
Qed.

(** With a positive bit length, the calls of generation that
    resolution makes. *)
Lemma resolve_generation_calls l numbits :
  0 < numbits ->
  filter is_generation (fst (resolve w MAX l numbits numbits))
  = generation_calls w numbits.
Proof.
  intros Hpos. apply Z.ltb_lt in Hpos.
  assert (Hcb : forall v s,
    filter is_generation (paramgen_callbacks v bio_err s) = []).
  { intros v s. apply filter_none with (Q := is_progress).
    - apply paramgen_callbacks_events.
    - intros e. destruct e; simpl; intros; trivial; discriminate. }
  unfold resolve, generate, generation_calls. unfold_monad. rewrite Hpos.
  case_world; rewrite ?app_nil_r, ?filter_app, ?Hcb; reflexivity.
Qed.

(** They are the calls of generation of the whole run, once its streams
    are open. *)
Lemma run_generation_calls v cl t0 l numbits num :
  options w v cl = (t0, Next (l, (numbits, num))) ->
  0 < numbits ->
  streams_ok w l = true ->
  filter is_generation (fst (dsaparam_main w MAX v cl))
  = generation_calls w numbits.
Proof.
  intros H Hpos Hs. pose proof (accepted_num w v cl H Hpos) as ->.
  rewrite (run_filter w MAX is_generation v cl H) by classify.
  rewrite Hs, render_filter_none by classify.
  rewrite app_nil_r. now apply resolve_generation_calls.
Qed.

(** C10: a positional argument that reads as 0 is accepted by the option
    stage, which leaves [numbits] at 0; the run then takes no step of
    generation and, once its streams are open, reads the parameters from
    the input. *)
Theorem C10_zero_bits_takes_load_path v cl t0 l a :
  opt_loop w (cl_opts cl) (locals_init v) = (t0, Next l) ->
  cl_rest cl = [a] ->
  opt_int w a = Some 0 ->
  options w v cl = (t0, Next (l, (0, 0))) /\
  filter is_generation (fst (dsaparam_main w MAX v cl)) = [] /\
  (streams_ok w l = true ->
   filter is_input_read (fst (dsaparam_main w MAX v cl))
   = [read_event (informat l)]).
Proof.
  intros Hopt Hrest Hint.
  assert (H : options w v cl = (t0, Next (l, (0, 0)))).
  { apply options_of_parts; trivial.
    rewrite Hrest. simpl. now rewrite Hint. }
  split; [exact H | split].
  - eapply load_never_generates; eauto. lia.
  - intros Hs. eapply load_reads_once; eauto. lia.
Qed.

Lemma open_streams_first l private :
  exists t,
    fst (open_streams w l private)
    = Ev_bio_open_default (infile l) "r"%char (informat l) :: t.
Proof.
  unfold open_streams. rewrite mbind_fst. simpl. eauto.
Qed.

(** The generation branch starts by installing the callback and
    initialising the generation. *)
Lemma generate_starts l numbits num :
  exists rest,
    filter is_generation (fst (generate w MAX l numbits num))
    = Ev_CTX_set_cb :: Ev_paramgen_init :: rest.
Proof.
  unfold generate. unfold_monad. case_world; eauto.
Qed.

End Source.


(** On [dsaparam 0], every callee succeeding. *)
Lemma C10_zero_bits_takes_load_path_witness :
  options Examples.world_ok false Examples.cl_zero
  = ([], Next (locals_init false, (0, 0)))
  /\ filter is_generation
       (fst (dsaparam_main Examples.world_ok Examples.max_bits false
               Examples.cl_zero)) = []
  /\ filter is_input_read
       (fst (dsaparam_main Examples.world_ok Examples.max_bits false
               Examples.cl_zero)) = [Ev_PEM_read_bio_Parameters in_bio].
Proof.
  destruct (C10_zero_bits_takes_load_path Examples.world_ok
              Examples.max_bits false Examples.cl_zero (t0 := [])
              (l := locals_init false) (a := "0")
              eq_refl eq_refl eq_refl) as (H1 & H2 & H3).
  split; [exact H1 | split; [exact H2 | exact (H3 eq_refl)]].
Defined.

(** ** The advisory warning *)

Section Ceiling.

Variable w : world.

(** Above the ceiling the generation branch is the warning followed by
    what it does below the ceiling. *)
Lemma generate_warning MAX MAX' l numbits num :
  MAX < numbits -> numbits <= MAX' ->
  generate w MAX l numbits num =
  (Ev_BIO_printf bio_err (warning_text MAX numbits)
   :: fst (generate w MAX' l numbits num),
   snd (generate w MAX' l numbits num)).
Proof.
  intros Hgt Hle. apply Z.ltb_lt in Hgt. apply Z.ltb_ge in Hle.
  unfold generate. rewrite Hgt, Hle. unfold when at 1 3.
  set (k := fun _ : unit => _ ;;; _).
  change (emit (Ev_BIO_printf bio_err (warning_text MAX numbits)) ;;; k tt
          = (Ev_BIO_printf bio_err (warning_text MAX numbits)
               :: fst (mret tt ;;; k tt),
             snd (mret tt ;;; k tt))).
  unfold mbind, emit, mret. simpl. now destruct (k tt).
Qed.

Lemma resolve_warning MAX MAX' l numbits num :
  0 < numbits -> MAX < numbits -> numbits <= MAX' ->
  resolve w MAX l numbits num =
  (Ev_BIO_printf bio_err (warning_text MAX numbits)
   :: fst (resolve w MAX' l numbits num),
   snd (resolve w MAX' l numbits num)).
Proof.
  intros Hpos Hgt Hle. apply Z.ltb_lt in Hpos.
  unfold resolve. rewrite Hpos.
  rewrite (generate_warning l num Hgt Hle).
  destruct (generate w MAX' l numbits num) as [t [[params |] | r | ]];
    reflexivity.
Qed.


End Ceiling.


(** ** What is written, where, and in which order *)

Section Output.

Variable w : world.
Variable MAX : Z.

Lemma streams_ok_trace l :
  streams_ok w l = true ->
  fst (open_streams w l (if genkey l then true else false)) =
  [ Ev_bio_open_default (infile l) "r"%char (informat l);
    Ev_bio_open_owner (outfile l) (outformat l) (genkey l);
    Ev_CTX_new_from_name ].
Proof.
  unfold streams_ok, open_streams. unfold_monad.
  destruct (genkey l); case_world; intros; trivial; discriminate.
Qed.

(** Resolution makes no rendering. *)
Lemma resolve_renders_nothing (P : event -> bool) l numbits num :
  (forall e, is_generate_event e = true -> P e = false) ->
  (forall e, is_input_read e = true -> P e = false) ->
  (forall e, is_err_report e = true -> P e = false) ->
  filter P (fst (resolve w MAX l numbits num)) = [].
Proof.
  intros Hg Hr He. destruct (Z.ltb_spec 0 numbits) as [Hpos | Hle].
  - apply filter_none with (Q := is_generate_event); trivial.
    now apply resolve_generate_events.
  - rewrite resolve_load_trace by trivial. simpl.
    rewrite Hr by (destruct (informat l); reflexivity).
    destruct (decoded w (informat l)); trivial.
    simpl. now rewrite !He.
Qed.

(** C6: when the parameters are to be loaded and the decoder of the
    configured format yields nothing, the run returns 1 and has written
    nothing to the output stream, nor made any other rendering; having
    got as far as reading, its one message on [bio_err] is "unable to
    load DSA parameters". *)
Theorem C6_undecodable_input v cl t0 l numbits num :
  options w v cl = (t0, Next (l, (numbits, num))) ->
  numbits <= 0 ->
  decoded w (informat l) = None ->
  let tr := fst (dsaparam_main w MAX v cl) in
  snd (dsaparam_main w MAX v cl) = Exit 1
  /\ filter (writes_to out_bio) tr = []
  /\ filter is_rendering tr = []
  /\ (streams_ok w l = true ->
      filter is_input_read tr = [read_event (informat l)]
      /\ filter is_diagnostic tr
         = [Ev_BIO_printf bio_err ("unable to load DSA parameters" ++ nl)]).
Proof.
  intros H Hle Hdec tr. subst tr.
  assert (Hres : snd (resolve w MAX l numbits num) = GotoEnd 1).
  { rewrite resolve_outcome by lia. unfold resolved.
    apply Z.ltb_ge in Hle. now rewrite Hle, Hdec. }
  split; [| split; [| split; [| intros Hs; split]]].
  - rewrite (main_accepted_exit w MAX v cl H).
    unfold checked_stages_ok, resolved.
    apply Z.ltb_ge in Hle. rewrite Hle, Hdec.
    now destruct (streams_ok w l).
  - rewrite (run_filter w MAX (writes_to out_bio) v cl H) by classify.
    rewrite Hres, app_nil_r.
    destruct (streams_ok w l); trivial.
    apply resolve_renders_nothing; classify.
  - rewrite (run_filter w MAX is_rendering v cl H) by classify.
    rewrite Hres, app_nil_r.
    destruct (streams_ok w l); trivial.
    apply resolve_renders_nothing; classify.
  - eapply load_reads_once; eauto.
  - rewrite (main_accepted_trace w MAX v cl H), stages_trace.
    rewrite Hs, Hres, app_nil_r, streams_ok_trace by trivial.
    rewrite resolve_load_trace, Hdec by trivial.
    rewrite !filter_app.
    rewrite (filter_none is_diagnostic is_engine_event t0
               (accepted_events w v cl H)) by classify.
    destruct (informat l); reflexivity.
Qed.

End Output.

(** On [dsaparam -inform DER -in in.der] with an input that does not
    decode. *)
Lemma C6_undecodable_input_witness :
  snd (dsaparam_main Examples.world_bad_input Examples.max_bits false
         Examples.cl_load_der) = Exit 1
  /\ filter (writes_to out_bio)
       (fst (dsaparam_main Examples.world_bad_input Examples.max_bits false
               Examples.cl_load_der)) = []
  /\ filter is_diagnostic
       (fst (dsaparam_main Examples.world_bad_input Examples.max_bits false
               Examples.cl_load_der))
     = [Ev_BIO_printf bio_err ("unable to load DSA parameters" ++ nl)].
Proof.
  destruct (C6_undecodable_input Examples.world_bad_input Examples.max_bits
              false Examples.cl_load_der (t0 := []) eq_refl
              ltac:(discriminate) eq_refl) as (H1 & H2 & _ & H3).
  split; [exact H1 | split; [exact H2 | exact (proj2 (H3 eq_refl))]].
Defined.

Section Rendering.

Variable w : world.
Variable MAX : Z.

(** Records are renderings, so the records of a trace can be read off
    its renderings. *)
Lemma filter_record_rendering (P : event -> bool) (t : trace) :
  (forall e, P e = true -> is_rendering e = true) ->
  filter P t = filter P (filter is_rendering t).
Proof.
  intros Hsub. induction t as [| e t IH]; [reflexivity |]. simpl.
  destruct (is_rendering e) eqn:He; simpl.
  - now rewrite IH.
  - destruct (P e) eqn:HP; trivial.
    rewrite (Hsub e HP) in He. discriminate.
Qed.

Lemma filter_via_rendering (P Q : event -> bool) (t : trace) :
  forallb Q t = true ->
  (forall e, Q e = true -> P e = true -> is_rendering e = true) ->
  filter P t = filter P (filter is_rendering t).
Proof.
  intros Hall Hsub. induction t as [| e t IH]; [reflexivity |].
  simpl in Hall. apply andb_true_iff in Hall as [He Ht]. simpl.
  destruct (is_rendering e) eqn:Hr; simpl.
  - now rewrite IH.
  - destruct (P e) eqn:HP; auto.
    rewrite (Hsub e He HP) in Hr. discriminate.
Qed.

(** The renderings of an accepted run that got its streams and its
    parameters. *)
Lemma run_renderings v cl t0 l numbits num params :
  options w v cl = (t0, Next (l, (numbits, num))) ->
  streams_ok w l = true ->
  snd (resolve w MAX l numbits num) = Next params ->
  filter is_rendering (fst (dsaparam_main w MAX v cl)) =
  (text_part l params ++ fragment_part l params
   ++ records_part w l params)%list.
Proof.
  intros H Hs Hres.
  rewrite (run_filter w MAX is_rendering v cl H) by classify.
  rewrite Hs, Hres, render_renderings.
  rewrite resolve_renders_nothing by classify. reflexivity.
Qed.

(** What a run with parameters writes to [out] or to [bio_out], read
    off its renderings. *)
Lemma run_writes (b : BIO) v cl t0 l numbits num params :
  b = out_bio \/ b = bio_out ->
  options w v cl = (t0, Next (l, (numbits, num))) ->
  streams_ok w l = true ->
  snd (resolve w MAX l numbits num) = Next params ->
  filter (writes_to b) (fst (dsaparam_main w MAX v cl)) =
  filter (writes_to b)
    (text_part l params ++ fragment_part l params
     ++ records_part w l params)%list.
Proof.
  intros Hb H Hs Hres.
  destruct Hb; subst b;
    rewrite (run_filter w MAX (writes_to _) v cl H) by classify;
    rewrite Hs, Hres, resolve_renders_nothing by classify;
    rewrite (filter_via_rendering (writes_to _) is_render_event)
      by (apply render_events || classify);
    now rewrite render_renderings.
Qed.

(** Of the renderings, [bio_out] receives the source-code fragment and
    nothing else. *)
Lemma fragment_on_bio_out l params :
  filter (writes_to bio_out)
    (text_part l params ++ fragment_part l params
     ++ records_part w l params)%list
  = fragment_part l params.
Proof.
  assert (Hrec : filter (writes_to bio_out) (records_part w l params) = []).
  { unfold records_part, key_part, params_record, key_record.
    destruct (outformat l); case_world; reflexivity. }
  assert (Hfrag : filter (writes_to bio_out) (fragment_part l params)
                  = fragment_part l params).
  { unfold fragment_part. destruct (C l); reflexivity. }
  assert (Htext : filter (writes_to bio_out) (text_part l params) = []).
  { unfold text_part. destruct (text l); reflexivity. }
  now rewrite !filter_app, Htext, Hfrag, Hrec, app_nil_r.
Qed.

(** So the calls on [bio_out] of a run with parameters and [C] set are
    those of the fragment. *)
Lemma run_fragment v cl t0 l numbits num params :
  options w v cl = (t0, Next (l, (numbits, num))) ->
  streams_ok w l = true ->
  snd (resolve w MAX l numbits num) = Next params ->
  C l = true ->
  filter (writes_to bio_out) (fst (dsaparam_main w MAX v cl))
  = C_block params.
Proof.
  intros H Hs Hres HC.
  rewrite (run_writes v cl (or_intror eq_refl) H Hs Hres).
  rewrite fragment_on_bio_out. unfold fragment_part. now rewrite HC.
Qed.

(** C5, as the code has it: the renderings of a run with resolved
    parameters are, in this order, the text dump if [text] is set, the
    source-code fragment if [C] is set, the serialized parameters unless
    suppressed, and the private key if [genkey] is set and the key is
    derived (nothing follows a parameter write that fails).  The text dump
    and the records are what the stream opened for output receives; the
    source-code fragment is what [bio_out] receives. *)
Theorem C5_rendering_order_and_streams v cl t0 l numbits num params :
  options w v cl = (t0, Next (l, (numbits, num))) ->
  streams_ok w l = true ->
  snd (resolve w MAX l numbits num) = Next params ->
  let tr := fst (dsaparam_main w MAX v cl) in
  let text_dump := if text l then [Ev_print_params out_bio params] else [] in
  let fragment := if C l then C_block params else [] in
  let key :=
    if genkey l && key_derived w params
    then [key_record l (snd (EVP_PKEY_keygen w params))] else [] in
  let records :=
    if suppressed l then key
    else params_record l params
         :: (if params_write w l params =? 0 then [] else key) in
  filter is_rendering tr = (text_dump ++ fragment ++ records)%list
  /\ filter (writes_to out_bio) tr = (text_dump ++ records)%list
  /\ filter (writes_to bio_out) tr = fragment.
Proof.
  intros H Hs Hres tr text_dump fragment key records.
  assert (Hrec : filter (writes_to out_bio) records = records
                 /\ filter (writes_to bio_out) records = []).
  { subst records key. unfold params_record, key_record.
    destruct (outformat l); case_world; split; reflexivity. }
  assert (Hfrag : filter (writes_to out_bio) fragment = []
                  /\ filter (writes_to bio_out) fragment = fragment).
  { subst fragment. destruct (C l); split; reflexivity. }
  assert (Htext : filter (writes_to out_bio) text_dump = text_dump
                  /\ filter (writes_to bio_out) text_dump = []).
  { subst text_dump. destruct (text l); split; reflexivity. }
  destruct Hrec as [Hr1 Hr2], Hfrag as [Hf1 Hf2], Htext as [Ht1 Ht2].
  split; [| split].
  - exact (run_renderings v cl H Hs Hres).
  - subst tr.
    rewrite (run_writes v cl (or_introl eq_refl) H Hs Hres).
    change (text_part l params) with text_dump.
    change (fragment_part l params) with fragment.
    change (records_part w l params) with records.
    now rewrite !filter_app, Ht1, Hf1, Hr1.
  - subst tr.
    rewrite (run_writes v cl (or_intror eq_refl) H Hs Hres).
    change (text_part l params) with text_dump.
    change (fragment_part l params) with fragment.
    change (records_part w l params) with records.
    now rewrite !filter_app, Ht2, Hf2, Hr2, app_nil_r.
Qed.

(** C2: in a run that returns 0 with [genkey] set and DER as output
    format, no serialized parameters are written and exactly one record
    is: the private key that [EVP_PKEY_keygen] stored for the resolved
    parameters, in DER, to the stream opened for output.  Nothing else
    is written to that stream but the text dump, before the key, when
    [text] is set. *)
Theorem C2_der_genkey_single_record v cl t0 l numbits num :
  options w v cl = (t0, Next (l, (numbits, num))) ->
  genkey l = true ->
  outformat l = FORMAT_ASN1 ->
  snd (dsaparam_main w MAX v cl) = Exit 0 ->
  exists params,
    snd (resolve w MAX l numbits num) = Next params
    /\ filter is_params_record (fst (dsaparam_main w MAX v cl)) = []
    /\ filter is_record (fst (dsaparam_main w MAX v cl))
       = [Ev_i2d_PrivateKey_bio out_bio (snd (EVP_PKEY_keygen w params))]
    /\ filter (writes_to out_bio) (fst (dsaparam_main w MAX v cl))
       = ((if text l then [Ev_print_params out_bio params] else [])
          ++ [Ev_i2d_PrivateKey_bio out_bio
                (snd (EVP_PKEY_keygen w params))])%list.
Proof.
  intros H Hgen Hfmt Hexit.
  rewrite (main_accepted_exit w MAX v cl H) in Hexit.
  destruct (checked_stages_ok w l numbits) eqn:Hok; [| discriminate].
  unfold checked_stages_ok in Hok.
  apply andb_true_iff in Hok as [Hs Hok].
  destruct (resolved w l numbits) as [params |] eqn:Hr; [| discriminate].
  apply andb_true_iff in Hok as [_ Hkey].
  rewrite Hgen in Hkey. simpl in Hkey.
  assert (Hres : snd (resolve w MAX l numbits num) = Next params).
  { pose proof (accepted_num w v cl H) as Hnum.
    rewrite (resolve_outcome w MAX l Hnum). now rewrite Hr. }
  pose proof (run_renderings v cl H Hs Hres) as Hrend.
  assert (Hrec : records_part w l params =
            [Ev_i2d_PrivateKey_bio out_bio (snd (EVP_PKEY_keygen w params))]).
  { unfold records_part, suppressed, key_part, key_record.
    now rewrite Hfmt, Hgen, Hkey. }
  exists params. split; [exact Hres |].
  assert (Hall : filter is_record (fst (dsaparam_main w MAX v cl)) =
            [Ev_i2d_PrivateKey_bio out_bio (snd (EVP_PKEY_keygen w params))]).
  { rewrite (filter_record_rendering is_record) by classify.
    rewrite Hrend, Hrec, !filter_app.
    unfold text_part, fragment_part.
    destruct (text l), (C l); reflexivity. }
  split; [| split].
  - rewrite (filter_record_rendering is_params_record) by classify.
    rewrite Hrend, Hrec, !filter_app.
    unfold text_part, fragment_part.
    destruct (text l), (C l); reflexivity.
  - exact Hall.
  - rewrite (run_filter w MAX (writes_to out_bio) v cl H) by classify.
    rewrite Hs, Hres, resolve_renders_nothing by classify.
    rewrite (filter_via_rendering (writes_to out_bio) is_render_event)
      by (apply render_events || classify).
    rewrite render_renderings, Hrec, !filter_app.
    unfold text_part, fragment_part.
    destruct (text l), (C l); reflexivity.
Qed.

End Rendering.

(** C5, as the specification words it, fails on
    [dsaparam -C -out out.pem -in in.pem]: the source-code fragment is
    written to [bio_out], not to the stream opened for out.pem. *)
Lemma C5_counterexample :
  ~ renders_to_output_stream Examples.world_ok Examples.max_bits false
      Examples.cl_C_out.
Proof. unfold renders_to_output_stream. vm_compute. discriminate. Qed.

(** On [dsaparam -C -out out.pem -in in.pem], every callee succeeding. *)
Lemma C5_rendering_order_and_streams_witness :
  filter is_rendering
    (fst (dsaparam_main Examples.world_ok Examples.max_bits false
            Examples.cl_C_out))
  = (C_block Examples.the_params
     ++ [Ev_PEM_write_bio_Parameters out_bio Examples.the_params])%list
  /\ filter (writes_to out_bio)
       (fst (dsaparam_main Examples.world_ok Examples.max_bits false
               Examples.cl_C_out))
     = [Ev_PEM_write_bio_Parameters out_bio Examples.the_params]
  /\ filter (writes_to bio_out)
       (fst (dsaparam_main Examples.world_ok Examples.max_bits false
               Examples.cl_C_out))
     = C_block Examples.the_params.
Proof.
  exact (C5_rendering_order_and_streams Examples.world_ok
           Examples.max_bits false Examples.cl_C_out (t0 := [])
           (params := Examples.the_params) eq_refl eq_refl eq_refl).
Defined.

(** On [dsaparam -outform DER -genkey -in in.pem], every callee
    succeeding. *)
Lemma C2_der_genkey_single_record_witness :
  exists params,
    snd (resolve Examples.world_ok Examples.max_bits
           (set_infile (Some "in.pem")
              (set_genkey true
                 (set_outformat FORMAT_ASN1 (locals_init false))))
           (-1) 0) = Next params
    /\ filter is_params_record
         (fst (dsaparam_main Examples.world_ok Examples.max_bits false
                 Examples.cl_genkey_der)) = []
    /\ filter is_record
         (fst (dsaparam_main Examples.world_ok Examples.max_bits false
                 Examples.cl_genkey_der))
       = [Ev_i2d_PrivateKey_bio out_bio
            (snd (EVP_PKEY_keygen Examples.world_ok params))]
    /\ filter (writes_to out_bio)
         (fst (dsaparam_main Examples.world_ok Examples.max_bits false
                 Examples.cl_genkey_der))
       = [Ev_i2d_PrivateKey_bio out_bio
            (snd (EVP_PKEY_keygen Examples.world_ok params))].
Proof.
  exact (C2_der_genkey_single_record Examples.world_ok Examples.max_bits
           false Examples.cl_genkey_der (t0 := []) eq_refl eq_refl eq_refl
           eq_refl).
Defined.

(** ** The parameters a run works with *)

Section Delivered.

Variable w : world.
Variable MAX : Z.

(** C4: the parameters of a run come from one of two sources.  With a
    positive bit length, which is the positional argument as [opt_int]
    reads it, the input stream is never read; once the streams are open
    the calls of generation are made, each when the one before it passes
    its test, and the call that sets the bit length is given exactly the
    requested one; and when the generator stores parameters, those are
    the parameters the run renders.  Otherwise, that is without exactly
    one positional argument or with one that reads as 0, no step of
    generation is taken, the input stream is read once by the decoder of
    the configured format (DER or PEM), and when it returns parameters,
    those are the parameters the run renders.  Conversely, parameters
    the run works with are those its one source has given. *)
Theorem C4_parameters_from_one_source v cl t0 l numbits num :
  options w v cl = (t0, Next (l, (numbits, num))) ->
  let tr := fst (dsaparam_main w MAX v cl) in
  let rendered params :=
    (text_part l params ++ fragment_part l params
     ++ records_part w l params)%list in
  (0 < numbits ->
     (exists a, cl_rest cl = [a] /\ opt_int w a = Some numbits)
     /\ filter is_input_read tr = []
     /\ (streams_ok w l = true ->
         filter is_generation tr =
         Ev_CTX_set_cb :: Ev_paramgen_init
         :: (if EVP_PKEY_paramgen_init w <=? 0 then []
             else Ev_CTX_set_dsa_paramgen_bits numbits
                  :: (if EVP_PKEY_CTX_set_dsa_paramgen_bits w numbits =? 0
                      then []
                      else [Ev_paramgen numbits])))
     /\ (streams_ok w l = true ->
         0 < EVP_PKEY_paramgen_init w ->
         EVP_PKEY_CTX_set_dsa_paramgen_bits w numbits <> 0 ->
         0 < snd (fst (EVP_PKEY_paramgen w numbits)) ->
         forall params,
           snd (EVP_PKEY_paramgen w numbits) = Some params ->
           snd (resolve w MAX l numbits num) = Next params
           /\ filter is_rendering tr = rendered params)
     /\ (forall t params,
           resolve w MAX l numbits num = (t, Next params) ->
           snd (EVP_PKEY_paramgen w numbits) = Some params))
  /\ (numbits <= 0 ->
      (List.length (cl_rest cl) <> 1%nat
       \/ exists a, cl_rest cl = [a] /\ opt_int w a = Some 0)
      /\ filter is_generation tr = []
      /\ (streams_ok w l = true ->
          filter is_input_read tr = [read_event (informat l)])
      /\ (streams_ok w l = true ->
          forall params,
            decoded w (informat l) = Some params ->
            snd (resolve w MAX l numbits num) = Next params
            /\ filter is_rendering tr = rendered params)
      /\ (forall t params,
            resolve w MAX l numbits num = (t, Next params) ->
            decoded w (informat l) = Some params)).
Proof.
  intros H tr rendered. subst tr rendered. split.
  - intros Hpos. pose proof (accepted_num w v cl H Hpos) as Hnum.
    split; [| split; [| split; [| split]]].
    + destruct (options_accepted w v cl H) as [_ Hr].
      apply read_numbits_Next in Hr
        as [_ [(Hm & _) | (a & Ha & Hi & Heq & _)]]; [lia |].
      exists a. subst. auto.
    + eapply generate_never_reads; eauto.
    + intros Hs. exact (run_generation_calls w MAX v cl H Hpos Hs).
    + intros Hs Hinit Hbits Hrc params Hstored.
      assert (Hres : snd (resolve w MAX l numbits num) = Next params).
      { rewrite (resolve_outcome w MAX l (fun _ => Hnum)).
        unfold resolved.
        apply Z.ltb_lt in Hpos, Hinit, Hrc. apply Z.eqb_neq in Hbits.
        now rewrite Hpos, Hinit, Hbits, Hrc, Hstored. }
      split; [exact Hres |].
      exact (run_renderings w MAX v cl H Hs Hres).
    + intros t params Hr.
      pose proof (resolve_outcome w MAX l (fun _ => Hnum)) as Ho.
      rewrite Hr in Ho. simpl in Ho. unfold resolved in Ho.
      apply Z.ltb_lt in Hpos. rewrite Hpos in Ho.
      destruct (_ && _); [| discriminate].
      destruct (snd (EVP_PKEY_paramgen w numbits)); congruence.
  - intros Hle.
    assert (Hnum : 0 < numbits -> num = numbits) by lia.
    split; [| split; [| split; [| split]]].
    + destruct (options_accepted w v cl H) as [_ Hr].
      apply read_numbits_Next in Hr
        as [_ [(_ & _ & Hlen) | (a & Ha & Hi & Heq & Hge)]]; [now left |].
      right. exists a. split; [exact Ha |].
      rewrite Hi. f_equal. lia.
    + eapply load_never_generates; eauto.
    + intros Hs. eapply load_reads_once; eauto.
    + intros Hs params Hdec.
      assert (Hres : snd (resolve w MAX l numbits num) = Next params).
      { rewrite (resolve_outcome w MAX l Hnum). unfold resolved.
        apply Z.ltb_ge in Hle. now rewrite Hle, Hdec. }
      split; [exact Hres |].
      exact (run_renderings w MAX v cl H Hs Hres).
    + intros t params Hr.
      pose proof (resolve_outcome w MAX l Hnum) as Ho.
      rewrite Hr in Ho. simpl in Ho. unfold resolved in Ho.
      apply Z.ltb_ge in Hle. rewrite Hle in Ho.
      destruct (decoded w (informat l)); congruence.
Qed.

End Delivered.

(** On [dsaparam -in in.pem 512] and on [dsaparam -inform DER -in in.der],
    every callee succeeding. *)
Lemma C4_parameters_from_one_source_witness :
  (filter is_input_read
     (fst (dsaparam_main Examples.world_ok Examples.max_bits false
             Examples.cl_in_and_bits)) = []
   /\ filter is_generation
        (fst (dsaparam_main Examples.world_ok Examples.max_bits false
                Examples.cl_in_and_bits))
      = [Ev_CTX_set_cb; Ev_paramgen_init; Ev_CTX_set_dsa_paramgen_bits 512;
         Ev_paramgen 512]
   /\ filter is_rendering
        (fst (dsaparam_main Examples.world_ok Examples.max_bits false
                Examples.cl_in_and_bits))
      = [Ev_PEM_write_bio_Parameters out_bio Examples.the_params])
  /\ (filter is_generation
        (fst (dsaparam_main Examples.world_ok Examples.max_bits false
                Examples.cl_load_der)) = []
      /\ filter is_input_read
           (fst (dsaparam_main Examples.world_ok Examples.max_bits false
                   Examples.cl_load_der)) = [Ev_d2i_KeyParams_bio in_bio]
      /\ filter is_rendering
           (fst (dsaparam_main Examples.world_ok Examples.max_bits false
                   Examples.cl_load_der))
         = [Ev_PEM_write_bio_Parameters out_bio Examples.the_params]).
Proof.
  destruct (C4_parameters_from_one_source Examples.world_ok
              Examples.max_bits false Examples.cl_in_and_bits (t0 := [])
              eq_refl) as [Hgen _].
  destruct (Hgen eq_refl) as (_ & H1 & H2 & H3 & _).
  destruct (C4_parameters_from_one_source Examples.world_ok
              Examples.max_bits false Examples.cl_load_der (t0 := [])
              eq_refl) as [_ Hload].
  destruct (Hload ltac:(discriminate)) as (_ & H4 & H5 & H6 & _).
  split; [split; [exact H1 | split; [exact (H2 eq_refl) |]]
         | split; [exact H4 | split; [exact (H5 eq_refl) |]]].
  - exact (proj2 (H3 eq_refl eq_refl ltac:(discriminate) eq_refl
                    Examples.the_params eq_refl)).
  - exact (proj2 (H6 eq_refl Examples.the_params eq_refl)).
Defined.

(** ** The exit code *)

Lemma reports_failure_mbind A B (m : M A) (k : A -> M B) :
  reports_failure m ->
  (forall a, reports_failure (k a)) ->
  reports_failure (mbind m k).
Proof.
  intros Hm Hk r. rewrite mbind_fst, mbind_snd, existsb_app.
  destruct (snd m) as [a | r' | ] eqn:Hs; intros Hr.
  - rewrite (Hk a r Hr). apply orb_true_r.
  - now rewrite (Hm r' Hs).
  - discriminate.
Qed.

Lemma reports_failure_Next A (m : M A) :
  (exists a, snd m = Next a) -> reports_failure m.
Proof. intros [a Ha] r Hr. congruence. Qed.

Section ExitCode.

Variable w : world.
Variable MAX : Z.

Lemma generate_reports l numbits num :
  reports_failure (generate w MAX l numbits num).
Proof.
  unfold reports_failure, generate. unfold_monad.
  case_world; intros r Hr; try discriminate; trivial;
    rewrite ?app_nil_r, existsb_app; simpl; apply orb_true_r.
Qed.

Lemma resolve_reports l numbits num :
  reports_failure (resolve w MAX l numbits num).
Proof.
  unfold resolve. apply reports_failure_mbind.
  - destruct (0 <? numbits); [apply generate_reports |].
    apply reports_failure_Next. rewrite load_outcome. eauto.
  - intros [params |] r Hr; [discriminate | reflexivity].
Qed.

Lemma write_params_reports l params :
  reports_failure (write_params w l params).
Proof.
  unfold reports_failure, write_params. unfold_monad.
  case_world; intros r Hr; try discriminate; trivial.
Qed.

Lemma derive_key_reports l private params :
  reports_failure (derive_key w l private params).
Proof.
  unfold reports_failure, derive_key. unfold_monad.
  case_world; intros r Hr; try discriminate; trivial.
Qed.

Lemma render_reports l private params :
  reports_failure (render w l private params).
Proof.
  unfold render. repeat (apply reports_failure_mbind; [| intros _]).
  - apply reports_failure_Next. destruct (text l); simpl; eauto.
  - apply reports_failure_Next. destruct (C l); simpl; eauto.
  - apply write_params_reports.
  - apply derive_key_reports.
Qed.

(** Once both streams are open, the only way out of the stream stage is
    the reported failure to allocate the context. *)
Lemma open_streams_reports l private :
  bio_open_default w (infile l) (informat l) = true ->
  bio_open_owner w (outfile l) (outformat l) private = true ->
  reports_failure (open_streams w l private).
Proof.
  intros Hin Hout. unfold reports_failure, open_streams. unfold_monad.
  rewrite Hin, Hout.
  case_world; intros r Hr; try discriminate; trivial.
Qed.

Lemma stages_reports l numbits num :
  bio_open_default w (infile l) (informat l) = true ->
  bio_open_owner w (outfile l) (outformat l) (genkey l) = true ->
  reports_failure (stages w MAX l numbits num).
Proof.
  intros Hin Hout. unfold stages.
  apply reports_failure_mbind; [| intros _; apply reports_failure_mbind].
  - apply open_streams_reports; trivial. now destruct (genkey l).
  - apply resolve_reports.
  - intros params. apply render_reports.
Qed.

(** *** Success and the tests of the code *)

(** Case analysis on the comparisons of a goal about results. *)
Ltac case_results :=
  unfold succeeded in *;
  repeat match goal with
  | H : context [?a <? ?b] |- _ => destruct (Z.ltb_spec a b)
  | |- context [?a <? ?b] => destruct (Z.ltb_spec a b)
  | H : context [?a =? ?b] |- _ => destruct (Z.eqb_spec a b)
  | |- context [?a =? ?b] => destruct (Z.eqb_spec a b)
  end.

(** A resolution that succeeds passes the tests of lines 171-193, with
    the same parameters. *)
Lemma resolution_succeeds_resolved l numbits params :
  resolution_succeeds w l numbits = Some params ->
  resolved w l numbits = Some params.
Proof.
  unfold resolution_succeeds, resolved.
  destruct (0 <? numbits); trivial.
  case_results; simpl; trivial; try discriminate; lia.
Qed.

(** Stages that succeed pass every test of the code. *)
Lemma stages_ok_checked l numbits :
  stages_ok_except_dump w l numbits = true ->
  checked_stages_ok w l numbits = true.
Proof.
  unfold stages_ok_except_dump, checked_stages_ok.
  destruct (streams_ok w l); [simpl | discriminate].
  destruct (resolution_succeeds w l numbits) as [params |] eqn:Hr;
    [| discriminate].
  rewrite (resolution_succeeds_resolved _ _ Hr).
  unfold params_write_succeeds, key_written, key_derivation_succeeds,
    params_written, key_derived.
  destruct (suppressed l), (genkey l), (EVP_PKEY_CTX_new w params); simpl;
    case_results; simpl; trivial; try discriminate; lia.
Qed.

(** Stages that succeed leave no failure the code does not look for. *)
Lemma stages_ok_no_unchecked l numbits :
  stages_ok_except_dump w l numbits = true ->
  unchecked_failure w l numbits = false.
Proof.
  unfold stages_ok_except_dump, unchecked_failure.
  destruct (streams_ok w l); [simpl | discriminate].
  destruct (resolution_succeeds w l numbits) as [params |] eqn:Hr;
    [| discriminate].
  rewrite (resolution_succeeds_resolved _ _ Hr).
  assert (Hbits : (0 <? numbits) && (0 <? EVP_PKEY_paramgen_init w)
                  && (EVP_PKEY_CTX_set_dsa_paramgen_bits w numbits <? 0)
                  = false).
  { unfold resolution_succeeds in Hr.
    destruct (0 <? numbits); trivial. simpl.
    case_results; simpl in *; trivial; try discriminate; lia. }
  rewrite Hbits. cbv zeta. simpl orb.
  unfold params_write_succeeds, key_written, key_derivation_succeeds,
    params_written.
  destruct (suppressed l), (genkey l), (EVP_PKEY_CTX_new w params); simpl;
    destruct (snd (EVP_PKEY_keygen w params)); simpl;
    case_results; simpl; trivial; try discriminate; lia.
Qed.

(** Stages that pass every test of the code have succeeded, unless a
    failure occurs that the code does not look for. *)
Lemma checked_stages_succeed l numbits :
  checked_stages_ok w l numbits = true ->
  unchecked_failure w l numbits = false ->
  stages_ok_except_dump w l numbits = true.
Proof.
  unfold stages_ok_except_dump, checked_stages_ok, unchecked_failure.
  destruct (streams_ok w l); [simpl | discriminate].
  destruct (resolved w l numbits) as [params |] eqn:Hr; [| discriminate].
  intros Hok Hun. apply orb_false_iff in Hun as [Hbits Hun].
  assert (Hres : resolution_succeeds w l numbits = Some params).
  { revert Hr Hbits. unfold resolution_succeeds, resolved.
    destruct (0 <? numbits); trivial. simpl.
    case_results; simpl; trivial; try discriminate; lia. }
  rewrite Hres. revert Hok Hun. cbv zeta.
  unfold params_write_succeeds, key_written, key_derivation_succeeds,
    params_written, key_derived.
  destruct (suppressed l), (genkey l), (EVP_PKEY_CTX_new w params); simpl;
    destruct (snd (EVP_PKEY_keygen w params)); simpl;
    case_results; simpl; trivial; try discriminate; lia.
Qed.

(** *** The result of the text dump *)

Lemma opt_loop_print_params f opts : forall l,
  opt_loop (set_EVP_PKEY_print_params f w) opts l = opt_loop w opts l.
Proof.
  induction opts as [| [o a] opts IH]; intros l; [reflexivity |].
  assert (Hc : forall o', opt_case (set_EVP_PKEY_print_params f w) o' a l
                          = opt_case w o' a l)
    by (intros o'; destruct o'; reflexivity).
  destruct o; cbn [opt_loop]; trivial; rewrite Hc;
    destruct (opt_case w _ a l) as [t [l1 | r | ]]; cbn [mbind]; trivial;
    now rewrite IH.
Qed.

(** No statement of [dsaparam_main] reads what [EVP_PKEY_print_params]
    returns: whatever it returns, the run is the same, call for call. *)
Lemma print_params_result_unused f v cl :
  dsaparam_main (set_EVP_PKEY_print_params f w) MAX v cl
  = dsaparam_main w MAX v cl.
Proof.
  unfold dsaparam_main, body, options.
  rewrite opt_loop_print_params. reflexivity.
Qed.


End ExitCode.


(** At that input the dump is requested and made, it returns 0, and no
    message reaches [bio_err]. *)
Lemma text_dump_failure_unreported :
  let r := dsaparam_main Examples.world_text_fails Examples.max_bits false
             Examples.cl_text in
  snd r = Exit 0
  /\ In (Ev_print_params out_bio Examples.the_params) (fst r)
  /\ EVP_PKEY_print_params Examples.world_text_fails Examples.the_params = 0
  /\ filter is_diagnostic (fst r) = [].
Proof. vm_compute. intuition. Qed.

(** Lines 275-278 store what the private-key write returns in [i] and
    line 280 sets [ret] to 0 without reading it: on
    [dsaparam -outform DER -genkey -in in.pem] with a key write that
    returns 0 the run still returns 0 and reports nothing.  The
    parameter write at lines 245-253 tests the same variable. *)
Lemma key_write_failure_unreported :
  let r := dsaparam_main Examples.world_key_write_fails Examples.max_bits
             false Examples.cl_genkey_der in
  snd r = Exit 0
  /\ In (Ev_i2d_PrivateKey_bio out_bio (Some Examples.the_key)) (fst r)
  /\ i2d_PrivateKey_bio Examples.world_key_write_fails
       (Some Examples.the_key) = 0
  /\ filter is_diagnostic (fst r) = [].
Proof. vm_compute. intuition. Qed.


(** ** The progress callback *)

Lemma gendsa_cb_verbose ctx :
  gendsa_cb true ctx =
  ([Ev_BIO_write (app_data ctx) (progress_char (keygen_info ctx)) 1;
    Ev_BIO_flush (app_data ctx)], 1).
Proof.
  unfold gendsa_cb. simpl negb. cbv iota.
  change (sizeof_symbols - 1) with 4.
  destruct (Z.leb_spec 0 (keygen_info ctx)) as [Hlo | Hlo];
    destruct (Z.ltb_spec (keygen_info ctx) 4) as [Hhi | Hhi]; simpl andb;
      cbv iota.
  - assert (Hp : keygen_info ctx = 0 \/ keygen_info ctx = 1 \/
                 keygen_info ctx = 2 \/ keygen_info ctx = 3) by lia.
    destruct Hp as [-> | [-> | [-> | ->]]]; reflexivity.
  - destruct (keygen_info ctx) as [| [p | p |] | p]; try lia; try reflexivity;
      destruct p as [p | p |]; try lia; reflexivity.
  - destruct (keygen_info ctx); try lia; reflexivity.
  - lia.
Qed.

Local Transparent paramgen_callbacks.

(** C8: with [verbose] off the callback makes no call.  With [verbose]
    on it makes exactly two: it writes one character, the one that
    stands for the progress signal ('.', '+', '*' or a newline for 0 to
    3, '?' for anything else), to the stream installed as application
    data, and then flushes that stream.  It returns 1 either way.  In
    [dsaparam_main] that stream is [bio_err], so the callbacks of one
    search write one character and flush [bio_err], signal after
    signal. *)
Theorem C8_progress_callback :
  (forall ctx, gendsa_cb false ctx = ([], 1))
  /\ (forall ctx,
        gendsa_cb true ctx =
        ([Ev_BIO_write (app_data ctx) (progress_char (keygen_info ctx)) 1;
          Ev_BIO_flush (app_data ctx)], 1))
  /\ (forall signals, paramgen_callbacks false bio_err signals = [])
  /\ (forall signals,
        paramgen_callbacks true bio_err signals =
        flat_map (fun p => [Ev_BIO_write bio_err (progress_char p) 1;
                            Ev_BIO_flush bio_err]) signals).
Proof.
  split; [reflexivity | split; [exact gendsa_cb_verbose | split]].
  - induction signals as [| p ps IH]; [reflexivity |].
    unfold paramgen_callbacks in *. simpl. exact IH.
  - induction signals as [| p ps IH]; [reflexivity |].
    unfold paramgen_callbacks in *. cbn [flat_map].
    rewrite gendsa_cb_verbose, IH. reflexivity.
Qed.

Local Opaque paramgen_callbacks.

(** ** Big numbers and literal byte arrays *)

Local Transparent String.append fmt_d nl print_bignum_var.

Section Bignum.

Local Open Scope N_scope.

Lemma le_bytes_value fuel : forall a,
  a < 2 ^ N.of_nat fuel -> le_value (le_bytes fuel a) = a.
Proof.
  induction fuel as [| fuel IH]; intros a Ha.
  - change (2 ^ N.of_nat 0) with 1 in Ha. assert (a = 0) by lia. now subst.
  - simpl le_bytes. destruct (N.eqb_spec a 0) as [-> | Hnz]; [reflexivity |].
    unfold le_value in *. cbn [fold_right]. rewrite IH.
    + pose proof (N.div_mod a 256). lia.
    + rewrite Nat2N.inj_succ, N.pow_succ_r' in Ha.
      apply N.Div0.div_lt_upper_bound. lia.
Qed.

Lemma le_bytes_bound fuel : forall a,
  Forall (fun b => b < 256) (le_bytes fuel a).
Proof.
  induction fuel as [| fuel IH]; intros a; simpl; [constructor |].
  destruct (a =? 0); constructor; [| apply IH].
  apply N.mod_lt. discriminate.
Qed.

(** The most significant byte is not zero. *)
Lemma le_bytes_last fuel : forall a d,
  a < 2 ^ N.of_nat fuel -> a <> 0 -> last (le_bytes fuel a) d <> 0.
Proof.
  induction fuel as [| fuel IH]; intros a d Ha Hnz.
  - change (2 ^ N.of_nat 0) with 1 in Ha. lia.
  - simpl le_bytes. destruct (N.eqb_spec a 0) as [-> | _]; [easy |].
    assert (Hq : a / 256 < 2 ^ N.of_nat fuel).
    { rewrite Nat2N.inj_succ, N.pow_succ_r' in Ha.
      apply N.Div0.div_lt_upper_bound. lia. }
    destruct (N.eqb_spec (a / 256) 0) as [Hz | Hq0].
    + assert (Hnil : le_bytes fuel (a / 256) = []).
      { rewrite Hz. destruct fuel; reflexivity. }
      rewrite Hnil. cbn [last].
      pose proof (N.div_mod a 256). lia.
    + specialize (IH (a / 256) d Hq Hq0).
      destruct (le_bytes fuel (a / 256)) eqn:Hl; [| exact IH].
      destruct fuel; simpl in Hl.
      * change (2 ^ N.of_nat 0) with 1 in Hq. apply N.lt_1_r in Hq.
        contradiction.
      * apply N.eqb_neq in Hq0. rewrite Hq0 in Hl. discriminate.
Qed.

Lemma BN_bin2bn_rev bs : BN_bin2bn (rev bs) = le_value bs.
Proof.
  unfold BN_bin2bn, le_value. rewrite <- fold_left_rev_right.
  rewrite rev_involutive.
  induction bs as [| b bs IH]; cbn [fold_right]; [reflexivity |].
  rewrite IH. lia.
Qed.

(** Reading back the big-endian minimal representation gives the
    number. *)
Lemma BN_bin2bn_bn2bin a : BN_bin2bn (BN_bn2bin a) = a.
Proof.
  unfold BN_bn2bin. rewrite BN_bin2bn_rev. apply le_bytes_value.
  rewrite N2Nat.id. apply N.size_gt.
Qed.

Lemma BN_bn2bin_bound a : Forall (fun b => b < 256) (BN_bn2bin a).
Proof. unfold BN_bn2bin. apply Forall_rev, le_bytes_bound. Qed.

(** The representation is minimal: it has no leading zero byte, and it
    is empty for zero. *)
Lemma BN_bn2bin_minimal a :
  hd_error (BN_bn2bin a) <> Some 0 /\ (a = 0 -> BN_bn2bin a = []).
Proof.
  split.
  - unfold BN_bn2bin.
    destruct (N.eqb_spec a 0) as [-> | Hnz]; [discriminate |].
    pose proof (@le_bytes_last (N.to_nat (N.size a)) a 1) as Hlast.
    rewrite N2Nat.id in Hlast. specialize (Hlast (N.size_gt a) Hnz).
    destruct (le_bytes (N.to_nat (N.size a)) a) as [| b bs] using rev_ind;
      [discriminate |].
    rewrite rev_app_distr. simpl.
    rewrite last_last in Hlast. congruence.
  - intros ->. reflexivity.
Qed.

(** [BN_num_bits] is the bit length. *)
Lemma BN_num_bits_spec a :
  a <> 0 ->
  2 ^ (Z.to_N (BN_num_bits a) - 1) <= a < 2 ^ Z.to_N (BN_num_bits a).
Proof.
  intros Hnz. unfold BN_num_bits. rewrite N2Z.id.
  rewrite N.size_log2 by trivial.
  replace (N.succ (N.log2 a) - 1) with (N.log2 a) by lia.
  apply N.log2_spec. lia.
Qed.

Lemma size_div_256 a : 256 <= a -> N.size a = N.size (a / 256) + 8.
Proof.
  intros Ha.
  assert (Hq : a / 256 <> 0).
  { intros Hz. pose proof (N.div_mod a 256). pose proof (N.mod_lt a 256).
    lia. }
  rewrite !N.size_log2 by lia.
  change 256 with (2 ^ 8). rewrite <- N.shiftr_div_pow2, N.log2_shiftr.
  assert (8 <= N.log2 a).
  { change 8 with (N.log2 (2 ^ 8)). apply N.log2_le_mono. exact Ha. }
  lia.
Qed.

Lemma size_below_256 a : a <> 0 -> a < 256 -> 1 <= N.size a <= 8.
Proof.
  intros Hnz Ha. rewrite N.size_log2 by trivial.
  assert (N.log2 a < 8) by (apply N.log2_lt_pow2; [lia | exact Ha]).
  lia.
Qed.

Lemma le_bytes_length fuel : forall a,
  N.size a <= N.of_nat fuel ->
  N.of_nat (List.length (le_bytes fuel a)) = (N.size a + 7) / 8.
Proof.
  induction fuel as [| fuel IH]; intros a Ha.
  - assert (Hs : N.size a = 0) by lia.
    destruct a as [| p]; [reflexivity |]. destruct p; discriminate.
  - simpl le_bytes. destruct (N.eqb_spec a 0) as [-> | Hnz]; [reflexivity |].
    cbn [List.length]. rewrite Nat2N.inj_succ.
    destruct (N.lt_ge_cases a 256) as [Hlt | Hge].
    + rewrite (N.div_small a 256 Hlt).
      replace (le_bytes fuel 0) with (@nil N) by (destruct fuel; reflexivity).
      pose proof (size_below_256 Hnz Hlt) as Hs.
      apply N.div_unique with (r := N.size a - 1); cbn [List.length N.of_nat];
        lia.
    + pose proof (size_div_256 Hge) as Hs. rewrite IH by lia.
      rewrite Hs.
      replace (N.size (a / 256) + 8 + 7)
        with (N.size (a / 256) + 7 + 1 * 8) by lia.
      rewrite N.div_add by discriminate. lia.
Qed.

(** The representation of [a] takes [BN_num_bytes a] bytes. *)
Lemma BN_bn2bin_length a :
  Z.of_nat (List.length (BN_bn2bin a)) = BN_num_bytes a.
Proof.
  unfold BN_bn2bin, BN_num_bytes, BN_num_bits. rewrite length_rev.
  rewrite <- nat_N_Z, le_bytes_length by (rewrite N2Nat.id; lia).
  rewrite N2Z.inj_div, N2Z.inj_add. reflexivity.
Qed.

Lemma N_size_mono a b : a <= b -> N.size a <= N.size b.
Proof.
  intros Hab. destruct (N.eqb_spec a 0) as [-> | Ha]; [apply N.le_0_l |].
  rewrite !N.size_log2 by lia.
  apply -> N.succ_le_mono. now apply N.log2_le_mono.
Qed.

(** The buffer sized for p, [BN_num_bytes(p) + 20] bytes, also holds any
    number that is not larger than p, as q and g of DSA parameters are. *)
Lemma BN_buffer_suffices p a :
  a <= p ->
  (Z.of_nat (List.length (BN_bn2bin a)) <= BN_num_bytes p + 20)%Z.
Proof.
  intros Hap. rewrite BN_bn2bin_length. unfold BN_num_bytes, BN_num_bits.
  pose proof (N_size_mono Hap) as Hs.
  assert ((Z.of_N (N.size a) + 7) / 8 <= (Z.of_N (N.size p) + 7) / 8)%Z.
  { apply Z.div_le_mono; lia. }
  lia.
Qed.

End Bignum.

Section Hex.

Lemma string_app_assoc (a b c : string) :
  ((a ++ b) ++ c = a ++ (b ++ c))%string.
Proof. induction a as [| x a IH]; simpl; [reflexivity | now rewrite IH]. Qed.

Lemma hex_value_digit (d : N) :
  (d < 16)%N -> hex_value (hex_digit d) = Some d.
Proof.
  intros Hd.
  assert (Hcases : In d [0; 1; 2; 3; 4; 5; 6; 7; 8; 9; 10; 11; 12; 13; 14; 15]%N).
  { simpl. lia. }
  simpl in Hcases.
  repeat (destruct Hcases as [<- | Hcases]; [reflexivity |]).
  contradiction.
Qed.

(** A character other than the digit 0 starts no byte. *)
Lemma scan_hex_other c rest :
  (c =? "0")%char = false -> scan_hex (String c rest) = scan_hex rest.
Proof. intros Hc. simpl. now rewrite Hc. Qed.

(** Nor does a 0 that no x follows. *)
Lemma scan_hex_zero rest :
  (forall r, rest <> String "x" r) ->
  scan_hex (String "0" rest) = scan_hex rest.
Proof.
  intros Hx. simpl.
  destruct rest as [| x [| a [| b r]]]; trivial.
  destruct (Ascii.eqb_spec x "x") as [-> | _]; trivial.
  now elim (Hx (String a (String b r))).
Qed.

(** A byte printed as [0x%02X] is read back. *)
Lemma scan_hex_byte (b : N) rest :
  (b < 256)%N ->
  scan_hex ("0x" ++ fmt_02X b ++ rest) = b :: scan_hex rest.
Proof.
  intros Hb. unfold fmt_02X.
  change (scan_hex ("0x" ++ _ ++ rest))
    with (match hex_value (hex_digit (b / 16)),
                hex_value (hex_digit (b mod 16)) with
          | Some h, Some l => (16 * h + l)%N :: scan_hex rest
          | _, _ => scan_hex
                      (String "x" (String (hex_digit (b / 16))
                         (String (hex_digit (b mod 16)) rest)))
          end).
  rewrite !hex_value_digit.
  - f_equal. pose proof (N.div_mod b 16). lia.
  - apply N.mod_lt. discriminate.
  - apply N.Div0.div_lt_upper_bound. lia.
Qed.

(** Text without an x holds no byte. *)
Lemma scan_hex_skip pre : forall s,
  no_x pre = true ->
  (forall r, s <> String "x" r) ->
  scan_hex (pre ++ s) = scan_hex s.
Proof.
  induction pre as [| c pre IH]; intros s Hpre Hs; [reflexivity |].
  simpl in Hpre. apply andb_true_iff in Hpre as [Hc Hpre].
  change (String c pre ++ s)%string with (String c (pre ++ s)).
  destruct (Ascii.eqb_spec c "0") as [-> | Hc0].
  - rewrite scan_hex_zero; [now apply IH |].
    intros r Hr. destruct pre as [| x pre]; simpl in Hr.
    + now elim (Hs r).
    + inversion Hr; subst. discriminate.
  - rewrite scan_hex_other; [now apply IH |].
    now apply Ascii.eqb_neq.
Qed.

Lemma no_x_app a b : no_x (a ++ b) = no_x a && no_x b.
Proof.
  induction a as [| c a IH]; simpl; [reflexivity |].
  now rewrite IH, andb_assoc.
Qed.

(** What [%d] prints holds no x. *)
Lemma no_x_fmt_d z : no_x (fmt_d z) = true.
Proof.
  assert (Hu : forall d, no_x (NilEmpty.string_of_uint d) = true).
  { induction d; simpl; trivial. }
  assert (Hz : forall d, no_x (NilZero.string_of_uint d) = true).
  { intros d. destruct d; simpl; trivial; apply Hu. }
  unfold fmt_d, NilZero.string_of_int.
  destruct (Z.to_int z); simpl; apply Hz.
Qed.

(** The bytes of an initializer list are read back, one by one. *)
Lemma scan_hex_list bs : forall tail,
  Forall (fun b => b < 256)%N bs ->
  no_x tail = true ->
  scan_hex (hex_list bs ++ tail) = (bs ++ scan_hex tail)%list.
Proof.
  induction bs as [| b bs IH]; intros tail Hbs Htail; [reflexivity |].
  inversion Hbs as [| ? ? Hb Hbs']; subst.
  destruct bs as [| b' bs].
  - change (hex_list [b]) with ("0x" ++ fmt_02X b)%string.
    rewrite !string_app_assoc. now rewrite scan_hex_byte.
  - change (hex_list (b :: b' :: bs))
      with ("0x" ++ fmt_02X b ++ ", " ++ hex_list (b' :: bs))%string.
    rewrite !string_app_assoc, scan_hex_byte by trivial.
    change (", " ++ hex_list (b' :: bs) ++ tail)%string
      with (String "," (String " " (hex_list (b' :: bs) ++ tail))).
    rewrite !scan_hex_other by reflexivity.
    now rewrite IH.
Qed.

(** The array that [print_bignum_var] declares is read back as the
    big-endian minimal representation, whatever name without x and
    whatever length suffix it is given. *)
Lemma scan_print_bignum_var a var len :
  no_x var = true ->
  scan_hex (print_bignum_var a var len) = BN_bn2bin a.
Proof.
  intros Hvar.
  set (tail := (nl ++ "    };" ++ nl)%string).
  set (pre := ("    static unsigned char " ++ var ++ "_" ++ fmt_d len
               ++ "[] = {" ++ nl ++ "        ")%string).
  assert (Heq : print_bignum_var a var len
                = (pre ++ (hex_list (BN_bn2bin a) ++ tail))%string).
  { unfold print_bignum_var, pre, tail.
    now rewrite !string_app_assoc. }
  rewrite Heq, scan_hex_skip.
  - rewrite scan_hex_list; [apply app_nil_r | apply BN_bn2bin_bound |].
    reflexivity.
  - unfold pre. rewrite !no_x_app, Hvar, no_x_fmt_d. reflexivity.
  - intros r. destruct (BN_bn2bin a) as [| b [| b' bs]]; discriminate.
Qed.

(** The text printed on a stream is that of the calls that write to
    it. *)
Lemma printed_filter b t :
  printed b t = printed b (filter (writes_to b) t).
Proof.
  induction t as [| e t IH]; [reflexivity |].
  destruct e; simpl; trivial;
    match goal with
    | |- context [BIO_eqb ?x b] => destruct (BIO_eqb x b) eqn:Hb
    end; simpl; rewrite ?Hb; trivial; now rewrite IH.
Qed.

(** *** What [%d] prints is read back *)

Ltac read_digit :=
  match goal with
  | |- read_digits ?a (String ?c ?s) = _ =>
      let v := eval compute in (Z.of_N (N_of_ascii c) - 48) in
      change (read_digits a (String c s)) with (read_digits (10 * a + v) s)
  end.

Lemma read_digits_string_of_uint d : forall acc,
  read_digits (Z.pos acc) (NilEmpty.string_of_uint d)
  = Some (Z.pos (Pos.of_uint_acc d acc)).
Proof.
  induction d; intros acc; cbn [NilEmpty.string_of_uint Pos.of_uint_acc];
    [reflexivity | ..];
    read_digit; rewrite <- IHd; f_equal; lia.
Qed.

Lemma read_digits_zero d :
  read_digits 0 (NilEmpty.string_of_uint d) = Some (Z.of_N (Pos.of_uint d)).
Proof.
  induction d; cbn [NilEmpty.string_of_uint Pos.of_uint];
    [reflexivity | exact IHd | ..];
    read_digit; apply read_digits_string_of_uint.
Qed.

(** The decimal numeral printed for a number that is not negative
    denotes that number. *)
Lemma read_decimal_fmt_d z : 0 <= z -> read_decimal (fmt_d z) = Some z.
Proof.
  intros Hz. destruct z as [| p | p]; [reflexivity | | lia].
  unfold fmt_d. cbn [Z.to_int NilZero.string_of_int].
  pose proof (DecimalPos.Unsigned.of_to p) as Hp.
  pose proof (read_digits_zero (Pos.to_uint p)) as Hd.
  rewrite Hp in Hd.
  destruct (Pos.to_uint p); simpl in Hp; try discriminate; exact Hd.
Qed.

(** C7: take a run that has its parameters and [C] set.  What it writes
    to [bio_out] depends on p, q and g alone: any other run with the same
    three numbers, whatever its options, its verbosity and the behaviour
    of its callees, makes the same calls on [bio_out] and prints the same
    text, byte for byte.  The first line names the function [get_dsa]
    followed by a decimal numeral that denotes the bit length of p.  The
    three arrays that follow are those of p, q and g, in this order,
    each named with the same numeral, as the constructor lines after them
    name them; read back by a compiler each one is the big-endian minimal
    representation of its number (bytes below 256, no leading zero byte,
    [BN_num_bytes] of them), and [BN_bin2bn] of it is the number
    itself. *)
Theorem C7_source_code_fragment w MAX v cl t0 l numbits num params :
  options w v cl = (t0, Next (l, (numbits, num))) ->
  streams_ok w l = true ->
  snd (resolve w MAX l numbits num) = Next params ->
  C l = true ->
  let tr := fst (dsaparam_main w MAX v cl) in
  let bits_p := BN_num_bits (dsa_p params) in
  (forall w' MAX' v' cl' t0' l' numbits' num' params',
     options w' v' cl' = (t0', Next (l', (numbits', num'))) ->
     streams_ok w' l' = true ->
     snd (resolve w' MAX' l' numbits' num') = Next params' ->
     C l' = true ->
     dsa_p params' = dsa_p params ->
     dsa_q params' = dsa_q params ->
     dsa_g params' = dsa_g params ->
     filter (writes_to bio_out) (fst (dsaparam_main w' MAX' v' cl'))
     = filter (writes_to bio_out) tr
     /\ printed bio_out (fst (dsaparam_main w' MAX' v' cl'))
        = printed bio_out tr)
  /\ (exists d arr_p arr_q arr_g,
        read_decimal d = Some bits_p
        /\ filter (writes_to bio_out) tr =
           [ Ev_BIO_printf bio_out
               ("static DSA *get_dsa" ++ d ++ "(void)" ++ nl ++ "{" ++ nl);
             Ev_BIO_printf bio_out arr_p;
             Ev_BIO_printf bio_out arr_q;
             Ev_BIO_printf bio_out arr_g;
             Ev_BIO_printf bio_out
               ("    DSA *dsa = DSA_new();" ++ nl ++
                "    BIGNUM *p, *q, *g;" ++ nl ++
                nl);
             Ev_BIO_printf bio_out
               ("    if (dsa == NULL)" ++ nl ++
                "        return NULL;" ++ nl);
             Ev_BIO_printf bio_out
               ("    if (!DSA_set0_pqg(dsa, p = BN_bin2bn(dsap_" ++ d ++
                ", sizeof(dsap_" ++ d ++ "), NULL)," ++ nl);
             Ev_BIO_printf bio_out
               ("                           q = BN_bin2bn(dsaq_" ++ d ++
                ", sizeof(dsaq_" ++ d ++ "), NULL)," ++ nl);
             Ev_BIO_printf bio_out
               ("                           g = BN_bin2bn(dsag_" ++ d ++
                ", sizeof(dsag_" ++ d ++ "), NULL))) {" ++ nl);
             Ev_BIO_printf bio_out
               ("        DSA_free(dsa);" ++ nl ++
                "        BN_free(p);" ++ nl ++
                "        BN_free(q);" ++ nl ++
                "        BN_free(g);" ++ nl ++
                "        return NULL;" ++ nl ++
                "    }" ++ nl ++
                "    return dsa;" ++ nl ++ "}" ++ nl) ]
        /\ ((exists body,
               arr_p = "    static unsigned char dsap_" ++ d ++ "[] = {"
                       ++ nl ++ body)
            /\ (exists body,
                  arr_q = "    static unsigned char dsaq_" ++ d ++ "[] = {"
                          ++ nl ++ body)
            /\ (exists body,
                  arr_g = "    static unsigned char dsag_" ++ d ++ "[] = {"
                          ++ nl ++ body))
        /\ (scan_hex arr_p = BN_bn2bin (dsa_p params)
            /\ scan_hex arr_q = BN_bn2bin (dsa_q params)
            /\ scan_hex arr_g = BN_bn2bin (dsa_g params))
        /\ (BN_bin2bn (scan_hex arr_p) = dsa_p params
            /\ BN_bin2bn (scan_hex arr_q) = dsa_q params
            /\ BN_bin2bn (scan_hex arr_g) = dsa_g params))
  /\ (dsa_p params <> 0%N ->
      (2 ^ (Z.to_N bits_p - 1) <= dsa_p params < 2 ^ Z.to_N bits_p)%N)
  /\ (forall a,
        Forall (fun b => b < 256)%N (BN_bn2bin a)
        /\ hd_error (BN_bn2bin a) <> Some 0%N
        /\ Z.of_nat (List.length (BN_bn2bin a)) = BN_num_bytes a
        /\ BN_bin2bn (BN_bn2bin a) = a).
Proof.
  intros H Hs Hres HC tr bits_p. subst tr.
  pose proof (run_fragment w MAX v cl H Hs Hres HC) as Hcalls.
  split; [| split; [| split]].
  - intros w' MAX' v' cl' t0' l' numbits' num' params' H' Hs' Hres' HC'
      Hp Hq Hg.
    pose proof (run_fragment w' MAX' v' cl' H' Hs' Hres' HC') as Hcalls'.
    assert (Heq : params' = params).
    { destruct params', params. simpl in Hp, Hq, Hg. now subst. }
    rewrite (printed_filter bio_out (fst (dsaparam_main w' MAX' v' cl'))).
    rewrite (printed_filter bio_out (fst (dsaparam_main w MAX v cl))).
    rewrite Hcalls, Hcalls', Heq. split; reflexivity.
  - exists (fmt_d bits_p),
      (print_bignum_var (dsa_p params) "dsap" bits_p),
      (print_bignum_var (dsa_q params) "dsaq" bits_p),
      (print_bignum_var (dsa_g params) "dsag" bits_p).
    split; [| split; [| split; [| split]]].
    + apply read_decimal_fmt_d. unfold bits_p, BN_num_bits. lia.
    + rewrite Hcalls. reflexivity.
    + unfold print_bignum_var.
      split; [| split]; eexists; reflexivity.
    + rewrite !scan_print_bignum_var by reflexivity. auto.
    + rewrite !scan_print_bignum_var by reflexivity.
      rewrite !BN_bin2bn_bn2bin. auto.
  - apply BN_num_bits_spec.
  - intros a. split; [apply BN_bn2bin_bound | split; [| split]].
    + apply BN_bn2bin_minimal.
    + apply BN_bn2bin_length.
    + apply BN_bin2bn_bn2bin.
Qed.

End Hex.

(** [dsaparam -C -out out.pem -in in.pem] and, with other callees, another
    ceiling and [verbose] set, [dsaparam -text -C -noout -genkey -in
    in.pem]: both runs work with p = 23, q = 11, g = 4 and print the same
    fragment. *)
Lemma C7_source_code_fragment_witness :
  printed bio_out
    (fst (dsaparam_main Cases.all_ok 2048 true Cases.cl_noout_all))
  = printed bio_out
      (fst (dsaparam_main Examples.world_ok Examples.max_bits false
              Examples.cl_C_out)).
Proof.
  destruct (C7_source_code_fragment Examples.world_ok Examples.max_bits
              false Examples.cl_C_out (t0 := [])
              (params := Examples.the_params)
              eq_refl eq_refl eq_refl eq_refl) as (Hdet & _).
  exact (proj2 (Hdet Cases.all_ok 2048 true Cases.cl_noout_all [] _ _ _
                  Examples.the_params
                  eq_refl eq_refl eq_refl eq_refl eq_refl eq_refl eq_refl)).
Defined.

(** The fragment for p = 23, q = 11, g = 4. *)
Example C_block_example :
  printed bio_out (C_block Examples.the_params) =
  "static DSA *get_dsa5(void)" ++ nl ++
  "{" ++ nl ++
  "    static unsigned char dsap_5[] = {" ++ nl ++
  "        0x17" ++ nl ++
  "    };" ++ nl ++
  "    static unsigned char dsaq_5[] = {" ++ nl ++
  "        0x0B" ++ nl ++
  "    };" ++ nl ++
  "    static unsigned char dsag_5[] = {" ++ nl ++
  "        0x04" ++ nl ++
  "    };" ++ nl ++
  "    DSA *dsa = DSA_new();" ++ nl ++
  "    BIGNUM *p, *q, *g;" ++ nl ++
  nl ++
  "    if (dsa == NULL)" ++ nl ++
  "        return NULL;" ++ nl ++
  "    if (!DSA_set0_pqg(dsa, p = BN_bin2bn(dsap_5, sizeof(dsap_5), NULL)," ++ nl ++
  "                           q = BN_bin2bn(dsaq_5, sizeof(dsaq_5), NULL)," ++ nl ++
  "                           g = BN_bin2bn(dsag_5, sizeof(dsag_5), NULL))) {" ++ nl ++
  "        DSA_free(dsa);" ++ nl ++
  "        BN_free(p);" ++ nl ++
  "        BN_free(q);" ++ nl ++
  "        BN_free(g);" ++ nl ++
  "        return NULL;" ++ nl ++
  "    }" ++ nl ++
  "    return dsa;" ++ nl ++
  "}" ++ nl.
Proof. vm_compute. reflexivity. Qed.

Example BN_bn2bin_example : BN_bn2bin 65537 = [1; 0; 1]%N.
Proof. reflexivity. Qed.

(** * Further properties of the code *)

Local Opaque String.append fmt_d nl print_bignum_var paramgen_callbacks.

(** ** The option loop *)

Lemma mbind_assoc A B D (m : M A) (k : A -> M B) (k' : B -> M D) :
  mbind (mbind m k) k' = mbind m (fun a => mbind (k a) k').
Proof.
  destruct m as [t [a | r | ]]; simpl; trivial.
  destruct (k a) as [t1 [b | r | ]]; simpl; trivial.
  destruct (k' b) as [t2 o]. now rewrite app_assoc.
Qed.

Lemma mbind_mret_l A B (a : A) (k : A -> M B) : mbind (mret a) k = k a.
Proof. unfold mbind, mret. now destruct (k a). Qed.

Section OptionLoop.

Variable w : world.

Lemma opt_loop_cons o a opts l :
  OPTION_CHOICE_eqb o OPT_EOF = false ->
  opt_loop w ((o, a) :: opts) l =
  (l' <- opt_case w o a l ;; opt_loop w opts l').
Proof. destruct o; simpl; trivial; discriminate. Qed.

(** The option loop over a command line cut in two is the loop over the
    first part followed, from the locals it leaves, by the loop over the
    second; a part that is refused ends the whole. *)
Lemma opt_loop_app opts1 opts2 : forall l,
  no_eof opts1 = true ->
  opt_loop w (opts1 ++ opts2) l =
  (l' <- opt_loop w opts1 l ;; opt_loop w opts2 l').
Proof.
  induction opts1 as [| [o a] opts1 IH]; intros l Hne.
  - simpl app. change (opt_loop w [] l) with (mret l).
    now rewrite mbind_mret_l.
  - simpl in Hne. apply andb_true_iff in Hne as [Ho Hne].
    apply negb_true_iff in Ho. simpl in Ho.
    change (((o, a) :: opts1) ++ opts2)%list
      with ((o, a) :: (opts1 ++ opts2))%list.
    rewrite !opt_loop_cons by trivial.
    rewrite mbind_assoc.
    destruct (opt_case w o a l) as [t [l1 | r | ]]; simpl; trivial.
    now rewrite IH.
Qed.

End OptionLoop.

Lemma mbind_fst_snd A B (m : M A) (k : A -> M B) :
  mbind m k =
  ((fst m ++ match snd m with Next a => fst (k a) | _ => [] end)%list,
   match snd m with
   | Next a => snd (k a)
   | GotoEnd r => GotoEnd r
   | AssertFail => AssertFail
   end).
Proof. rewrite <- mbind_fst, <- mbind_snd. now destruct (mbind m k). Qed.

Section Refusal.

Variable w : world.
Variable MAX : Z.

(** A refusing option ends the run: the options after it, the positional
    arguments and the stages are not looked at. *)
Lemma run_stops_at v opts1 o a opts2 rest t l t' r :
  no_eof opts1 = true ->
  opt_loop w opts1 (locals_init v) = (t, Next l) ->
  OPTION_CHOICE_eqb o OPT_EOF = false ->
  opt_case w o a l = (t', GotoEnd r) ->
  dsaparam_main w MAX v
    {| cl_opts := opts1 ++ (o, a) :: opts2; cl_rest := rest |}
  = ((t ++ t' ++ cleanup)%list, Exit r).
Proof.
  intros Hne Hloop Ho Hcase.
  assert (Hl : opt_loop w (opts1 ++ (o, a) :: opts2) (locals_init v)
               = ((t ++ t')%list, GotoEnd r)).
  { rewrite opt_loop_app by trivial. rewrite Hloop.
    rewrite mbind_fst_snd. cbn [fst snd].
    rewrite opt_loop_cons by trivial. rewrite Hcase. reflexivity. }
  rewrite app_assoc. apply main_refused. unfold options. cbn [cl_opts].
  rewrite Hl. reflexivity.
Qed.

(** X3: [-help] after options that are accepted shows the help and
    returns 0.  The calls of the run are those of the options before it,
    [opt_help] and the cleanup: whatever follows on the command line is
    not examined, no stream is opened and no parameters are resolved. *)
Theorem help_ends_run v opts1 a opts2 rest t l :
  no_eof opts1 = true ->
  opt_loop w opts1 (locals_init v) = (t, Next l) ->
  dsaparam_main w MAX v
    {| cl_opts := opts1 ++ (OPT_HELP, a) :: opts2; cl_rest := rest |}
  = ((t ++ Ev_opt_help :: cleanup)%list, Exit 0).
Proof.
  intros Hne Hloop.
  now rewrite (run_stops_at v opts1 OPT_HELP a opts2 rest
                 (t' := [Ev_opt_help]) (r := 0) Hne Hloop).
Qed.

(** X4: an option the parser reports as [OPT_ERR], or an [-inform] or
    [-outform] whose argument [opt_format] refuses, ends the run with the
    line "prog: Use -help for summary." on [bio_err] and exit code 1;
    nothing after it is examined and no stream is opened. *)
Theorem usage_error_ends_run v opts1 o a opts2 rest t l :
  no_eof opts1 = true ->
  opt_loop w opts1 (locals_init v) = (t, Next l) ->
  o = OPT_ERR \/
  ((o = OPT_INFORM \/ o = OPT_OUTFORM) /\ opt_format w a = None) ->
  dsaparam_main w MAX v
    {| cl_opts := opts1 ++ (o, a) :: opts2; cl_rest := rest |}
  = ((t ++ Ev_BIO_printf bio_err (prog w ++ ": Use -help for summary." ++ nl)
        :: cleanup)%list, Exit 1).
Proof.
  intros Hne Hloop Hbad.
  rewrite (run_stops_at v opts1 o a opts2 rest
             (t' := [Ev_BIO_printf bio_err
                       (prog w ++ ": Use -help for summary." ++ nl)])
             (r := 1) Hne Hloop); trivial.
  - destruct Hbad as [-> | [[-> | ->] _]]; reflexivity.
  - destruct Hbad as [-> | [[-> | ->] Hf]]; simpl; rewrite ?Hf; reflexivity.
Qed.

(** X5: a random-state or provider option that [opt_rand] or
    [opt_provider] refuses ends the run with exit code 1 as well, but
    [dsaparam_main] prints nothing for it: the calls are those of the
    options before it and the cleanup. *)
Theorem rand_or_provider_error_ends_run v opts1 o a opts2 rest t l :
  no_eof opts1 = true ->
  opt_loop w opts1 (locals_init v) = (t, Next l) ->
  (o = OPT_R_ENUM /\ opt_rand w a = false) \/
  (o = OPT_PROV_ENUM /\ opt_provider w a = false) ->
  dsaparam_main w MAX v
    {| cl_opts := opts1 ++ (o, a) :: opts2; cl_rest := rest |}
  = ((t ++ cleanup)%list, Exit 1).
Proof.
  intros Hne Hloop Hbad.
  rewrite (run_stops_at v opts1 o a opts2 rest (t' := []) (r := 1)
             Hne Hloop); trivial.
  - destruct Hbad as [[-> _] | [-> _]]; reflexivity.
  - destruct Hbad as [[-> Hf] | [-> Hf]]; simpl; rewrite Hf; reflexivity.
Qed.

(** X8: a positional argument that [opt_int] cannot read, or reads as a
    negative number, ends the run with exit code 1 before any stream is
    opened; [dsaparam_main] prints nothing for it. *)
Theorem bad_numbits_ends_run v cl t0 l a :
  opt_loop w (cl_opts cl) (locals_init v) = (t0, Next l) ->
  cl_rest cl = [a] ->
  opt_int w a = None \/ (exists n, opt_int w a = Some n /\ n < 0) ->
  dsaparam_main w MAX v cl = ((t0 ++ cleanup)%list, Exit 1).
Proof.
  intros Hloop Hrest Hbad.
  apply main_refused. unfold options. rewrite Hloop, Hrest. simpl.
  destruct Hbad as [-> | [n [-> Hn]]]; simpl.
  - now rewrite app_nil_r.
  - apply Z.ltb_lt in Hn. rewrite Hn. simpl. now rewrite app_nil_r.
Qed.

(** X9: with no positional argument, or with more than one, [numbits]
    keeps its initial -1 and the arguments are not read at all: the run
    takes no step of generation and loads its parameters from the input
    stream. *)
Theorem other_arity_loads v cl t0 l :
  opt_loop w (cl_opts cl) (locals_init v) = (t0, Next l) ->
  List.length (cl_rest cl) <> 1%nat ->
  options w v cl = (t0, Next (l, (-1, 0)))
  /\ filter is_generation (fst (dsaparam_main w MAX v cl)) = []
  /\ (streams_ok w l = true ->
      filter is_input_read (fst (dsaparam_main w MAX v cl))
      = [read_event (informat l)]).
Proof.
  intros Hloop Hlen.
  assert (H : options w v cl = (t0, Next (l, (-1, 0)))).
  { apply options_of_parts; trivial.
    destruct (cl_rest cl) as [| a [| b rest]]; trivial.
    now elim Hlen. }
  split; [exact H | split].
  - eapply load_never_generates; eauto. lia.
  - intros Hs. eapply load_reads_once; eauto. lia.
Qed.

End Refusal.

(** [dsaparam -text -help -inform XYZ 512] *)
Lemma help_ends_run_witness :
  dsaparam_main Cases.all_ok Examples.max_bits false
    {| cl_opts := [(OPT_TEXT, "")] ++ (OPT_HELP, "")
                  :: [(OPT_INFORM, "XYZ")];
       cl_rest := ["512"] |}
  = (Ev_opt_help :: cleanup, Exit 0).
Proof.
  exact (help_ends_run Cases.all_ok Examples.max_bits false
           [(OPT_TEXT, "")] "" [(OPT_INFORM, "XYZ")] ["512"]
           eq_refl eq_refl).
Defined.

(** [dsaparam -engine e1 -inform XYZ -text] *)
Lemma usage_error_ends_run_witness :
  dsaparam_main Cases.all_ok Examples.max_bits false
    {| cl_opts := [(OPT_ENGINE, "e1")] ++ (OPT_INFORM, "XYZ")
                  :: [(OPT_TEXT, "")];
       cl_rest := [] |}
  = ([Ev_setup_engine "e1";
      Ev_BIO_printf bio_err ("dsaparam" ++ ": Use -help for summary." ++ nl)]
     ++ cleanup, Exit 1)%list.
Proof.
  exact (usage_error_ends_run Cases.all_ok Examples.max_bits false
           [(OPT_ENGINE, "e1")] (o := OPT_INFORM) "XYZ" [(OPT_TEXT, "")] []
           eq_refl eq_refl (or_intror (conj (or_introl eq_refl) eq_refl))).
Defined.

(** [dsaparam -text -provider bad 512] *)
Lemma rand_or_provider_error_ends_run_witness :
  dsaparam_main Cases.all_ok Examples.max_bits false
    {| cl_opts := [(OPT_TEXT, "")] ++ (OPT_PROV_ENUM, "bad") :: [];
       cl_rest := ["512"] |}
  = (cleanup, Exit 1).
Proof.
  exact (rand_or_provider_error_ends_run Cases.all_ok Examples.max_bits
           false [(OPT_TEXT, "")] (o := OPT_PROV_ENUM) "bad" [] ["512"]
           eq_refl eq_refl (or_intror (conj eq_refl eq_refl))).
Defined.

(** [dsaparam -- -5] *)
Lemma bad_numbits_ends_run_witness :
  dsaparam_main Cases.all_ok Examples.max_bits false
    {| cl_opts := []; cl_rest := ["-5"] |}
  = (cleanup, Exit 1).
Proof.
  refine (bad_numbits_ends_run Cases.all_ok Examples.max_bits false
            {| cl_opts := []; cl_rest := ["-5"] |} (t0 := [])
            (a := "-5") eq_refl eq_refl _).
  right. exists (-5). split; reflexivity.
Defined.

(** [dsaparam 512 1024] *)
Lemma other_arity_loads_witness :
  filter is_generation
    (fst (dsaparam_main Cases.all_ok Examples.max_bits false
            {| cl_opts := []; cl_rest := ["512"; "1024"] |})) = []
  /\ filter is_input_read
       (fst (dsaparam_main Cases.all_ok Examples.max_bits false
               {| cl_opts := []; cl_rest := ["512"; "1024"] |}))
     = [Ev_PEM_read_bio_Parameters in_bio].
Proof.
  destruct (other_arity_loads Cases.all_ok Examples.max_bits false
              {| cl_opts := []; cl_rest := ["512"; "1024"] |} (t0 := [])
              eq_refl ltac:(discriminate)) as (_ & H1 & H2).
  split; [exact H1 | exact (H2 eq_refl)].
Defined.

(** ** What the accepted options leave in the locals *)

Section Locals.

Variable w : world.

(** One accepted option changes the one variable it names. *)
Lemma opt_case_fields o a l0 t l1 :
  opt_case w o a l0 = (t, Next l1) ->
  (text l1 = text l0 || OPTION_CHOICE_eqb o OPT_TEXT
   /\ C l1 = C l0 || OPTION_CHOICE_eqb o OPT_C
   /\ genkey l1 = genkey l0 || OPTION_CHOICE_eqb o OPT_GENKEY
   /\ noout l1 = noout l0 || OPTION_CHOICE_eqb o OPT_NOOUT
   /\ verbose l1 = verbose l0 || OPTION_CHOICE_eqb o OPT_VERBOSE)
  /\ (infile l1
      = (if OPTION_CHOICE_eqb o OPT_IN then Some a else infile l0)
      /\ outfile l1
         = (if OPTION_CHOICE_eqb o OPT_OUT then Some a else outfile l0)
      /\ engine l1
         = (if OPTION_CHOICE_eqb o OPT_ENGINE then Some a else engine l0))
  /\ (if OPTION_CHOICE_eqb o OPT_INFORM
      then opt_format w a = Some (informat l1)
      else informat l1 = informat l0)
  /\ (if OPTION_CHOICE_eqb o OPT_OUTFORM
      then opt_format w a = Some (outformat l1)
      else outformat l1 = outformat l0).
Proof.
  destruct o; simpl; unfold opthelp; unfold_monad; simpl;
    try discriminate;
    try (destruct (opt_format w a) eqn:Hf; try discriminate);
    try (destruct (opt_rand w a); try discriminate);
    try (destruct (opt_provider w a); try discriminate);
    intros H; inversion H; subst; simpl;
    rewrite ?orb_false_r, ?orb_true_r; auto 10.
Qed.

Lemma last_arg_Some o x opts : last_arg o (Some x) opts <> None.
Proof.
  revert x. induction opts as [| y opts IH]; intros x; simpl.
  - discriminate.
  - unfold last_arg in *. simpl.
    destruct (OPTION_CHOICE_eqb (fst y) o); apply IH.
Qed.

(** X6: after accepted options each flag is set exactly when its option
    occurs on the command line, however often and wherever; [verbose],
    being static, is also set when it was before the call. *)
Theorem flags_follow_options v opts t l :
  no_eof opts = true ->
  opt_loop w opts (locals_init v) = (t, Next l) ->
  text l = has_opt OPT_TEXT opts
  /\ C l = has_opt OPT_C opts
  /\ genkey l = has_opt OPT_GENKEY opts
  /\ noout l = has_opt OPT_NOOUT opts
  /\ verbose l = v || has_opt OPT_VERBOSE opts.
Proof.
  change (no_eof opts = true ->
          opt_loop w opts (locals_init v) = (t, Next l) ->
          text l = text (locals_init v) || has_opt OPT_TEXT opts
          /\ C l = C (locals_init v) || has_opt OPT_C opts
          /\ genkey l = genkey (locals_init v) || has_opt OPT_GENKEY opts
          /\ noout l = noout (locals_init v) || has_opt OPT_NOOUT opts
          /\ verbose l = verbose (locals_init v) || has_opt OPT_VERBOSE opts).
  generalize (locals_init v) as l0. revert t l.
  induction opts as [| [o a] opts IH]; intros t l l0 Hne H.
  - inversion H; subst. simpl. rewrite !orb_false_r. auto.
  - simpl in Hne. apply andb_true_iff in Hne as [Ho Hne].
    apply negb_true_iff in Ho. simpl in Ho.
    rewrite opt_loop_cons in H by trivial.
    destruct (opt_case w o a l0) as [tc [l1 | r | ]] eqn:Hc;
      simpl in H; try discriminate.
    destruct (opt_loop w opts l1) as [t' o'] eqn:Hl.
    inversion H; subst.
    destruct (opt_case_fields _ _ _ Hc) as [(F1 & F2 & F3 & F4 & F5) _].
    destruct (IH _ _ _ Hne Hl) as (G1 & G2 & G3 & G4 & G5).
    unfold has_opt in *. simpl existsb.
    rewrite G1, G2, G3, G4, G5, F1, F2, F3, F4, F5.
    rewrite !orb_assoc. auto.
Qed.

Lemma opt_loop_names opts : forall l0 t l,
  no_eof opts = true ->
  opt_loop w opts l0 = (t, Next l) ->
  infile l = last_arg OPT_IN (infile l0) opts
  /\ outfile l = last_arg OPT_OUT (outfile l0) opts
  /\ engine l = last_arg OPT_ENGINE (engine l0) opts.
Proof.
  induction opts as [| [o a] opts IH]; intros l0 t l Hne H.
  - inversion H; subst. auto.
  - simpl in Hne. apply andb_true_iff in Hne as [Ho Hne].
    apply negb_true_iff in Ho. simpl in Ho.
    rewrite opt_loop_cons in H by trivial.
    destruct (opt_case w o a l0) as [tc [l1 | r | ]] eqn:Hc;
      simpl in H; try discriminate.
    destruct (opt_loop w opts l1) as [t' o'] eqn:Hl.
    inversion H; subst.
    destruct (opt_case_fields _ _ _ Hc) as (_ & (F1 & F2 & F3) & _).
    destruct (IH _ _ _ Hne Hl) as (G1 & G2 & G3).
    unfold last_arg in *. simpl fold_left.
    now rewrite G1, G2, G3, F1, F2, F3.
Qed.

Lemma opt_loop_informat opts : forall l0 t l d,
  no_eof opts = true ->
  opt_loop w opts l0 = (t, Next l) ->
  match d with
  | None => True
  | Some a => opt_format w a = Some (informat l0)
  end ->
  match last_arg OPT_INFORM d opts with
  | None => informat l = informat l0
  | Some a => opt_format w a = Some (informat l)
  end.
Proof.
  induction opts as [| [o a] opts IH]; intros l0 t l d Hne H Hd.
  - inversion H; subst. unfold last_arg. simpl. now destruct d.
  - simpl in Hne. apply andb_true_iff in Hne as [Ho Hne].
    apply negb_true_iff in Ho. simpl in Ho.
    rewrite opt_loop_cons in H by trivial.
    destruct (opt_case w o a l0) as [tc [l1 | r | ]] eqn:Hc;
      simpl in H; try discriminate.
    destruct (opt_loop w opts l1) as [t' o'] eqn:Hl.
    inversion H; subst.
    destruct (opt_case_fields _ _ _ Hc) as (_ & _ & F & _).
    change (last_arg OPT_INFORM d ((o, a) :: opts))
      with (last_arg OPT_INFORM
              (if OPTION_CHOICE_eqb o OPT_INFORM then Some a else d) opts).
    destruct (OPTION_CHOICE_eqb o OPT_INFORM).
    + pose proof (IH l1 _ _ (Some a) Hne Hl F) as R.
      destruct (last_arg OPT_INFORM (Some a) opts) eqn:E; trivial.
      now elim (last_arg_Some _ _ _ E).
    + assert (Hd1 : match d with
                    | None => True
                    | Some a0 => opt_format w a0 = Some (informat l1)
                    end) by (destruct d; trivial; congruence).
      pose proof (IH l1 _ _ d Hne Hl Hd1) as R.
      destruct (last_arg OPT_INFORM d opts); congruence.
Qed.

Lemma opt_loop_outformat opts : forall l0 t l d,
  no_eof opts = true ->
  opt_loop w opts l0 = (t, Next l) ->
  match d with
  | None => True
  | Some a => opt_format w a = Some (outformat l0)
  end ->
  match last_arg OPT_OUTFORM d opts with
  | None => outformat l = outformat l0
  | Some a => opt_format w a = Some (outformat l)
  end.
Proof.
  induction opts as [| [o a] opts IH]; intros l0 t l d Hne H Hd.
  - inversion H; subst. unfold last_arg. simpl. now destruct d.
  - simpl in Hne. apply andb_true_iff in Hne as [Ho Hne].
    apply negb_true_iff in Ho. simpl in Ho.
    rewrite opt_loop_cons in H by trivial.
    destruct (opt_case w o a l0) as [tc [l1 | r | ]] eqn:Hc;
      simpl in H; try discriminate.
    destruct (opt_loop w opts l1) as [t' o'] eqn:Hl.
    inversion H; subst.
    destruct (opt_case_fields _ _ _ Hc) as (_ & _ & _ & F).
    change (last_arg OPT_OUTFORM d ((o, a) :: opts))
      with (last_arg OPT_OUTFORM
              (if OPTION_CHOICE_eqb o OPT_OUTFORM then Some a else d) opts).
    destruct (OPTION_CHOICE_eqb o OPT_OUTFORM).
    + pose proof (IH l1 _ _ (Some a) Hne Hl F) as R.
      destruct (last_arg OPT_OUTFORM (Some a) opts) eqn:E; trivial.
      now elim (last_arg_Some _ _ _ E).
    + assert (Hd1 : match d with
                    | None => True
                    | Some a0 => opt_format w a0 = Some (outformat l1)
                    end) by (destruct d; trivial; congruence).
      pose proof (IH l1 _ _ d Hne Hl Hd1) as R.
      destruct (last_arg OPT_OUTFORM d opts); congruence.
Qed.

(** X7: of repeated [-in], [-out], [-engine], [-inform] and [-outform]
    options the last one wins.  After accepted options [infile],
    [outfile] and the engine name are the argument of the last
    occurrence, or unset without one; each format is what [opt_format]
    makes of the last argument given for it, or PEM without one. *)
Theorem last_option_wins v opts t l :
  no_eof opts = true ->
  opt_loop w opts (locals_init v) = (t, Next l) ->
  infile l = last_arg OPT_IN None opts
  /\ outfile l = last_arg OPT_OUT None opts
  /\ engine l = last_arg OPT_ENGINE None opts
  /\ match last_arg OPT_INFORM None opts with
     | None => informat l = FORMAT_PEM
     | Some a => opt_format w a = Some (informat l)
     end
  /\ match last_arg OPT_OUTFORM None opts with
     | None => outformat l = FORMAT_PEM
     | Some a => opt_format w a = Some (outformat l)
     end.
Proof.
  intros Hne H.
  destruct (@opt_loop_names opts _ _ _ Hne H) as (H1 & H2 & H3).
  repeat split; trivial.
  - exact (@opt_loop_informat opts _ _ _ None Hne H I).
  - exact (@opt_loop_outformat opts _ _ _ None Hne H I).
Qed.

End Locals.

(** [dsaparam -in a.pem -text -in b.pem -inform DER -engine e1] *)
Lemma flags_follow_options_witness :
  text Cases.locals_mixed = true /\ C Cases.locals_mixed = false
  /\ genkey Cases.locals_mixed = false /\ noout Cases.locals_mixed = false
  /\ verbose Cases.locals_mixed = false.
Proof.
  exact (flags_follow_options Examples.world_ok false Cases.opts_mixed
           (t := [Ev_setup_engine "e1"]) (l := Cases.locals_mixed)
           eq_refl eq_refl).
Defined.

Lemma last_option_wins_witness :
  infile Cases.locals_mixed = Some "b.pem"
  /\ outfile Cases.locals_mixed = None
  /\ engine Cases.locals_mixed = Some "e1"
  /\ opt_format Examples.world_ok "DER"
     = Some (informat Cases.locals_mixed)
  /\ outformat Cases.locals_mixed = FORMAT_PEM.
Proof.
  exact (last_option_wins Examples.world_ok false Cases.opts_mixed
           (t := [Ev_setup_engine "e1"]) (l := Cases.locals_mixed)
           eq_refl eq_refl).
Defined.

(** ** Both sources on one command line *)

Section BothSources.

Variable w : world.
Variable MAX : Z.

(** An option that occurs has a last occurrence. *)
Lemma has_opt_last_arg o opts : forall d,
  has_opt o opts = true -> last_arg o d opts <> None.
Proof.
  induction opts as [| x opts IH]; intros d; [discriminate |].
  unfold has_opt, last_arg in *. simpl.
  destruct (OPTION_CHOICE_eqb (fst x) o); simpl.
  - intros _. apply (@last_arg_Some o (snd x) opts).
  - apply IH.
Qed.


End BothSources.


(** ** How a run ends, and the streams *)

Section Ending.

Variable w : world.
Variable MAX : Z.

Lemma options_outcome v cl :
  (exists x, snd (options w v cl) = Next x)
  \/ snd (options w v cl) = GotoEnd 0
  \/ snd (options w v cl) = GotoEnd 1.
Proof.
  unfold options. rewrite mbind_snd.
  destruct (opt_loop w (cl_opts cl) (locals_init v)) as [t o] eqn:Hl.
  destruct (opt_loop_outcome w _ _ Hl) as [[l ->] | [-> | ->]]; simpl; auto.
  rewrite mbind_snd.
  destruct (cl_rest cl) as [| a [| b rest]]; simpl; eauto.
  destruct (opt_int w a) as [n |]; simpl; auto.
  destruct (n <? 0); simpl; eauto.
Qed.

Lemma options_trace_events v cl :
  forallb is_opt_event (fst (options w v cl)) = true.
Proof.
  unfold options. apply forallb_mbind; [apply opt_loop_events |].
  intros l. apply forallb_mbind.
  - now rewrite read_numbits_trace.
  - reflexivity.
Qed.

(** X1: every call of [dsaparam_main] returns, and returns 0 or 1: the
    [assert] of line 274 cannot fail, whatever the command line and
    whatever the callees do. *)
Theorem exit_code_is_0_or_1 v cl :
  snd (dsaparam_main w MAX v cl) = Exit 0
  \/ snd (dsaparam_main w MAX v cl) = Exit 1.
Proof.
  destruct (options w v cl) as [t0 o] eqn:H.
  pose proof (options_outcome v cl) as Ho. rewrite H in Ho. simpl in Ho.
  destruct Ho as [[[l [numbits num]] ->] | [-> | ->]].
  - rewrite (main_accepted_exit w MAX v cl H).
    destruct (checked_stages_ok w l numbits); auto.
  - rewrite (main_refused w MAX v cl H). auto.
  - rewrite (main_refused w MAX v cl H). auto.
Qed.

Lemma stages_release l numbits num :
  filter is_release (fst (stages w MAX l numbits num)) = [].
Proof.
  rewrite stages_trace, filter_app.
  rewrite (filter_none is_release is_setup_event _
             (open_streams_events w l _)) by classify.
  destruct (streams_ok w l); trivial.
  rewrite filter_app, resolve_renders_nothing by classify.
  destruct (snd (resolve w MAX l numbits num)); trivial.
  apply filter_none with (Q := is_render_event); [| classify].
  apply render_events.
Qed.

(** X2: on every path the run ends with the six release calls of the
    label [end], in their order, and before them no stream, key or
    engine is released: each of these is released exactly once, also
    when a stage has failed or the options were refused. *)
Theorem cleanup_exactly_once v cl :
  exists t,
    fst (dsaparam_main w MAX v cl) = (t ++ cleanup)%list
    /\ filter is_release t = []
    /\ filter is_release (fst (dsaparam_main w MAX v cl))
       = [Ev_BIO_free in_bio; Ev_BIO_free_all out_bio;
          Ev_EVP_PKEY_free_pkey; Ev_EVP_PKEY_free_params;
          Ev_release_engine].
Proof.
  assert (Hgoal : exists t,
            fst (dsaparam_main w MAX v cl) = (t ++ cleanup)%list
            /\ filter is_release t = []).
  { destruct (options w v cl) as [t0 o] eqn:H.
    pose proof (options_outcome v cl) as Ho.
    pose proof (options_trace_events v cl) as He.
    rewrite H in Ho, He. simpl in Ho, He.
    assert (Ht0 : filter is_release t0 = [])
      by (apply filter_none with (Q := is_opt_event); [trivial | classify]).
    destruct Ho as [[[l [numbits num]] ->] | [-> | ->]].
    - exists (t0 ++ fst (stages w MAX l numbits num))%list. split.
      + rewrite (main_accepted_trace w MAX v cl H). now rewrite app_assoc.
      + now rewrite filter_app, Ht0, stages_release.
    - exists t0. now rewrite (main_refused w MAX v cl H).
    - exists t0. now rewrite (main_refused w MAX v cl H). }
  destruct Hgoal as (t & Ht & Hr). exists t. repeat split; trivial.
  now rewrite Ht, filter_app, Hr.
Qed.

(** X10: the input stream is opened first, then the output stream, then
    the generation context is allocated.  A failure of the first ends the
    run with exit code 1 before the output is opened; a failure of the
    second ends it before the context is asked for; [dsaparam_main]
    prints nothing for either.  A failed allocation is reported on
    [bio_err].  In no case is anything read, generated or rendered. *)
Theorem stream_failure_ends_run v cl t0 l numbits num :
  options w v cl = (t0, Next (l, (numbits, num))) ->
  let open_in := Ev_bio_open_default (infile l) "r"%char (informat l) in
  let open_out := Ev_bio_open_owner (outfile l) (outformat l) (genkey l) in
  (bio_open_default w (infile l) (informat l) = false ->
   dsaparam_main w MAX v cl = ((t0 ++ [open_in] ++ cleanup)%list, Exit 1))
  /\ (bio_open_default w (infile l) (informat l) = true ->
      bio_open_owner w (outfile l) (outformat l) (genkey l) = false ->
      dsaparam_main w MAX v cl
      = ((t0 ++ [open_in; open_out] ++ cleanup)%list, Exit 1))
  /\ (bio_open_default w (infile l) (informat l) = true ->
      bio_open_owner w (outfile l) (outformat l) (genkey l) = true ->
      EVP_PKEY_CTX_new_from_name w = false ->
      dsaparam_main w MAX v cl
      = ((t0 ++ [open_in; open_out; Ev_CTX_new_from_name;
                 Ev_ERR_print_errors bio_err;
                 Ev_BIO_printf bio_err
                   ("Error, DSA parameter generation context allocation failed"
                    ++ nl)] ++ cleanup)%list, Exit 1)).
Proof.
  intros H open_in open_out.
  assert (Hmain : streams_ok w l = false ->
            dsaparam_main w MAX v cl =
            ((t0 ++ fst (open_streams w l (if genkey l then true else false))
                 ++ cleanup)%list, Exit 1)).
  { intros Hs. rewrite (surjective_pairing (dsaparam_main w MAX v cl)).
    rewrite (main_accepted_trace w MAX v cl H).
    rewrite (main_accepted_exit w MAX v cl H).
    unfold checked_stages_ok. rewrite stages_trace, Hs.
    now rewrite app_nil_r. }
  subst open_in open_out. unfold streams_ok in Hmain.
  split; [| split].
  - intros Hin. rewrite Hmain by (now rewrite Hin).
    unfold open_streams. unfold_monad. rewrite Hin.
    destruct (genkey l); reflexivity.
  - intros Hin Hout. rewrite Hmain by (now rewrite Hin, Hout).
    unfold open_streams. unfold_monad. rewrite Hin.
    destruct (genkey l); rewrite Hout; reflexivity.
  - intros Hin Hout Hctx.
    rewrite Hmain by (now rewrite Hin, Hout, Hctx).
    unfold open_streams. unfold_monad. rewrite Hin.
    destruct (genkey l); rewrite Hout, Hctx; reflexivity.
Qed.

(** X11: the output stream is opened at most once, after the input
    stream, under the name and format given for it, and in private mode
    exactly when [genkey] is set; it is opened even when nothing will be
    written to it. *)
Theorem output_opened_private_iff_genkey v cl t0 l numbits num :
  options w v cl = (t0, Next (l, (numbits, num))) ->
  filter is_open (fst (dsaparam_main w MAX v cl)) =
  Ev_bio_open_default (infile l) "r"%char (informat l)
  :: (if bio_open_default w (infile l) (informat l)
      then [Ev_bio_open_owner (outfile l) (outformat l) (genkey l)]
      else []).
Proof.
  intros H.
  rewrite (main_accepted_trace w MAX v cl H), stages_trace, !filter_app.
  rewrite (filter_none is_open is_engine_event t0
             (accepted_events w v cl H)) by classify.
  assert (Hrest : filter is_open
            (if streams_ok w l
             then (fst (resolve w MAX l numbits num)
                   ++ match snd (resolve w MAX l numbits num) with
                      | Next params =>
                          fst (render w l (if genkey l then true else false)
                                 params)
                      | _ => []
                      end)%list
             else []) = []).
  { destruct (streams_ok w l); trivial.
    rewrite filter_app, resolve_renders_nothing by classify.
    destruct (snd (resolve w MAX l numbits num)); trivial.
    apply filter_none with (Q := is_render_event); [| classify].
    apply render_events. }
  rewrite Hrest. simpl. rewrite !app_nil_r.
  unfold open_streams. unfold_monad.
  destruct (genkey l); case_world; reflexivity.
Qed.

End Ending.

(** [dsaparam -in in.pem 512] when the input file cannot be opened. *)
Lemma stream_failure_ends_run_witness :
  dsaparam_main
    (Cases.world_of false true true 1 1 Cases.good_gen None 1 true 1
       Cases.good_key 1)
    Examples.max_bits false Examples.cl_in_and_bits
  = ([Ev_bio_open_default (Some "in.pem") "r"%char FORMAT_PEM] ++ cleanup,
     Exit 1)%list.
Proof.
  exact (proj1 (stream_failure_ends_run
                  (Cases.world_of false true true 1 1 Cases.good_gen None 1
                     true 1 Cases.good_key 1)
                  Examples.max_bits false Examples.cl_in_and_bits
                  (t0 := []) eq_refl) eq_refl).
Defined.

(** [dsaparam -genkey -in in.pem] *)
Lemma output_opened_private_iff_genkey_witness :
  filter is_open
    (fst (dsaparam_main Cases.all_ok Examples.max_bits false
            Cases.cl_genkey_pem))
  = [Ev_bio_open_default (Some "in.pem") "r"%char FORMAT_PEM;
     Ev_bio_open_owner None FORMAT_PEM true].
Proof.
  exact (output_opened_private_iff_genkey Cases.all_ok Examples.max_bits
           false Cases.cl_genkey_pem (t0 := []) eq_refl).
Defined.

(** ** Failures of generation *)

Lemma paramgen_callbacks_filter (P : event -> bool) v signals :
  (forall e, is_progress e = true -> P e = false) ->
  filter P (paramgen_callbacks v bio_err signals) = [].
Proof.
  intros HP. apply filter_none with (Q := is_progress); trivial.
  apply paramgen_callbacks_events.
Qed.

Local Opaque last.

Section GenerationFailure.

Variable w : world.
Variable MAX : Z.

(** What a classifier that ignores the option loop, the three calls that
    set the streams up and the cleanup sees of a run that got its
    streams. *)
Lemma run_filter_streams_ok (P : event -> bool) v cl t0 l numbits num :
  options w v cl = (t0, Next (l, (numbits, num))) ->
  streams_ok w l = true ->
  (forall e, is_engine_event e = true -> P e = false) ->
  (forall e, is_open e = true -> P e = false) ->
  P Ev_CTX_new_from_name = false ->
  filter P cleanup = [] ->
  filter P (fst (dsaparam_main w MAX v cl)) =
  (filter P (fst (resolve w MAX l numbits num))
   ++ match snd (resolve w MAX l numbits num) with
      | Next params =>
          filter P
            (fst (render w l (if genkey l then true else false) params))
      | _ => []
      end)%list.
Proof.
  intros H Hs Heng Hopen Hctx Hclean.
  rewrite (main_accepted_trace w MAX v cl H), stages_trace, Hs.
  rewrite streams_ok_trace by trivial.
  rewrite !filter_app, Hclean, app_nil_r.
  rewrite (filter_none P is_engine_event t0 (accepted_events w v cl H) Heng).
  simpl. rewrite !Hopen, Hctx by reflexivity.
  now destruct (snd (resolve w MAX l numbits num)).
Qed.

(** A run that gets no parameters returns 1 and neither renders anything
    nor takes a step of key derivation. *)
Lemma unresolved_run v cl t0 l numbits num :
  options w v cl = (t0, Next (l, (numbits, num))) ->
  resolved w l numbits = None ->
  snd (dsaparam_main w MAX v cl) = Exit 1
  /\ filter is_rendering (fst (dsaparam_main w MAX v cl)) = []
  /\ filter is_keygen_step (fst (dsaparam_main w MAX v cl)) = [].
Proof.
  intros H Hr.
  pose proof (accepted_num w v cl H) as Hnum.
  pose proof (resolve_outcome w MAX l Hnum) as Ho. rewrite Hr in Ho.
  split; [| split].
  - rewrite (main_accepted_exit w MAX v cl H). unfold checked_stages_ok.
    rewrite Hr. now destruct (streams_ok w l).
  - rewrite (run_filter w MAX is_rendering v cl H) by classify.
    rewrite Ho, app_nil_r. destruct (streams_ok w l); trivial.
    apply resolve_renders_nothing; classify.
  - rewrite (run_filter w MAX is_keygen_step v cl H) by classify.
    rewrite Ho, app_nil_r. destruct (streams_ok w l); trivial.
    apply resolve_renders_nothing; classify.
Qed.

(** X12: generation has three calls that can fail, and each failure ends
    the run with exit code 1, its own last message on [bio_err], and
    without the later calls: a failed [EVP_PKEY_paramgen_init] (result
    not positive) before the bit length is set, a failed
    [EVP_PKEY_CTX_set_dsa_paramgen_bits] (result 0) before the search is
    started, and a failed [EVP_PKEY_paramgen] (result not positive) after
    it.  Nothing is rendered and no key is derived. *)
Theorem generation_failure v cl t0 l numbits num :
  options w v cl = (t0, Next (l, (numbits, num))) ->
  0 < numbits ->
  streams_ok w l = true ->
  let tr := fst (dsaparam_main w MAX v cl) in
  let last_message :=
    last (filter is_diagnostic tr) Ev_opt_help in
  (EVP_PKEY_paramgen_init w <= 0 ->
   snd (dsaparam_main w MAX v cl) = Exit 1
   /\ filter is_rendering tr = []
   /\ filter is_generation tr = [Ev_CTX_set_cb; Ev_paramgen_init]
   /\ last_message =
      Ev_BIO_printf bio_err
        ("Error, DSA key generation paramgen init failed" ++ nl))
  /\ (0 < EVP_PKEY_paramgen_init w ->
      EVP_PKEY_CTX_set_dsa_paramgen_bits w numbits = 0 ->
      snd (dsaparam_main w MAX v cl) = Exit 1
      /\ filter is_rendering tr = []
      /\ filter is_generation tr
         = [Ev_CTX_set_cb; Ev_paramgen_init;
            Ev_CTX_set_dsa_paramgen_bits numbits]
      /\ last_message =
         Ev_BIO_printf bio_err
           ("Error, DSA key generation setting bit length failed" ++ nl))
  /\ (0 < EVP_PKEY_paramgen_init w ->
      EVP_PKEY_CTX_set_dsa_paramgen_bits w numbits <> 0 ->
      snd (fst (EVP_PKEY_paramgen w numbits)) <= 0 ->
      snd (dsaparam_main w MAX v cl) = Exit 1
      /\ filter is_rendering tr = []
      /\ filter is_generation tr
         = [Ev_CTX_set_cb; Ev_paramgen_init;
            Ev_CTX_set_dsa_paramgen_bits numbits; Ev_paramgen numbits]
      /\ last_message =
         Ev_BIO_printf bio_err ("Error, DSA key generation failed" ++ nl)).
Proof.
  intros H Hpos Hs tr last_message. subst tr last_message.
  pose proof (accepted_num w v cl H Hpos) as Hnum. subst num.
  assert (Hgo : resolved w l numbits = None ->
            snd (resolve w MAX l numbits numbits) = GotoEnd 1).
  { intros Hr. rewrite resolve_outcome by trivial. now rewrite Hr. }
  assert (Hfilter : forall P,
            (forall e, is_engine_event e = true -> P e = false) ->
            (forall e, is_open e = true -> P e = false) ->
            P Ev_CTX_new_from_name = false ->
            filter P cleanup = [] ->
            resolved w l numbits = None ->
            filter P (fst (dsaparam_main w MAX v cl))
            = filter P (fst (resolve w MAX l numbits numbits))).
  { intros P H1 H2 H3 H4 Hr.
    rewrite (run_filter_streams_ok P v cl H Hs H1 H2 H3 H4).
    now rewrite (Hgo Hr), app_nil_r. }
  assert (Hcb1 := paramgen_callbacks_filter is_generation).
  assert (Hcb2 := paramgen_callbacks_filter is_diagnostic).
  pose proof Hpos as Hpos'. apply Z.ltb_lt in Hpos'.
  split; [| split].
  - intros Hinit.
    assert (Hr : resolved w l numbits = None).
    { unfold resolved. rewrite Hpos'.
      apply Z.ltb_ge in Hinit. now rewrite Hinit. }
    destruct (unresolved_run v cl H Hr) as (E1 & E2 & _).
    repeat split; trivial; rewrite Hfilter by (trivial; classify);
      unfold resolve, generate; unfold_monad; rewrite Hpos';
      apply Z.leb_le in Hinit; rewrite Hinit;
      case_world; reflexivity.
  - intros Hinit Hbits.
    assert (Hr : resolved w l numbits = None).
    { unfold resolved. rewrite Hpos', Hbits.
      now rewrite andb_false_r. }
    destruct (unresolved_run v cl H Hr) as (E1 & E2 & _).
    repeat split; trivial; rewrite Hfilter by (trivial; classify);
      unfold resolve, generate; unfold_monad; rewrite Hpos', Hbits;
      apply Z.leb_gt in Hinit; rewrite Hinit;
      case_world; reflexivity.
  - intros Hinit Hbits Hrc.
    assert (Hr : resolved w l numbits = None).
    { unfold resolved. rewrite Hpos'.
      apply Z.ltb_ge in Hrc. now rewrite Hrc, andb_false_r. }
    destruct (unresolved_run v cl H Hr) as (E1 & E2 & _).
    apply Z.eqb_neq in Hbits. apply Z.leb_gt in Hinit.
    apply Z.leb_le in Hrc.
    repeat split; trivial; rewrite Hfilter by (trivial; classify);
      unfold resolve, generate; unfold_monad; rewrite Hpos', Hbits, Hinit;
      destruct (EVP_PKEY_paramgen w numbits) as [[signals rc] params];
      simpl in Hrc; rewrite Hrc;
      case_world;
      rewrite ?app_nil_r, ?filter_app, ?Hcb1, ?Hcb2 by classify;
      reflexivity.
Qed.

(** X13: when [EVP_PKEY_paramgen] reports success but stores no
    parameters, the run fails like a failed load: its last message is
    "unable to load DSA parameters", although nothing was loaded, and it
    returns 1 without rendering anything. *)
Theorem generation_without_parameters v cl t0 l numbits num :
  options w v cl = (t0, Next (l, (numbits, num))) ->
  0 < numbits ->
  streams_ok w l = true ->
  0 < EVP_PKEY_paramgen_init w ->
  EVP_PKEY_CTX_set_dsa_paramgen_bits w numbits <> 0 ->
  0 < snd (fst (EVP_PKEY_paramgen w numbits)) ->
  snd (EVP_PKEY_paramgen w numbits) = None ->
  snd (dsaparam_main w MAX v cl) = Exit 1
  /\ filter is_rendering (fst (dsaparam_main w MAX v cl)) = []
  /\ filter is_input_read (fst (dsaparam_main w MAX v cl)) = []
  /\ last (filter is_diagnostic (fst (dsaparam_main w MAX v cl)))
       Ev_opt_help
     = Ev_BIO_printf bio_err ("unable to load DSA parameters" ++ nl).
Proof.
  intros H Hpos Hs Hinit Hbits Hrc Hnone.
  pose proof (accepted_num w v cl H Hpos) as Hnum. subst num.
  pose proof Hpos as Hpos'. apply Z.ltb_lt in Hpos'.
  assert (Hr : resolved w l numbits = None).
  { unfold resolved. rewrite Hpos', Hnone. now destruct (_ && _). }
  destruct (unresolved_run v cl H Hr) as (E1 & E2 & _).
  split; [exact E1 | split; [exact E2 | split]].
  - eapply generate_never_reads; eauto.
  - rewrite (run_filter_streams_ok is_diagnostic v cl H Hs)
      by (trivial; classify).
    rewrite resolve_outcome, Hr, app_nil_r by trivial.
    assert (Hcb := paramgen_callbacks_filter is_diagnostic).
    apply Z.eqb_neq in Hbits. apply Z.leb_gt in Hinit.
    apply Z.leb_gt in Hrc.
    unfold resolve, generate; unfold_monad; rewrite Hpos', Hbits, Hinit.
    destruct (EVP_PKEY_paramgen w numbits) as [[signals rc] params].
    simpl in Hrc, Hnone. rewrite Hrc. subst params.
    case_world; rewrite ?app_nil_r, ?filter_app, ?Hcb by classify;
      reflexivity.
Qed.

End GenerationFailure.

Local Transparent last.

(** [dsaparam -verbose 512] when [EVP_PKEY_paramgen] returns 0. *)
Lemma generation_failure_witness :
  snd (dsaparam_main
         (Cases.world_of true true true 1 1 ([0; 1], 0, None) None 1 true 1
            Cases.good_key 1)
         Examples.max_bits false Cases.cl_verbose_512) = Exit 1
  /\ filter is_generation
       (fst (dsaparam_main
               (Cases.world_of true true true 1 1 ([0; 1], 0, None) None 1
                  true 1 Cases.good_key 1)
               Examples.max_bits false Cases.cl_verbose_512))
     = [Ev_CTX_set_cb; Ev_paramgen_init;
        Ev_CTX_set_dsa_paramgen_bits 512; Ev_paramgen 512]
  /\ last
       (filter is_diagnostic
          (fst (dsaparam_main
                  (Cases.world_of true true true 1 1 ([0; 1], 0, None) None
                     1 true 1 Cases.good_key 1)
                  Examples.max_bits false Cases.cl_verbose_512)))
       Ev_opt_help
     = Ev_BIO_printf bio_err ("Error, DSA key generation failed" ++ nl).
Proof.
  destruct (generation_failure
              (Cases.world_of true true true 1 1 ([0; 1], 0, None) None 1
                 true 1 Cases.good_key 1)
              Examples.max_bits false Cases.cl_verbose_512 (t0 := [])
              eq_refl eq_refl eq_refl) as (_ & _ & Hgen).
  destruct (Hgen eq_refl ltac:(discriminate) ltac:(discriminate))
    as (H1 & _ & H3 & H4).
  split; [exact H1 | split; [exact H3 | exact H4]].
Defined.

(** [dsaparam 512] when [EVP_PKEY_paramgen] returns 1 and stores
    nothing. *)
Lemma generation_without_parameters_witness :
  snd (dsaparam_main
         (Cases.world_of true true true 1 1 ([], 1, None) None 1 true 1
            Cases.good_key 1)
         Examples.max_bits false Cases.cl_512) = Exit 1
  /\ last
       (filter is_diagnostic
          (fst (dsaparam_main
                  (Cases.world_of true true true 1 1 ([], 1, None) None 1
                     true 1 Cases.good_key 1)
                  Examples.max_bits false Cases.cl_512)))
       Ev_opt_help
     = Ev_BIO_printf bio_err ("unable to load DSA parameters" ++ nl).
Proof.
  destruct (generation_without_parameters
              (Cases.world_of true true true 1 1 ([], 1, None) None 1 true 1
                 Cases.good_key 1)
              Examples.max_bits false Cases.cl_512 (t0 := [])
              eq_refl eq_refl eq_refl eq_refl ltac:(discriminate) eq_refl
              eq_refl) as (H1 & _ & _ & H4).
  split; [exact H1 | exact H4].
Defined.

(** ** Records, and failures after the parameters are resolved *)

Local Opaque last.

Section Records.

Variable w : world.
Variable MAX : Z.

Lemma resolved_of_resolve v cl t0 l numbits num params :
  options w v cl = (t0, Next (l, (numbits, num))) ->
  snd (resolve w MAX l numbits num) = Next params ->
  resolved w l numbits = Some params.
Proof.
  intros H Hres. pose proof (accepted_num w v cl H) as Hnum.
  rewrite (resolve_outcome w MAX l Hnum) in Hres.
  destruct (resolved w l numbits); congruence.
Qed.

Lemma records_of_parts l params :
  filter is_record
    (text_part l params ++ fragment_part l params
     ++ records_part w l params)%list
  = records_part w l params.
Proof.
  rewrite !filter_app.
  assert (H1 : filter is_record (text_part l params) = [])
    by (unfold text_part; destruct (text l); reflexivity).
  assert (H2 : filter is_record (fragment_part l params) = [])
    by (unfold fragment_part; destruct (C l); reflexivity).
  rewrite H1, H2. simpl.
  unfold records_part, key_part, params_record, key_record.
  destruct (outformat l); case_world; reflexivity.
Qed.

(** X15: a run that returns 0 has written these records and no others,
    in this order: the parameters, unless [-noout] was given or the key
    is to be written in DER; then the private key, when [-genkey] was
    given.  With [-genkey] and PEM both are written to the same
    stream. *)
Theorem records_of_successful_run v cl t0 l numbits num :
  options w v cl = (t0, Next (l, (numbits, num))) ->
  snd (dsaparam_main w MAX v cl) = Exit 0 ->
  exists params,
    snd (resolve w MAX l numbits num) = Next params
    /\ filter is_record (fst (dsaparam_main w MAX v cl))
       = ((if suppressed l then [] else [params_record l params])
          ++ (if genkey l
              then [key_record l (snd (EVP_PKEY_keygen w params))]
              else []))%list.
Proof.
  intros H Hexit.
  rewrite (main_accepted_exit w MAX v cl H) in Hexit.
  destruct (checked_stages_ok w l numbits) eqn:Hok; [| discriminate].
  unfold checked_stages_ok in Hok.
  apply andb_true_iff in Hok as [Hs Hok].
  destruct (resolved w l numbits) as [params |] eqn:Hr; [| discriminate].
  apply andb_true_iff in Hok as [Hw Hkey].
  assert (Hres : snd (resolve w MAX l numbits num) = Next params).
  { pose proof (accepted_num w v cl H) as Hnum.
    rewrite (resolve_outcome w MAX l Hnum). now rewrite Hr. }
  exists params. split; [exact Hres |].
  rewrite (filter_record_rendering is_record) by classify.
  rewrite (run_renderings w MAX v cl H Hs Hres), records_of_parts.
  unfold records_part, key_part. unfold params_written in Hw.
  destruct (suppressed l); simpl in Hw.
  - destruct (genkey l); simpl in *; [now rewrite Hkey | trivial].
  - apply negb_true_iff in Hw. rewrite Hw.
    destruct (genkey l); simpl in *; [now rewrite Hkey | trivial].
Qed.

Lemma render_after_failed_write l private params :
  suppressed l = false ->
  params_write w l params = 0 ->
  filter is_keygen_step (fst (render w l private params)) = []
  /\ filter is_diagnostic (fst (render w l private params))
     = [Ev_BIO_printf bio_err ("unable to write DSA parameters" ++ nl)].
Proof.
  unfold suppressed, params_write, render, write_params, derive_key.
  unfold_monad.
  destruct (outformat l); case_world; intros Hs Hw;
    try discriminate; try (rewrite Hw in *; discriminate);
    split; reflexivity.
Qed.

(** X16: when the write of the serialized parameters returns 0 the run
    stops there: its last message is "unable to write DSA parameters",
    it returns 1, and although [-genkey] may have been given no step of
    key derivation is taken and no key is written.  The text dump and
    the source-code fragment, if requested, have been written by
    then. *)
Theorem parameter_write_failure v cl t0 l numbits num params :
  options w v cl = (t0, Next (l, (numbits, num))) ->
  streams_ok w l = true ->
  snd (resolve w MAX l numbits num) = Next params ->
  suppressed l = false ->
  params_write w l params = 0 ->
  snd (dsaparam_main w MAX v cl) = Exit 1
  /\ filter is_rendering (fst (dsaparam_main w MAX v cl))
     = ((if text l then [Ev_print_params out_bio params] else [])
        ++ (if C l then C_block params else [])
        ++ [params_record l params])%list
  /\ filter is_keygen_step (fst (dsaparam_main w MAX v cl)) = []
  /\ last (filter is_diagnostic (fst (dsaparam_main w MAX v cl)))
       Ev_opt_help
     = Ev_BIO_printf bio_err ("unable to write DSA parameters" ++ nl).
Proof.
  intros H Hs Hres Hsup Hw.
  pose proof (resolved_of_resolve v cl H Hres) as Hr.
  destruct (render_after_failed_write l
              (if genkey l then true else false) params Hsup Hw)
    as [Hk Hd].
  split; [| split; [| split]].
  - rewrite (main_accepted_exit w MAX v cl H). unfold checked_stages_ok.
    rewrite Hs, Hr. unfold params_written. now rewrite Hsup, Hw.
  - rewrite (run_renderings w MAX v cl H Hs Hres).
    unfold text_part, fragment_part, records_part.
    now rewrite Hsup, Hw.
  - rewrite (run_filter_streams_ok w MAX is_keygen_step v cl H Hs)
      by (trivial; classify).
    rewrite Hres, Hk, resolve_renders_nothing by classify. reflexivity.
  - rewrite (run_filter_streams_ok w MAX is_diagnostic v cl H Hs)
      by (trivial; classify).
    rewrite Hres, Hd. apply last_last.
Qed.

(** X17: when key derivation fails the run returns 1, but what was
    rendered before stays written: the text dump, the source-code
    fragment and, unless suppressed, the serialized parameters.  No key
    record is written. *)
Theorem key_derivation_failure v cl t0 l numbits num params :
  options w v cl = (t0, Next (l, (numbits, num))) ->
  streams_ok w l = true ->
  snd (resolve w MAX l numbits num) = Next params ->
  params_written w l params = true ->
  genkey l = true ->
  key_derived w params = false ->
  snd (dsaparam_main w MAX v cl) = Exit 1
  /\ filter is_rendering (fst (dsaparam_main w MAX v cl))
     = ((if text l then [Ev_print_params out_bio params] else [])
        ++ (if C l then C_block params else [])
        ++ (if suppressed l then [] else [params_record l params]))%list.
Proof.
  intros H Hs Hres Hw Hg Hk.
  pose proof (resolved_of_resolve v cl H Hres) as Hr.
  split.
  - rewrite (main_accepted_exit w MAX v cl H). unfold checked_stages_ok.
    now rewrite Hs, Hr, Hw, Hg, Hk.
  - rewrite (run_renderings w MAX v cl H Hs Hres).
    unfold text_part, fragment_part, records_part, key_part.
    rewrite Hg, Hk. unfold params_written in Hw. simpl.
    destruct (suppressed l); trivial. simpl in Hw.
    apply negb_true_iff in Hw. now rewrite Hw.
Qed.

(** X14: the three calls of key derivation are tested for a NULL
    context and for a result of exactly 0.  Any other result of
    [EVP_PKEY_keygen_init] and [EVP_PKEY_keygen], a negative one
    included, lets the run go on: it writes whatever key was stored and,
    the write's result not being read, returns 0. *)
Theorem nonzero_keygen_result_passes v cl t0 l numbits num params :
  options w v cl = (t0, Next (l, (numbits, num))) ->
  streams_ok w l = true ->
  snd (resolve w MAX l numbits num) = Next params ->
  params_written w l params = true ->
  genkey l = true ->
  EVP_PKEY_CTX_new w params = true ->
  EVP_PKEY_keygen_init w <> 0 ->
  fst (EVP_PKEY_keygen w params) <> 0 ->
  snd (dsaparam_main w MAX v cl) = Exit 0
  /\ filter is_record (fst (dsaparam_main w MAX v cl))
     = ((if suppressed l then [] else [params_record l params])
        ++ [key_record l (snd (EVP_PKEY_keygen w params))])%list.
Proof.
  intros H Hs Hres Hw Hg Hctx Hinit Hkg.
  pose proof (resolved_of_resolve v cl H Hres) as Hr.
  assert (Hk : key_derived w params = true).
  { unfold key_derived. apply Z.eqb_neq in Hinit, Hkg.
    now rewrite Hctx, Hinit, Hkg. }
  assert (Hexit : snd (dsaparam_main w MAX v cl) = Exit 0).
  { rewrite (main_accepted_exit w MAX v cl H). unfold checked_stages_ok.
    now rewrite Hs, Hr, Hw, Hg, Hk. }
  split; [exact Hexit |].
  rewrite (filter_record_rendering is_record) by classify.
  rewrite (run_renderings w MAX v cl H Hs Hres), records_of_parts.
  unfold records_part, key_part. rewrite Hg, Hk. simpl.
  unfold params_written in Hw.
  destruct (suppressed l); trivial. simpl in Hw.
  apply negb_true_iff in Hw. now rewrite Hw.
Qed.

(** X21: [-noout] suppresses the serialized parameters and nothing else:
    the text dump, the source-code fragment and the private key are
    still produced when requested. *)
Theorem noout_suppresses_parameters_only v cl t0 l numbits num params :
  options w v cl = (t0, Next (l, (numbits, num))) ->
  streams_ok w l = true ->
  snd (resolve w MAX l numbits num) = Next params ->
  noout l = true ->
  filter is_params_record (fst (dsaparam_main w MAX v cl)) = []
  /\ filter is_rendering (fst (dsaparam_main w MAX v cl))
     = ((if text l then [Ev_print_params out_bio params] else [])
        ++ (if C l then C_block params else [])
        ++ (if genkey l && key_derived w params
            then [key_record l (snd (EVP_PKEY_keygen w params))]
            else []))%list.
Proof.
  intros H Hs Hres Hn.
  assert (Hsup : suppressed l = true)
    by (unfold suppressed; rewrite Hn; apply orb_true_r).
  assert (Hrend := run_renderings w MAX v cl H Hs Hres).
  split.
  - rewrite (filter_record_rendering is_params_record) by classify.
    rewrite Hrend, !filter_app.
    unfold text_part, fragment_part, records_part, key_part, key_record.
    rewrite Hsup.
    destruct (text l), (C l), (outformat l),
      (genkey l && key_derived w params); reflexivity.
  - rewrite Hrend. unfold text_part, fragment_part, records_part, key_part.
    now rewrite Hsup.
Qed.

End Records.

Local Transparent last.

(** [dsaparam -genkey -in in.pem], every callee succeeding. *)
Lemma records_of_successful_run_witness :
  exists params,
    snd (resolve Cases.all_ok Examples.max_bits
           (set_infile (Some "in.pem") (set_genkey true (locals_init false)))
           (-1) 0) = Next params
    /\ filter is_record
         (fst (dsaparam_main Cases.all_ok Examples.max_bits false
                 Cases.cl_genkey_pem))
       = [Ev_PEM_write_bio_Parameters out_bio params;
          Ev_PEM_write_bio_PrivateKey out_bio
            (snd (EVP_PKEY_keygen Cases.all_ok params))].
Proof.
  exact (records_of_successful_run Cases.all_ok Examples.max_bits false
           Cases.cl_genkey_pem (t0 := []) eq_refl eq_refl).
Defined.

(** [dsaparam -genkey -in in.pem] when the parameter write returns 0. *)
Lemma parameter_write_failure_witness :
  snd (dsaparam_main
         (Cases.world_of true true true 1 1 Cases.good_gen
            (Some Examples.the_params) 0 true 1 Cases.good_key 1)
         Examples.max_bits false Cases.cl_genkey_pem) = Exit 1
  /\ filter is_keygen_step
       (fst (dsaparam_main
               (Cases.world_of true true true 1 1 Cases.good_gen
                  (Some Examples.the_params) 0 true 1 Cases.good_key 1)
               Examples.max_bits false Cases.cl_genkey_pem)) = [].
Proof.
  destruct (parameter_write_failure
              (Cases.world_of true true true 1 1 Cases.good_gen
                 (Some Examples.the_params) 0 true 1 Cases.good_key 1)
              Examples.max_bits false Cases.cl_genkey_pem (t0 := [])
              (params := Examples.the_params)
              eq_refl eq_refl eq_refl eq_refl eq_refl) as (H1 & _ & H3 & _).
  split; [exact H1 | exact H3].
Defined.

(** [dsaparam -genkey -in in.pem] when [EVP_PKEY_keygen] returns 0. *)
Lemma key_derivation_failure_witness :
  snd (dsaparam_main
         (Cases.world_of true true true 1 1 Cases.good_gen
            (Some Examples.the_params) 1 true 1 (0, None) 1)
         Examples.max_bits false Cases.cl_genkey_pem) = Exit 1
  /\ filter is_rendering
       (fst (dsaparam_main
               (Cases.world_of true true true 1 1 Cases.good_gen
                  (Some Examples.the_params) 1 true 1 (0, None) 1)
               Examples.max_bits false Cases.cl_genkey_pem))
     = [Ev_PEM_write_bio_Parameters out_bio Examples.the_params].
Proof.
  exact (key_derivation_failure
           (Cases.world_of true true true 1 1 Cases.good_gen
              (Some Examples.the_params) 1 true 1 (0, None) 1)
           Examples.max_bits false Cases.cl_genkey_pem (t0 := [])
           (params := Examples.the_params)
           eq_refl eq_refl eq_refl eq_refl eq_refl eq_refl).
Defined.

(** [dsaparam -genkey -in in.pem] when [EVP_PKEY_keygen_init] and
    [EVP_PKEY_keygen] return -1 and no key is stored. *)
Lemma nonzero_keygen_result_passes_witness :
  snd (dsaparam_main
         (Cases.world_of true true true 1 1 Cases.good_gen
            (Some Examples.the_params) 1 true (-1) (-1, None) 1)
         Examples.max_bits false Cases.cl_genkey_pem) = Exit 0
  /\ filter is_record
       (fst (dsaparam_main
               (Cases.world_of true true true 1 1 Cases.good_gen
                  (Some Examples.the_params) 1 true (-1) (-1, None) 1)
               Examples.max_bits false Cases.cl_genkey_pem))
     = [Ev_PEM_write_bio_Parameters out_bio Examples.the_params;
        Ev_PEM_write_bio_PrivateKey out_bio None].
Proof.
  exact (nonzero_keygen_result_passes
           (Cases.world_of true true true 1 1 Cases.good_gen
              (Some Examples.the_params) 1 true (-1) (-1, None) 1)
           Examples.max_bits false Cases.cl_genkey_pem (t0 := [])
           (params := Examples.the_params)
           eq_refl eq_refl eq_refl eq_refl eq_refl eq_refl
           ltac:(discriminate) ltac:(discriminate)).
Defined.

(** [dsaparam -text -C -noout -genkey -in in.pem], every callee
    succeeding. *)
Lemma noout_suppresses_parameters_only_witness :
  filter is_params_record
    (fst (dsaparam_main Cases.all_ok Examples.max_bits false
            Cases.cl_noout_all)) = []
  /\ filter is_rendering
       (fst (dsaparam_main Cases.all_ok Examples.max_bits false
               Cases.cl_noout_all))
     = (Ev_print_params out_bio Examples.the_params
        :: C_block Examples.the_params
        ++ [Ev_PEM_write_bio_PrivateKey out_bio (Some Examples.the_key)])%list.
Proof.
  exact (noout_suppresses_parameters_only Cases.all_ok Examples.max_bits
           false Cases.cl_noout_all (t0 := [])
           (params := Examples.the_params)
           eq_refl eq_refl eq_refl eq_refl).
Defined.

(** ** Verbosity and the ceiling *)

Local Transparent paramgen_callbacks.

Lemma paramgen_callbacks_verbose signals :
  paramgen_callbacks true bio_err signals = progress_events signals.
Proof.
  induction signals as [| p ps IH]; [reflexivity |].
  unfold paramgen_callbacks, progress_events in *. cbn [flat_map].
  now rewrite gendsa_cb_verbose, IH.
Qed.

Lemma paramgen_callbacks_quiet signals :
  paramgen_callbacks false bio_err signals = [].
Proof.
  induction signals as [| p ps IH]; [reflexivity |].
  unfold paramgen_callbacks in *. simpl. exact IH.
Qed.

Local Opaque paramgen_callbacks.

Lemma filter_progress_events signals :
  filter is_progress (progress_events signals) = progress_events signals.
Proof.
  induction signals as [| p ps IH]; [reflexivity |].
  unfold progress_events in *. simpl. now rewrite IH.
Qed.

Section Verbosity.

Variable w : world.

(** X18: in a run that starts the search, what is written with
    [BIO_write] is, with [verbose] set, one character and one flush on
    [bio_err] for each progress signal of the search, in the order of
    the signals, and nothing otherwise. *)
Theorem progress_of_a_run MAX v cl t0 l numbits num :
  options w v cl = (t0, Next (l, (numbits, num))) ->
  0 < numbits ->
  streams_ok w l = true ->
  0 < EVP_PKEY_paramgen_init w ->
  EVP_PKEY_CTX_set_dsa_paramgen_bits w numbits <> 0 ->
  filter is_progress (fst (dsaparam_main w MAX v cl)) =
  if verbose l
  then progress_events (fst (fst (EVP_PKEY_paramgen w numbits)))
  else [].
Proof.
  intros H Hpos Hs Hinit Hbits.
  pose proof (accepted_num w v cl H Hpos) as Hnum. subst num.
  rewrite (run_filter_streams_ok w MAX is_progress v cl H Hs)
    by (trivial; classify).
  rewrite render_filter_none by classify. rewrite app_nil_r.
  apply Z.ltb_lt in Hpos. apply Z.leb_gt in Hinit.
  apply Z.eqb_neq in Hbits.
  unfold resolve, generate. unfold_monad. rewrite Hpos, Hinit, Hbits.
  destruct (EVP_PKEY_paramgen w numbits) as [[signals rc] params].
  case_world;
    rewrite ?app_nil_r, ?filter_app,
      ?paramgen_callbacks_verbose, ?paramgen_callbacks_quiet,
      ?filter_progress_events;
    simpl; rewrite ?app_nil_r; reflexivity.
Qed.

Lemma generate_ceiling MAX MAX' l numbits num :
  numbits <= MAX -> numbits <= MAX' ->
  generate w MAX l numbits num = generate w MAX' l numbits num.
Proof.
  intros H1 H2. apply Z.ltb_ge in H1, H2.
  unfold generate. now rewrite H1, H2.
Qed.

(** X20: the ceiling has no effect on a run whose bit length does not
    exceed it: under any two such ceilings the run makes the same calls
    and returns the same code. *)
Theorem ceiling_unused_below MAX MAX' v cl t0 l numbits num :
  options w v cl = (t0, Next (l, (numbits, num))) ->
  numbits <= MAX ->
  numbits <= MAX' ->
  dsaparam_main w MAX v cl = dsaparam_main w MAX' v cl.
Proof.
  intros H H1 H2. unfold dsaparam_main, body. rewrite H. simpl.
  unfold stages, resolve.
  now rewrite (generate_ceiling l num H1 H2).
Qed.

Lemma stages_verbose MAX b l numbits num :
  numbits <= 0 ->
  stages w MAX (set_verbose b l) numbits num = stages w MAX l numbits num.
Proof.
  intros Hle. apply Z.ltb_ge in Hle.
  unfold stages, resolve. rewrite Hle. reflexivity.
Qed.

(** X19: [-verbose] changes nothing unless parameters are generated:
    when the positional argument gives no positive bit length, adding
    [-verbose] after the other options leaves the calls of the run and
    its exit code as they are. *)
Theorem verbose_unused_when_loading MAX v opts a rest :
  no_eof opts = true ->
  (forall numbits num,
     snd (read_numbits w rest) = Next (numbits, num) -> numbits <= 0) ->
  dsaparam_main w MAX v
    {| cl_opts := opts ++ [(OPT_VERBOSE, a)]; cl_rest := rest |}
  = dsaparam_main w MAX v {| cl_opts := opts; cl_rest := rest |}.
Proof.
  intros Hne Hnum. unfold dsaparam_main, body, options. cbn [cl_opts cl_rest].
  rewrite opt_loop_app by trivial.
  destruct (opt_loop w opts (locals_init v)) as [t [l | r | ]]; trivial.
  assert (Hv : (l' <- (t, Next l) ;; opt_loop w [(OPT_VERBOSE, a)] l')
               = (t, Next (set_verbose true l))).
  { simpl. now rewrite !app_nil_r. }
  rewrite Hv. pose proof (read_numbits_trace w rest) as Ht.
  destruct (read_numbits w rest) as [tr [[numbits num] | r | ]];
    simpl in Ht; subst tr; trivial.
  specialize (Hnum numbits num eq_refl).
  simpl. now rewrite (stages_verbose MAX true l num Hnum).
Qed.

End Verbosity.

(** [dsaparam -verbose 512], the search raising the signals 0, 1, 2, 3
    and 7. *)
Lemma progress_of_a_run_witness :
  filter is_progress
    (fst (dsaparam_main Cases.all_ok Examples.max_bits false
            Cases.cl_verbose_512))
  = progress_events [0; 1; 2; 3; 7].
Proof.
  exact (progress_of_a_run Cases.all_ok Examples.max_bits false
           Cases.cl_verbose_512 (t0 := []) eq_refl eq_refl eq_refl eq_refl
           ltac:(discriminate)).
Defined.

(** [dsaparam 512] under the ceilings 10000 and 1024. *)
Lemma ceiling_unused_below_witness :
  dsaparam_main Cases.all_ok Examples.max_bits false Cases.cl_512
  = dsaparam_main Cases.all_ok 1024 false Cases.cl_512.
Proof.
  exact (ceiling_unused_below Cases.all_ok (MAX := Examples.max_bits)
           (MAX' := 1024) false Cases.cl_512 (t0 := []) eq_refl
           ltac:(discriminate) ltac:(discriminate)).
Defined.

(** [dsaparam -text -in in.pem -verbose] and [dsaparam -text -in in.pem] *)
Lemma verbose_unused_when_loading_witness :
  dsaparam_main Cases.all_ok Examples.max_bits false
    {| cl_opts := [(OPT_TEXT, ""); (OPT_IN, "in.pem")] ++ [(OPT_VERBOSE, "")];
       cl_rest := [] |}
  = dsaparam_main Cases.all_ok Examples.max_bits false
      {| cl_opts := [(OPT_TEXT, ""); (OPT_IN, "in.pem")]; cl_rest := [] |}.
Proof.
  apply (verbose_unused_when_loading Cases.all_ok Examples.max_bits false
           [(OPT_TEXT, ""); (OPT_IN, "in.pem")] "" []).
  - reflexivity.
  - intros numbits num Hn. inversion Hn. discriminate.
Defined.
